(** * pulumi-yaml: the type checker's assignability relation, property-access
    typing, package token resolution and the string built-ins.

    The development embeds, function by function, the parts of
    [pkg/pulumiyaml/analyser.go] and [pkg/pulumiyaml/packages.go] that the
    specification talks about, and proves or refutes the specification's
    statements on them. *)

From Stdlib Require Import String Ascii List ZArith Lia Bool Arith DecimalString ZifyNat.
From stdpp Require Import base option list gmap strings.
From Equations Require Import Equations.
Import ListNotations.
Local Open Scope string_scope.
Local Open Scope list_scope.
Set Warnings "-register-all".

(** ** Diagnostics ([hcl.Diagnostic], [syntax.Diagnostic]) *)

(** [hcl.DiagnosticSeverity]; [DiagInvalid] is its zero value. *)
Inductive Severity := DiagInvalid | DiagError | DiagWarning.

Record Range := mkRange { Filename : string; StartByte : nat; EndByte : nat }.

Record Diagnostic := mkDiagnostic {
  DiagSeverity : Severity;
  Subject : option Range;
  Summary : string;
  Detail : string
}.

(** ** The schema type universe ([codegen/schema]) *)

Module Schema.

(** The eight primitive types of the schema package. *)
Inductive primitiveType :=
| boolType | intType | numberType | stringType
| archiveType | assetType | jsonType | anyType.

(** [schema.Property]: only the name and the type matter to the checker. *)
Record Property (T : Type) := mkProperty { Name : string; PType : T }.
Arguments mkProperty {T} _ _.
Arguments Name {T} _.
Arguments PType {T} _.

(** [schema.Type].  Go represents composite types by pointers; the embedding
    uses finite trees, so a type never contains itself. *)
Inductive schemaType :=
| Primitive (p : primitiveType)
| InvalidType (Diagnostics : list Diagnostic)
| OptionalType (ElementType : schemaType)
| InputType (ElementType : schemaType)
| ArrayType (ElementType : schemaType)
| MapType (ElementType : schemaType)
| UnionType (ElementTypes : list schemaType)
| ObjectType (Token : string) (Properties : list (Property schemaType))
| ResourceType (Token : string) (Properties : list (Property schemaType))
| EnumType (Token : string) (ElementType : schemaType)
| TokenType (Token : string) (UnderlyingType : option schemaType).

Definition BoolType := Primitive boolType.
Definition IntType := Primitive intType.
Definition NumberType := Primitive numberType.
Definition StringType := Primitive stringType.
Definition ArchiveType := Primitive archiveType.
Definition AssetType := Primitive assetType.
Definition JSONType := Primitive jsonType.
Definition AnyType := Primitive anyType.

Definition primitive_eqb (a b : primitiveType) : bool :=
  match a, b with
  | boolType, boolType | intType, intType | numberType, numberType
  | stringType, stringType | archiveType, archiveType
  | assetType, assetType | jsonType, jsonType | anyType, anyType => true
  | _, _ => false
  end.

(** Number of constructors of a type: the measure every recursion of the
    checker decreases. *)
Fixpoint size (t : schemaType) : nat :=
  match t with
  | Primitive _ | InvalidType _ => 0
  | OptionalType e | InputType e | ArrayType e | MapType e => S (size e)
  | UnionType ts => S (list_sum (map size ts))
  | ObjectType _ ps | ResourceType _ ps =>
      S (list_sum (map (fun p => S (size (PType p))) ps))
  | EnumType _ e => S (size e)
  | TokenType _ u => S (match u with Some u => size u | None => 0 end)
  end.

(** [codegen.UnwrapType]: strips [Input] and [Optional] wrappers. *)
Fixpoint UnwrapType (t : schemaType) : schemaType :=
  match t with
  | InputType e => UnwrapType e
  | OptionalType e => UnwrapType e
  | _ => t
  end.

(** [schema.IsPrimitiveType]. *)
Definition IsPrimitiveType (t : schemaType) : bool :=
  match t with Primitive _ => true | _ => false end.

(** [from == schema.XType]: comparison of an interface value with a
    primitive. *)
Definition isPrim (t : schemaType) (p : primitiveType) : bool :=
  match t with Primitive q => primitive_eqb q p | _ => false end.

(** The type assertion of [t] to an invalid type. *)
Definition isInvalid (t : schemaType) : bool :=
  match t with InvalidType _ => true | _ => false end.

(** [Property.IsRequired]: a property is required unless its type is
    [Optional]. *)
Definition IsRequired (p : Property schemaType) : bool :=
  match PType p with OptionalType _ => false | _ => true end.

(** [ObjectType.Property(name)]: lookup in the name-indexed table the object
    builds from its property list (a later entry of the same name replaces an
    earlier one). *)
Definition propertyTable (ps : list (Property schemaType))
  : gmap string (Property schemaType) :=
  foldl (fun m p => <[Name p := p]> m) ∅ ps.

Definition lookupProperty (ps : list (Property schemaType)) (name : string)
  : option (Property schemaType) :=
  propertyTable ps !! name.

(** The [String()] method of the schema types, as the schema package renders
    them; the checker uses it where it prints a type it does not format
    itself.  Only the text of messages depends on it. *)
Definition primitiveString (p : primitiveType) : string :=
  match p with
  | boolType => "boolean"
  | intType => "integer"
  | numberType => "number"
  | stringType => "string"
  | archiveType => "pulumi:pulumi:Archive"
  | assetType => "pulumi:pulumi:Asset"
  | jsonType | anyType => "pulumi:pulumi:Any"
  end.

Fixpoint typeString (t : schemaType) : string :=
  match t with
  | Primitive p => primitiveString p
  | InvalidType _ => "Invalid"
  | OptionalType e => "Optional<" +:+ typeString e +:+ ">"
  | InputType e => "Input<" +:+ typeString e +:+ ">"
  | ArrayType e => "Array<" +:+ typeString e +:+ ">"
  | MapType e => "Map<" +:+ typeString e +:+ ">"
  | UnionType ts => "Union<" +:+ String.concat ", " (map typeString ts) +:+ ">"
  | ObjectType tok _ => tok
  | ResourceType tok _ => tok
  | EnumType tok _ => tok
  | TokenType tok _ => tok
  end.

(** Equality of types is decidable. *)
Definition Diagnostic_eq_dec (a b : Diagnostic) : {a = b} + {a <> b}.
Proof. repeat decide equality. Defined.

Definition Property_eq_dec {T} (dec : forall a b : T, {a = b} + {a <> b})
  (p q : Property T) : {p = q} + {p <> q}.
Proof. decide equality. apply string_dec. Defined.

Fixpoint schemaType_eq_dec (a b : schemaType) {struct a} : {a = b} + {a <> b}.
Proof.
  decide equality;
    try apply string_dec;
    try (apply List.list_eq_dec;
         first [ apply Diagnostic_eq_dec
               | apply schemaType_eq_dec
               | apply Property_eq_dec; apply schemaType_eq_dec ]).
  - decide equality.
  - decide equality.
Defined.

End Schema.
Import Schema.

(** ** Assignability ([analyser.go], [notAssignable] and [isAssignable]) *)

(** [notAssignable]: the logic chain for why an assignment is not possible. *)
Inductive notAssignable := mkNotAssignable {
  reason : string;
  because : list notAssignable;
  internal : bool;
  property : string
}.

(** [n.Because(b...)] and [n.Property(name)] return an updated copy. *)
Definition Because (n : notAssignable) (b : list notAssignable) : notAssignable :=
  mkNotAssignable (reason n) b (internal n) (property n).

Definition WithProperty (n : notAssignable) (propName : string) : notAssignable :=
  mkNotAssignable (reason n) (because n) (internal n) propName.

Definition adhockObjectToken : string := "pulumi:adhock:".

(** [displayType]. *)
Fixpoint displayType_fuel (fuel : nat) (t : schemaType) : string :=
  match fuel with
  | 0 => ""
  | S fuel =>
      match UnwrapType t with
      | ObjectType tok props =>
          if negb (String.prefix adhockObjectToken tok) then tok
          else "{" +:+ String.concat ", "
                 (map (fun prop => Name prop +:+ ": " +:+ displayType_fuel fuel (PType prop)) props)
               +:+ "}"
      | ArrayType e => "List<" +:+ displayType_fuel fuel e +:+ ">"
      | MapType e => "Map<" +:+ displayType_fuel fuel e +:+ ">"
      | UnionType ts =>
          "Union<" +:+ String.concat ", " (map (displayType_fuel fuel) ts) +:+ ">"
      | u => typeString u
      end
  end.

Definition displayType (t : schemaType) : string :=
  displayType_fuel (S (size t)) t.

(** The result of [isAssignable]: [None] is Go's [nil] (the assignment is
    legal), [Some r] the reason why it is not. *)
Definition assignResult := option notAssignable.

Section IsAssignableBody.

(** The recursive calls of [isAssignable]. *)
Variable rec : schemaType -> schemaType -> assignResult.

(** [for _, subtype := range from.ElementTypes]: the reasons of the
    alternatives of a source union that do not fit. *)
Fixpoint unionFromReasons (elementTypes : list schemaType) (to : schemaType)
  : list notAssignable :=
  match elementTypes with
  | [] => []
  | subtype :: rest =>
      match rec subtype to with
      | Some because => because :: unionFromReasons rest to
      | None => unionFromReasons rest to
      end
  end.

(** [for _, subtype := range to.ElementTypes]: stops at the first alternative
    of a target union that accepts [from]. *)
Fixpoint unionToReasons (from : schemaType) (elementTypes : list schemaType)
  : option (list notAssignable) :=
  match elementTypes with
  | [] => Some []
  | subtype :: rest =>
      match rec from subtype with
      | None => None
      | Some because =>
          match unionToReasons from rest with
          | None => None
          | Some reasons => Some (because :: reasons)
          end
      end
  end.

(** [for _, prop := range from.Properties] of the map case: the first
    property of an object that does not fit the map's element type. *)
Fixpoint mapFromObject (props : list (Property schemaType)) (elementType : schemaType)
  : option notAssignable :=
  match props with
  | [] => None
  | prop :: rest =>
      match rec (PType prop) elementType with
      | Some notOk => Some (WithProperty notOk (Name prop))
      | None => mapFromObject rest elementType
      end
  end.

(** [for _, prop := range to.Properties] of the object case. *)
Fixpoint objectFailures (fromProps toProps : list (Property schemaType))
  : list notAssignable :=
  match toProps with
  | [] => []
  | prop :: rest =>
      match lookupProperty fromProps (Name prop) with
      | None =>
          if IsRequired prop then
            WithProperty
              (mkNotAssignable ("Missing required property '" +:+ Name prop +:+ "'") [] false "")
              (Name prop)
            :: objectFailures fromProps rest
          else objectFailures fromProps rest
      | Some fromProp =>
          match rec (PType fromProp) (PType prop) with
          | Some notAssignable =>
              WithProperty notAssignable (Name prop) :: objectFailures fromProps rest
          | None => objectFailures fromProps rest
          end
      end
  end.

(** One pass through the body of [isAssignable]. *)
Definition isAssignable_body (from to : schemaType) : assignResult :=
  let to := UnwrapType to in
  let from := UnwrapType from in
  if isInvalid from then None
  else if isInvalid to then None
  else
    let fail :=
      mkNotAssignable
        ("Cannot assign " +:+ displayType from +:+ " to type " +:+ displayType to)
        [] false "" in
    let okIf (cond : bool) : assignResult := if cond then None else Some fail in
    let okIfAssignable (s : assignResult) : assignResult :=
      match s with
      | None => None
      | Some s => Some (Because fail [s])
      end in
    match from with
    | UnionType fromElems =>
        match unionFromReasons fromElems to with
        | [] => None
        | reasons => Some (Because fail reasons)
        end
    | _ =>
        if IsPrimitiveType to then
          match to with
          | Primitive anyType => okIf true
          | Primitive numberType | Primitive intType =>
              okIf (isPrim from numberType || isPrim from intType)
          | Primitive stringType =>
              let isResource :=
                match from with ResourceType _ _ => true | _ => false end in
              okIf (isResource || isPrim from stringType
                    || isPrim from numberType
                    || isPrim from intType
                    || isPrim from boolType)
          | Primitive assetType =>
              okIf (isPrim from assetType || isPrim from archiveType)
          | Primitive p => okIf (isPrim from p)
          | _ => okIf false
          end
        else
          match to with
          | UnionType toElems =>
              match unionToReasons from toElems with
              | None => None
              | Some reasons => Some (Because fail reasons)
              end
          | ArrayType toElem =>
              match from with
              | ArrayType fromElem => okIfAssignable (rec fromElem toElem)
              | _ => Some fail
              end
          | MapType toElem =>
              match from with
              | MapType fromElem => okIfAssignable (rec fromElem toElem)
              | ObjectType _ fromProps =>
                  match fromProps with
                  | [] => okIf true
                  | _ =>
                      match mapFromObject fromProps toElem with
                      | Some notOk => Some (Because fail [notOk])
                      | None => okIf true
                      end
                  end
              | _ => Some fail
              end
          | ResourceType toToken _ =>
              match from with
              | ResourceType fromToken _ => okIf (String.eqb toToken fromToken)
              | _ => okIf false
              end
          | EnumType _ toElem =>
              match rec from toElem with
              | Some _ => Some fail
              | None => okIf true
              end
          | ObjectType _ toProps =>
              match from with
              | ObjectType _ fromProps =>
                  match objectFailures fromProps toProps with
                  | [] => None
                  | failures => Some (Because fail failures)
                  end
              | _ => Some fail
              end
          | TokenType toToken underlying =>
              match underlying with
              | Some underlying => rec from underlying
              | None =>
                  Some (mkNotAssignable ("Unknown opaque type: " +:+ toToken) [] true "")
              end
          | _ =>
              (* the default case: a kind of type the checker does not know *)
              Some (mkNotAssignable ("Unknown type: " +:+ typeString to) [] true "")
          end
    end.

End IsAssignableBody.

(** [isAssignable] recurses on strictly smaller pairs of types; [fuel] bounds
    the depth of the recursion. *)
Fixpoint isAssignable_fuel (fuel : nat) (from to : schemaType) : assignResult :=
  match fuel with
  | 0 => None
  | S fuel => isAssignable_body (isAssignable_fuel fuel) from to
  end.

(** [isAssignable(from, to)]: the fuel is one more than the size of the two
    types, which the recursion never uses up ([isAssignable_unfold]). *)
Definition isAssignable (from to : schemaType) : assignResult :=
  isAssignable_fuel (S (size from + size to)) from to.

(** Whether the assignment is legal: [isAssignable] returned nil. *)
Definition isLegal (r : assignResult) : bool :=
  match r with None => true | Some _ => false end.

(** Whether a type is a union (the type assertion of [from] to a union). *)
Definition isUnion (t : schemaType) : bool :=
  match t with UnionType _ => true | _ => false end.

(** Types without enum and token components whose objects name each property
    once: on these types [isAssignable] relates a type to itself. *)
Fixpoint selfAssignable (t : schemaType) : bool :=
  match t with
  | Primitive _ | InvalidType _ => true
  | OptionalType e | InputType e | ArrayType e | MapType e => selfAssignable e
  | UnionType ts => forallb selfAssignable ts
  | ObjectType _ ps =>
      forallb (fun p => selfAssignable (PType p)) ps
      && bool_decide (NoDup (map Name ps))
  | ResourceType _ _ => true
  | EnumType _ _ | TokenType _ _ => false
  end.

(** ** Property access ([analyser.go], [typePropertyAccess]) *)

(** [ast.PropertyAccessor]: a name, or a subscript by an int or a string. *)
Inductive SubscriptIndex := IndexInt (i : Z) | IndexString (s : string).

Inductive PropertyAccessor :=
| PropertyName (Name : string)
| PropertySubscript (Index : SubscriptIndex).

(** [yamldiags.NonExistantFieldFormatter]. *)
Record NonExistantFieldFormatter := mkFormatter {
  ParentLabel : string;
  Fields : list string;
  MaxElements : nat;
  FieldsAreProperties : bool
}.

(** A line feed. *)
Definition newline : string := String (ascii_of_nat 10) EmptyString.

(** [strings.Repeat]. *)
Fixpoint Repeat (s : string) (count : nat) : string :=
  match count with
  | 0 => ""
  | S count => s +:+ Repeat s count
  end.

(** [notAssignable.string(indent)] and [notAssignable.String()]. *)
Fixpoint notAssignable_string (indent : nat) (n : notAssignable) : string :=
  match n with
  | mkNotAssignable reason because _ property =>
      let prop := if String.eqb property "" then "" else property +:+ ": " in
      let s := Repeat "  " indent +:+ prop +:+ reason in
      let s := match because with [] => s | _ => s +:+ ":" end in
      fold_left (fun s arg => s +:+ newline +:+ arg)
                (map (notAssignable_string (S indent)) because) s
  end.

Definition notAssignable_String (n : notAssignable) : string :=
  notAssignable_string 0 n.

(** [fmt.Sprintf("%d", i)]. *)
Definition formatInt (i : Z) : string :=
  DecimalString.NilZero.string_of_int (Z.to_int i).

(** What a call of [typePropertyAccess] yields: the type it returns and the
    calls it made to the [setError] it was given, as (summary, detail), in
    order. *)
Definition accessResult := (schemaType * list (string * string))%type.

(** A call [setError(summary, detail)] whose result is returned. *)
Definition callSetError (setError : string -> string -> schemaType)
  (summary detail : string) : accessResult :=
  (setError summary detail, [(summary, detail)]).

(** [properties[prop.Name] = prop.Type] for each property, in order. *)
Definition propertyTypes (ps : list (Property schemaType)) : gmap string schemaType :=
  foldl (fun m p => <[Name p := PType p]> m) ∅ ps.

Section TypePropertyAccess.

(** [strconv.Quote], behind the verb [%q]. *)
Variable Quote : string -> string.

(** [NonExistantFieldFormatter.MessageWithDetail(field, label)], of the
    [diags] package. *)
Variable MessageWithDetail :
  NonExistantFieldFormatter -> string -> string -> string * string.

(** The keys of a Go map whose keys are types, once the given types have been
    put in, as a [range] over the map yields them.  A primitive type is a key
    by its value.  Every other type is a pointer, and two of them are one key
    only when they are one pointer, which the types here do not record; nor
    is the order of a [range] fixed.  So the keys are left open; [keySet]
    says what Go guarantees of them. *)
Variable mapKeys : list schemaType -> list schemaType.

Section Body.

(** The recursive calls of [typePropertyAccess]. *)
Variable rec : (string -> string -> schemaType) -> schemaType -> string ->
               list PropertyAccessor -> accessResult.

(** [for _, subtypes := range root.ElementTypes]: the types of the branches
    that are not invalid, and the errors the branches reported. *)
Fixpoint unionBranches (elementTypes : list schemaType) (runningName : string)
  (accessors : list PropertyAccessor) : list schemaType * list notAssignable :=
  match elementTypes with
  | [] => ([], [])
  | subtypes :: rest =>
      let '(t, calls) :=
        rec (fun _ _ => InvalidType []) subtypes runningName accessors in
      let errs :=
        map (fun call => mkNotAssignable (fst call) [] false (typeString subtypes)) calls in
      let '(possibilities, restErrs) := unionBranches rest runningName accessors in
      ((if isInvalid t then possibilities else t :: possibilities), errs ++ restErrs)
  end.

(** The property access itself: look [name] up in [properties]. *)
Definition accessProperty (setError : string -> string -> schemaType)
  (properties : gmap string schemaType) (runningName name : string)
  (rest : list PropertyAccessor) : accessResult :=
  match properties !! name with
  | None =>
      let propertyList := (map_to_list properties).*1 in
      let fmtr := mkFormatter runningName propertyList 5 true in
      let '(summary, detail) := MessageWithDetail fmtr name name in
      callSetError setError summary detail
  | Some newType =>
      rec setError newType (runningName +:+ "." +:+ name) rest
  end.

(** One pass through the body of [typePropertyAccess]. *)
Definition typePropertyAccess_body (setError : string -> string -> schemaType)
  (root : schemaType) (runningName : string) (accessors : list PropertyAccessor)
  : accessResult :=
  match accessors with
  | [] => (root, [])
  | accessor :: rest =>
      match root with
      | UnionType elementTypes =>
          let '(possibilities, errs) :=
            unionBranches elementTypes runningName accessors in
          match errs with
          | _ :: _ =>
              let op :=
                match accessor with
                | PropertySubscript _ => "index"
                | _ => "access"
                end in
              let summary :=
                "Cannot " +:+ op +:+ " into " +:+ runningName +:+ " of type "
                +:+ displayType root in
              let detail :=
                notAssignable_String
                  (mkNotAssignable
                     ("'" +:+ runningName +:+ "' could be a type that does not support "
                      +:+ op +:+ "ing")
                     errs false "") in
              (* the result of this [setError] is dropped *)
              (InvalidType [], [(summary, detail)])
          | [] =>
              (* [for k := range possibilities] *)
              let arr := mapKeys possibilities in
              match arr with
              | [t] => (t, [])
              | _ => (UnionType arr, [])
              end
          end
      | _ =>
          match accessor with
          | PropertyName name =>
              match UnwrapType root with
              | ObjectType _ props =>
                  accessProperty setError (propertyTypes props) runningName name rest
              | ResourceType _ props =>
                  accessProperty setError
                    (<["urn" := StringType]> (<["id" := StringType]> (propertyTypes props)))
                    runningName name rest
              | InvalidType d => (InvalidType d, [])
              | unwrapped =>
                  callSetError setError
                    ("cannot access a property on '" +:+ runningName +:+ "' (type "
                     +:+ displayType unwrapped +:+ ")")
                    "Property access is only allowed on Resources and Objects"
              end
          | PropertySubscript index =>
              let err (typ msg : string) : accessResult :=
                callSetError setError
                  ("Cannot index" +:+ typ +:+ " into '" +:+ runningName +:+ "' (type "
                   +:+ displayType (UnwrapType root) +:+ ")")
                  msg in
              match UnwrapType root with
              | ArrayType elementType =>
                  match index with
                  | IndexString _ =>
                      err " via string" "Index via string is only allowed on Maps"
                  | IndexInt i =>
                      rec setError elementType
                          (runningName +:+ "[" +:+ formatInt i +:+ "]") rest
                  end
              | MapType elementType =>
                  match index with
                  | IndexInt _ =>
                      err " via number" "Index via number is only allowed on Arrays"
                  | IndexString s =>
                      rec setError elementType
                          (runningName +:+ "[" +:+ Quote s +:+ "]") rest
                  end
              | InvalidType _ => (InvalidType [], [])
              | _ => err "" "Index property access is only allowed on Maps and Lists"
              end
          end
      end
  end.

End Body.

(** Every recursive call is on a type strictly inside [root]; [fuel] bounds
    the depth. *)
Fixpoint typePropertyAccess_fuel (fuel : nat)
  (setError : string -> string -> schemaType) (root : schemaType)
  (runningName : string) (accessors : list PropertyAccessor) : accessResult :=
  match fuel with
  | 0 => (root, [])
  | S fuel =>
      typePropertyAccess_body (typePropertyAccess_fuel fuel)
        setError root runningName accessors
  end.

(** [typePropertyAccess(ctx, root, runningName, accessors, setError)]; [ctx]
    is not used by the function. *)
Definition typePropertyAccess (setError : string -> string -> schemaType)
  (root : schemaType) (runningName : string) (accessors : list PropertyAccessor)
  : accessResult :=
  typePropertyAccess_fuel (S (size root)) setError root runningName accessors.

(** The errors the branches of a union report, as the loop collects them. *)
Definition branchErrors (els : list schemaType) (name : string)
  (accessors : list PropertyAccessor) : list notAssignable :=
  flat_map
    (fun s => map (fun call => mkNotAssignable (fst call) [] false (typeString s))
                  (snd (typePropertyAccess (fun _ _ => InvalidType []) s name accessors)))
    els.

(** The operation named in the message for a union. *)
Definition accessOp (accessor : PropertyAccessor) : string :=
  match accessor with PropertySubscript _ => "index" | PropertyName _ => "access" end.

End TypePropertyAccess.

(** A double quote. *)
Definition dquote : string := String (ascii_of_nat 34) EmptyString.

(** [%q] on a string that needs no escaping: the string between double
    quotes. *)
Definition quotePlain (s : string) : string := dquote +:+ s +:+ dquote.

(** A plain rendering of a missing field, for running [typePropertyAccess] on
    concrete inputs: the field and its parent, then the fields that exist. *)
Definition plainMessageWithDetail (fmtr : NonExistantFieldFormatter)
  (field label : string) : string * string :=
  (label +:+ " does not exist on " +:+ ParentLabel fmtr,
   "Existing properties are: " +:+ String.concat ", " (Fields fmtr)).

(** What Go guarantees of the keys of a map of types: they are the types put
    in, there are no more keys than types put in, and a primitive type is
    there at most once. *)
Definition keySet (keys : list schemaType -> list schemaType) : Prop :=
  forall l,
    (forall t, In t (keys l) <-> In t l) /\
    List.length (keys l) <= List.length l /\
    (forall p, count_occ schemaType_eq_dec (keys l) (Primitive p) <= 1).

(** The keys when every type that is not primitive is a pointer of its own:
    the primitive types once each, every other type as often as it was put
    in.  For running the checker on concrete inputs. *)
Fixpoint distinctKeys (l : list schemaType) : list schemaType :=
  match l with
  | [] => []
  | t :: rest =>
      if IsPrimitiveType t
         && existsb (fun u => if schemaType_eq_dec t u then true else false) rest
      then distinctKeys rest
      else t :: distinctKeys rest
  end.

(** [typePropertyAccess] as [typeSymbol] and the tests run it. *)
Definition typePropertyAccess' :=
  typePropertyAccess quotePlain plainMessageWithDetail distinctKeys.

(** ** Go's [unicode/utf8] and [strings], as far as the program uses them *)

Module GoStrings.

(** A Go string is a sequence of bytes; so is a [string] here. *)
Definition byteOf (c : ascii) : nat := nat_of_ascii c.

Definition inRange (r : nat * nat) (c : ascii) : bool :=
  Nat.leb (fst r) (byteOf c) && Nat.leb (byteOf c) (snd r).

(** The continuation bytes a leading byte asks for, each with the range it
    must lie in; [None] for a byte that cannot start a sequence
    ([first] and [acceptRanges] of [unicode/utf8]). *)
Definition continuation (c : ascii) : option (list (nat * nat)) :=
  let b := byteOf c in
  if Nat.ltb b 128 then Some []
  else if Nat.ltb b 194 then None
  else if Nat.ltb b 224 then Some [(128, 191)]
  else if Nat.eqb b 224 then Some [(160, 191); (128, 191)]
  else if Nat.eqb b 237 then Some [(128, 159); (128, 191)]
  else if Nat.ltb b 240 then Some [(128, 191); (128, 191)]
  else if Nat.eqb b 240 then Some [(144, 191); (128, 191); (128, 191)]
  else if Nat.ltb b 244 then Some [(128, 191); (128, 191); (128, 191)]
  else if Nat.eqb b 244 then Some [(128, 143); (128, 191); (128, 191)]
  else None.

(** The string of the given bytes. *)
Definition bytes (l : list nat) : string :=
  string_of_list_ascii (map ascii_of_nat l).

(** [utf8.ValidString], reading the string once: [pending] are the ranges of
    the continuation bytes still expected. *)
Fixpoint validFrom (pending : list (nat * nat)) (s : string) : bool :=
  match s with
  | EmptyString => match pending with [] => true | _ => false end
  | String c s' =>
      match pending with
      | r :: pending' => inRange r c && validFrom pending' s'
      | [] =>
          match continuation c with
          | Some pending' => validFrom pending' s'
          | None => false
          end
      end
  end.

Definition ValidString (s : string) : bool := validFrom [] s.

(** Whether [s] starts with bytes in the given ranges. *)
Fixpoint startsInRanges (rs : list (nat * nat)) (s : string) : bool :=
  match rs with
  | [] => true
  | r :: rs' =>
      match s with
      | String c s' => inRange r c && startsInRanges rs' s'
      | EmptyString => false
      end
  end.

(** [utf8.DecodeRuneInString] on a non-empty string: the width of the first
    rune, or [None] for an invalid sequence (which counts one byte). *)
Definition decodeRune (c : ascii) (rest : string) : option nat :=
  match continuation c with
  | Some rs => if startsInRanges rs rest then Some (S (List.length rs)) else None
  | None => None
  end.

(** [string(utf8.RuneError)]. *)
Definition runeError : string := bytes [239; 191; 189].

Fixpoint dropString (n : nat) (s : string) : string :=
  match n, s with
  | S n, String _ s => dropString n s
  | _, _ => s
  end.

Fixpoint takeString (n : nat) (s : string) : string :=
  match n, s with
  | S n, String c s => String c (takeString n s)
  | _, _ => EmptyString
  end.

(** [explode(s, -1)]: the UTF-8 sequences of [s], one string each; a byte
    that starts no valid sequence is replaced by [utf8.RuneError], except in
    the last element, which is what is left of [s]. *)
Fixpoint explode_fuel (fuel : nat) (s : string) : list string :=
  match fuel, s with
  | S fuel, String c rest =>
      let size := default 1 (decodeRune c rest) in
      match dropString size s with
      | EmptyString => [s]
      | s' =>
          (match decodeRune c rest with
           | Some _ => takeString size s
           | None => runeError
           end) :: explode_fuel fuel s'
      end
  | _, _ => []
  end.

Definition explode (s : string) : list string :=
  explode_fuel (String.length s) s.

(** The loop of [genSplit] for a separator that is not empty, [String a sep]:
    cut at each occurrence of the separator, from the left; [piece] is the
    part of the current piece already read. *)
Equations? splitOn (a : ascii) (sep : string) (s : string) (piece : string)
  : list string by wf (String.length s) lt :=
  splitOn a sep EmptyString piece := [piece];
  splitOn a sep (String c s) piece with String.prefix (String a sep) (String c s) := {
    | true => piece :: splitOn a sep (dropString (String.length sep) s) "";
    | false => splitOn a sep s (piece +:+ String c "") }.
Proof.
  assert (forall n t, String.length (dropString n t) <= String.length t) as Hdrop
    by (induction n; destruct t; simpl; auto).
  pose proof (Hdrop (String.length sep) s). simpl. lia.
Qed.

(** [strings.Split(s, sep)]. *)
Definition Split (s sep : string) : list string :=
  match sep with
  | EmptyString => explode s
  | String a sep' => splitOn a sep' s ""
  end.

(** [strings.Join(elems, sep)]. *)
Definition Join (elems : list string) (sep : string) : string :=
  String.concat sep elems.

End GoStrings.

(** ** Packages ([packages.go]) *)

Module Packages.
Import GoStrings.

(** A value or an error, as Go's [(T, error)] results. *)
Inductive result (A : Type) :=
| Ok (value : A)
| Err (message : string).
Arguments Ok {A} _.
Arguments Err {A} _.

(** [schema.Resource] and [schema.Function], as far as resolution reads them:
    the token, and for a resource the name of the package it belongs to. *)
Record Resource := mkResource { ResourceToken : string; ResourcePackage : string }.
Record Function := mkFunction { FunctionToken : string }.

(** [schema.Package] with its token-indexed tables. *)
Record SchemaPackage := mkPackage {
  PackageName : string;
  Provider : Resource;
  resourceTable : gmap string Resource;
  functionTable : gmap string Function
}.

(** [pkg.GetResource(token)] and [pkg.GetFunction(token)]. *)
Definition GetResource (p : SchemaPackage) (token : string) : option Resource :=
  resourceTable p !! token.

Definition GetFunction (p : SchemaPackage) (token : string) : option Function :=
  functionTable p !! token.

(** [resourcePackage.Name()]. *)
Definition resourcePackage_Name (p : SchemaPackage) : string :=
  ResourcePackage (Provider p).

(** [typeParts[i]]. *)
Definition part (typeParts : list string) (i : nat) : string :=
  nth i typeParts "".

Section Resolve.

(** [strcase.ToLowerCamel] and [strconv.Quote] (the verb [%q]). *)
Variable ToLowerCamel : string -> string.
Variable Quote : string -> string.

(** [resourcePackage.ResolveResource]. *)
Definition ResolveResource (p : SchemaPackage) (typeName : string) : result string :=
  let typeParts := Split typeName ":" in
  if Nat.ltb (List.length typeParts) 2 || Nat.ltb 3 (List.length typeParts) then
    Err ("invalid type token " +:+ Quote typeName)
  else if Nat.eqb (List.length typeParts) 3
          && String.eqb (part typeParts 0) "pulumi"
          && String.eqb (part typeParts 1) "providers"
          && String.eqb (part typeParts 2) (PackageName p) then
    Ok (ResourceToken (Provider p))
  else
    match GetResource p typeName with
    | Some res => Ok (ResourceToken res)
    | None =>
        let notFound : result string :=
          Err ("unable to find resource type " +:+ Quote typeName
               +:+ " in resource provider " +:+ Quote (resourcePackage_Name p)) in
        let legacy (typeParts : list string) : result string :=
          if Nat.eqb (List.length typeParts) 3 then
            let repeatedSection := ToLowerCamel (part typeParts 2) in
            let alternateName :=
              part typeParts 0 +:+ ":" +:+ part typeParts 1 +:+ "/"
              +:+ repeatedSection +:+ ":" +:+ part typeParts 2 in
            match GetResource p alternateName with
            | Some res => Ok (ResourceToken res)
            | None => notFound
            end
          else notFound in
        if Nat.eqb (List.length typeParts) 2 then
          let alternateName :=
            part typeParts 0 +:+ ":index:" +:+ part typeParts 1 in
          match GetResource p alternateName with
          | Some res => Ok (ResourceToken res)
          | None => legacy [part typeParts 0; "index"; part typeParts 1]
          end
        else legacy typeParts
    end.

(** [resourcePackage.ResolveFunction]. *)
Definition ResolveFunction (p : SchemaPackage) (typeName : string) : result string :=
  let typeParts := Split typeName ":" in
  if Nat.ltb (List.length typeParts) 2 || Nat.ltb 3 (List.length typeParts) then
    Err ("invalid type token " +:+ Quote typeName)
  else
    match GetFunction p typeName with
    | Some res => Ok (FunctionToken res)
    | None =>
        let notFound : result string :=
          Err ("unable to find function " +:+ Quote typeName
               +:+ " in resource provider " +:+ Quote (resourcePackage_Name p)) in
        let legacy (typeParts : list string) : result string :=
          if Nat.eqb (List.length typeParts) 3 then
            let repeatedSection := ToLowerCamel (part typeParts 2) in
            let alternateName :=
              part typeParts 0 +:+ ":" +:+ part typeParts 1 +:+ "/"
              +:+ repeatedSection +:+ ":" +:+ part typeParts 2 in
            match GetFunction p alternateName with
            | Some res => Ok (FunctionToken res)
            | None => notFound
            end
          else notFound in
        if Nat.eqb (List.length typeParts) 2 then
          let alternateName :=
            part typeParts 0 +:+ ":index:" +:+ part typeParts 1 in
          match GetFunction p alternateName with
          | Some res => Ok (FunctionToken res)
          | None => legacy [part typeParts 0; "index"; part typeParts 1]
          end
        else legacy typeParts
    end.

(** The names [ResolveResource] is documented to try for a token, in order:
    the token itself, [pkg:index:Name] for a token of two parts, and the
    legacy form [pkg:mod/lowerName:Name]. *)
Definition candidateNames (typeName : string) : list string :=
  match Split typeName ":" with
  | [pkg; name] =>
      [typeName;
       pkg +:+ ":index:" +:+ name;
       pkg +:+ ":index/" +:+ ToLowerCamel name +:+ ":" +:+ name]
  | [pkg; modName; name] =>
      [typeName;
       pkg +:+ ":" +:+ modName +:+ "/" +:+ ToLowerCamel name +:+ ":" +:+ name]
  | _ => []
  end.

(** The first of the given names the package defines. *)
Fixpoint firstResource (p : SchemaPackage) (names : list string) : option Resource :=
  match names with
  | [] => None
  | name :: rest =>
      match GetResource p name with
      | Some res => Some res
      | None => firstResource p rest
      end
  end.

End Resolve.

(** Lower-cases a leading capital: what [strcase.ToLowerCamel] does to a
    name of one word such as [Bucket]; used to run the resolution on concrete
    tokens. *)
Definition lowerFirst (s : string) : string :=
  match s with
  | String c rest =>
      let b := nat_of_ascii c in
      if Nat.leb 65 b && Nat.leb b 90 then String (ascii_of_nat (b + 32)) rest else s
  | EmptyString => s
  end.

(** [resolvePkgName]. *)
Definition resolvePkgName (typeString : string) : string :=
  let typeParts := Split typeString ":" in
  if Nat.eqb (List.length typeParts) 3
     && String.eqb (part typeParts 0) "pulumi"
     && String.eqb (part typeParts 1) "providers"
  then part typeParts 2
  else part typeParts 0.

(** A package in the style of the classic providers. *)
Definition awsPackage : SchemaPackage :=
  mkPackage "aws" (mkResource "pulumi:providers:aws" "aws")
    {[ "aws:s3/bucket:Bucket" := mkResource "aws:s3/bucket:Bucket" "aws" ]}
    ∅.

End Packages.

(** ** Typing of expressions ([analyser.go], [typeExpr], [typeInvoke] and
    [typeSymbol]) *)

Module Checker.
Import Packages.

(** What every expression has: its identity (Go compares expressions by
    pointer) and its source range. *)
Record exprNode := mkNode { NodeId : nat; NodeRange : Range }.

(** The built-ins [typeExpr] tells apart only by their Go type. *)
Inductive builtinKind :=
| AssetArchiveExpr | FileArchiveExpr | RemoteArchiveExpr
| FileAssetExpr | RemoteAssetExpr | StringAssetExpr
| ToBase64Expr | FromBase64Expr | ReadFileExpr.

(** [ast.Expr]. *)
Inductive Expr :=
| NullExpr (n : exprNode)
| BooleanExpr (n : exprNode) (Value : bool)
| NumberExpr (n : exprNode) (Literal : string)
| StringExpr (n : exprNode) (Value : string)
| InterpolateExpr (n : exprNode) (Parts : list (string * list PropertyAccessor))
| SymbolExpr (n : exprNode) (Accessors : list PropertyAccessor)
| ListExpr (n : exprNode) (Elements : list Expr)
| ObjectExpr (n : exprNode) (Entries : list (Expr * Expr))
| ToJSONExpr (n : exprNode) (Value : Expr)
| JoinExpr (n : exprNode) (Delimiter Values : Expr)
| SplitExpr (n : exprNode) (Delimiter Source : Expr)
| SelectExpr (n : exprNode) (Index Values : Expr)
| SecretExpr (n : exprNode) (Value : Expr)
| InvokeExpr (n : exprNode) (Token : string)
    (CallArgs : option (list (Expr * Expr))) (Return : option (exprNode * string))
| OtherBuiltin (n : exprNode) (kind : builtinKind) (Args : Expr).

Definition nodeOf (e : Expr) : exprNode :=
  match e with
  | NullExpr n | BooleanExpr n _ | NumberExpr n _ | StringExpr n _
  | InterpolateExpr n _ | SymbolExpr n _ | ListExpr n _ | ObjectExpr n _
  | ToJSONExpr n _ | JoinExpr n _ _ | SplitExpr n _ _ | SelectExpr n _ _
  | SecretExpr n _ | InvokeExpr n _ _ _ | OtherBuiltin n _ _ => n
  end.

Definition idOf (e : Expr) : nat := NodeId (nodeOf e).
Definition rangeOf (e : Expr) : Range := NodeRange (nodeOf e).

(** The name of the Go type, as the verb [%T] prints it. *)
Definition goTypeName (k : builtinKind) : string :=
  match k with
  | AssetArchiveExpr => "*ast.AssetArchiveExpr"
  | FileArchiveExpr => "*ast.FileArchiveExpr"
  | RemoteArchiveExpr => "*ast.RemoteArchiveExpr"
  | FileAssetExpr => "*ast.FileAssetExpr"
  | RemoteAssetExpr => "*ast.RemoteAssetExpr"
  | StringAssetExpr => "*ast.StringAssetExpr"
  | ToBase64Expr => "*ast.ToBase64Expr"
  | FromBase64Expr => "*ast.FromBase64Expr"
  | ReadFileExpr => "*ast.ReadFileExpr"
  end.

Definition exprGoType (e : Expr) : string :=
  match e with
  | NullExpr _ => "*ast.NullExpr"
  | BooleanExpr _ _ => "*ast.BooleanExpr"
  | NumberExpr _ _ => "*ast.NumberExpr"
  | StringExpr _ _ => "*ast.StringExpr"
  | InterpolateExpr _ _ => "*ast.InterpolateExpr"
  | SymbolExpr _ _ => "*ast.SymbolExpr"
  | ListExpr _ _ => "*ast.ListExpr"
  | ObjectExpr _ _ => "*ast.ObjectExpr"
  | ToJSONExpr _ _ => "*ast.ToJSONExpr"
  | JoinExpr _ _ _ => "*ast.JoinExpr"
  | SplitExpr _ _ _ => "*ast.SplitExpr"
  | SelectExpr _ _ _ => "*ast.SelectExpr"
  | SecretExpr _ _ => "*ast.SecretExpr"
  | InvokeExpr _ _ _ _ => "*ast.InvokeExpr"
  | OtherBuiltin _ kind _ => goTypeName kind
  end.

(** A [schema.Type] value that may be nil. *)
Definition nilable := option schemaType.

(** [typeCache].  Expressions and resource declarations are keys by their
    identity; a stored type may be nil. *)
Record typeCache := mkTypeCache {
  resources : gmap nat nilable;
  configuration : gmap string nilable;
  outputs : gmap string nilable;
  exprs : gmap nat nilable;
  resourceNames : gmap string nat;
  variableNames : gmap string nat
}.

(** [tc.exprs[e]]: nil when the expression has no entry. *)
Definition exprType (tc : typeCache) (e : Expr) : nilable :=
  default None (exprs tc !! idOf e).

(** [tc.exprs[e] = typ]. *)
Definition setExprType (tc : typeCache) (e : Expr) (typ : nilable) : typeCache :=
  mkTypeCache (resources tc) (configuration tc) (outputs tc)
              (<[idOf e := typ]> (exprs tc)) (resourceNames tc) (variableNames tc).

(** [TypeExpr], the query of the [Typing] interface. *)
Definition TypeExpr (tc : typeCache) (e : Expr) : nilable := exprType tc e.

(** [schema.Function], as [FunctionTypeHint] returns it: the properties of
    the inputs, and the token and properties of the outputs object; either
    may be nil. *)
Record FunctionHint := mkFunctionHint {
  Inputs : option (list (Property schemaType));
  Outputs : option (string * list (Property schemaType))
}.

(** The [Package] interface, as the checker calls it. *)
Record Package := mkCheckerPackage {
  PkgResolveFunction : string -> result string;
  FunctionTypeHint : string -> FunctionHint
}.

(** [PackageLoader.LoadPackage]. *)
Definition PackageLoader := string -> result Package.

(** The state the visit of an expression works on: the cache and the
    diagnostics added to the context so far. *)
Record checkerState := mkState { cache : typeCache; diags : list Diagnostic }.

(** [syntax.Error] and [syntax.Warning], of the [syntax] package: a
    diagnostic of that severity at the range. *)
Definition syntaxError (rng : Range) (summary detail : string) : Diagnostic :=
  mkDiagnostic DiagError (Some rng) summary detail.

Definition syntaxWarning (rng : Range) (summary detail : string) : Diagnostic :=
  mkDiagnostic DiagWarning (Some rng) summary detail.

(** [ctx.addDiag(d)], of [run.go]: the diagnostic joins the ones the context
    has collected. *)
Definition addDiag (d : Diagnostic) (st : checkerState) : checkerState :=
  mkState (cache st) (diags st ++ [d]).

(** [ctx.error(expr, summary)], of [run.go]: adds an error at the expression
    and returns false. *)
Definition ctxError (e : Expr) (summary : string) (st : checkerState)
  : bool * checkerState :=
  (false, addDiag (syntaxError (rangeOf e) summary "") st).

Definition setType (e : Expr) (typ : nilable) (st : checkerState) : checkerState :=
  mkState (setExprType (cache st) e typ) (diags st).

(** What a visit comes to: it returns, or it leaves the model, where Go goes
    on with a nil type inside a composite type or dereferences one. *)
Inductive outcome (A : Type) :=
| Done (a : A)
| Stuck (why : string).
Arguments Done {A} _.
Arguments Stuck {A} _.

(** [notAssignable.IsInternal]. *)
Fixpoint IsInternal (n : notAssignable) : bool :=
  match n with
  | mkNotAssignable _ because internal _ =>
      internal || existsb IsInternal because
  end.

(** [assertTypeAssignable(ctx, loc, from, to)] for a target that is not nil. *)
Definition assertTypeAssignable (loc : Range) (from : nilable) (to : schemaType)
  (st : checkerState) : outcome checkerState :=
  match from with
  | None =>
      (* [isAssignable] returns nil for an invalid target before it formats
         the types; otherwise it formats the nil source *)
      if isInvalid (UnwrapType to) then Done st
      else Stuck "displayType of a nil type"
  | Some from =>
      match isAssignable from to with
      | None => Done st
      | Some result =>
          let summary :=
            displayType to +:+ " is not assignable from " +:+ displayType from in
          if IsInternal result then
            Done (addDiag (syntaxWarning loc ("internal error: " +:+ summary)
                             (notAssignable_String result)) st)
          else
            Done (addDiag (syntaxError loc summary (notAssignable_String result)) st)
      end
  end.

(** The types of the elements or entries, if none is nil. *)
Fixpoint allTyped (ts : list nilable) : option (list schemaType) :=
  match ts with
  | [] => Some []
  | Some t :: rest =>
      match allTyped rest with Some l => Some (t :: l) | None => None end
  | None :: _ => None
  end.

(** An ASCII capital letter as the small one; any other byte as it is. *)
Definition lowerAscii (c : ascii) : ascii :=
  let b := nat_of_ascii c in
  if Nat.leb 65 b && Nat.leb b 90 then ascii_of_nat (b + 32) else c.

(** [strings.ToLower] on a string of ASCII characters, for running the checker
    on concrete inputs. *)
Fixpoint ToLowerASCII (s : string) : string :=
  match s with
  | EmptyString => EmptyString
  | String c s' => String (lowerAscii c) (ToLowerASCII s')
  end.

(** The key of an object entry, asserted to be a string expression; the
    assertion panics on any other expression. *)
Definition keyValue (key : Expr) : option string :=
  match key with StringExpr _ v => Some v | _ => None end.

(** The keys of the entries of an object, if all are string expressions. *)
Fixpoint entryKeys (entries : list (Expr * Expr)) : option (list string) :=
  match entries with
  | [] => Some []
  | entry :: rest =>
      match keyValue (fst entry), entryKeys rest with
      | Some k, Some l => Some (k :: l)
      | _, _ => None
      end
  end.

Section Typing.

Variable Quote : string -> string.
Variable MessageWithDetail :
  NonExistantFieldFormatter -> string -> string -> string * string.

(** The keys of a Go map of types, as for [typePropertyAccess]. *)
Variable mapKeys : list schemaType -> list schemaType.

(** [strings.ToLower]. *)
Variable ToLower : string -> string.

Variable pkgLoader : PackageLoader.

(** [loadPackage] and [ResolveFunction] of [packages.go]. *)
Definition loadPackage (typeString : string) : result Package :=
  let typeParts := GoStrings.Split typeString ":" in
  if Nat.ltb (List.length typeParts) 2 || Nat.ltb 3 (List.length typeParts) then
    Err ("invalid type token " +:+ Quote typeString)
  else
    let packageName := resolvePkgName typeString in
    match pkgLoader packageName with
    | Err err =>
        Err ("internal error loading package " +:+ Quote packageName +:+ ": " +:+ err)
    | Ok pkg => Ok pkg
    end.

Definition ResolveFunction (typeString : string) : result (Package * string) :=
  match loadPackage typeString with
  | Err err => Err err
  | Ok pkg =>
      match PkgResolveFunction pkg typeString with
      | Err err => Err err
      | Ok canonicalName => Ok (pkg, canonicalName)
      end
  end.

(** [for _, prop := range t.CallArgs.Entries] of [typeInvoke]. *)
Fixpoint typeCallArgs (t : Expr) (fmtr : NonExistantFieldFormatter)
  (inputs : gmap string schemaType) (entries : list (Expr * Expr))
  (st : checkerState) : outcome checkerState :=
  match entries with
  | [] => Done st
  | (key, value) :: rest =>
      match keyValue key with
      | None => Stuck "the key of a call argument is not a string"
      | Some k =>
          match inputs !! k with
          | None =>
              let '(summary, detail) := MessageWithDetail fmtr k k in
              typeCallArgs t fmtr inputs rest
                (addDiag (syntaxError (rangeOf key) summary detail) st)
          | Some typ =>
              typeCallArgs t fmtr inputs rest (setType value (Some typ) st)
          end
      end
  end.

(** The loop over the outputs that looks for the [Return] field: the type of
    the last output whose name matches, case-insensitively. *)
Fixpoint findReturn (ret : string) (outputs : list (Property schemaType))
  (found : option schemaType) : option schemaType :=
  match outputs with
  | [] => found
  | output :: rest =>
      if String.eqb (ToLower ret) (ToLower (Name output))
      then findReturn ret rest (Some (PType output))
      else findReturn ret rest found
  end.

(** [typeCache.typeInvoke]. *)
Definition typeInvoke (t : Expr) (token : string)
  (callArgs : option (list (Expr * Expr))) (ret : option (exprNode * string))
  (st : checkerState) : outcome (bool * checkerState) :=
  match ResolveFunction token with
  | Err err => Done (ctxError t err st)
  | Ok (pkg, functionName) =>
      let hint := FunctionTypeHint pkg functionName in
      let inputProps := default [] (Inputs hint) in
      let existing := map Name inputProps in
      let inputs := propertyTypes inputProps in
      let fmtr := mkFormatter ("Invoke " +:+ functionName) existing 5 false in
      match typeCallArgs t fmtr inputs (default [] callArgs) st with
      | Stuck why => Stuck why
      | Done st =>
          match ret with
          | Some (retNode, retValue) =>
              let outputProps :=
                match Outputs hint with Some (_, props) => props | None => [] end in
              let fields := map Name outputProps in
              let fmtr := mkFormatter token fields 5 true in
              match Outputs hint, findReturn retValue outputProps None with
              | Some _, Some returnType =>
                  Done (true, setType t (Some returnType) st)
              | _, _ =>
                  let '(summary, detail) := MessageWithDetail fmtr retValue retValue in
                  Done (true, addDiag (syntaxError (NodeRange retNode) summary detail) st)
              end
          | None =>
              Done (true,
                    setType t
                      (match Outputs hint with
                       | Some (tok, props) => Some (ObjectType tok props)
                       | None => None
                       end) st)
          end
      end
  end.

(** [PropertyAccess.RootName]. *)
Definition RootName (accessors : list PropertyAccessor) : string :=
  match accessors with
  | PropertyName name :: _ => name
  | _ => ""
  end.

(** [typeCache.typeSymbol]. *)
Definition typeSymbol (t : Expr) (accessors : list PropertyAccessor)
  (st : checkerState) : outcome (bool * checkerState) :=
  let tc := cache st in
  let rootName := RootName accessors in
  let typ : nilable := Some (InvalidType []) in
  let typ :=
    match resourceNames tc !! rootName with
    | Some root => default None (resources tc !! root)
    | None => typ
    end in
  let typ :=
    match variableNames tc !! rootName with
    | Some root => default None (exprs tc !! root)
    | None => typ
    end in
  let typ :=
    match configuration tc !! rootName with
    | Some root => root
    | None => typ
    end in
  let setError (summary detail : string) : schemaType :=
    InvalidType [syntaxError (rangeOf t) summary detail] in
  match typ, tail accessors with
  | None, [] => Done (true, setType t None st)
  | None, _ :: _ => Stuck "property access on a nil type"
  | Some root, rest =>
      let '(result, calls) :=
        typePropertyAccess Quote MessageWithDetail mapKeys setError root rootName rest in
      let st :=
        fold_left (fun st call => addDiag (syntaxError (rangeOf t) (fst call) (snd call)) st)
                  calls st in
      Done (true, setType t (Some result) st)
  end.

(** The element type of a list: [typeList] holds the keys of the map
    [types]. *)
Definition listElementType (types : list schemaType) : schemaType :=
  match mapKeys types with
  | [] => InvalidType []
  | [t] => t
  | typeList => UnionType typeList
  end.

(** [typeCache.typeExpr]. *)
Definition typeExpr (t : Expr) (st : checkerState) : outcome (bool * checkerState) :=
  let tc := cache st in
  match t with
  | InvokeExpr _ token callArgs ret => typeInvoke t token callArgs ret st
  | SymbolExpr _ accessors => typeSymbol t accessors st
  | StringExpr _ _ => Done (true, setType t (Some StringType) st)
  | NumberExpr _ _ => Done (true, setType t (Some NumberType) st)
  | BooleanExpr _ _ => Done (true, setType t (Some BoolType) st)
  | OtherBuiltin _ (AssetArchiveExpr | FileArchiveExpr | RemoteArchiveExpr) _ =>
      Done (true, setType t (Some ArchiveType) st)
  | OtherBuiltin _ (FileAssetExpr | RemoteAssetExpr | StringAssetExpr) _ =>
      Done (true, setType t (Some AssetType) st)
  | InterpolateExpr _ _ => Done (true, setType t (Some StringType) st)
  | ToJSONExpr _ _ => Done (true, setType t (Some StringType) st)
  | JoinExpr _ delimiter _ =>
      match assertTypeAssignable (rangeOf delimiter) (exprType tc delimiter) StringType st with
      | Stuck why => Stuck why
      | Done st => Done (true, setType t (Some StringType) st)
      end
  | ListExpr _ elements =>
      match allTyped (map (exprType tc) elements) with
      | None => Stuck "a list element has a nil type"
      | Some types =>
          Done (true, setType t (Some (ArrayType (listElementType types))) st)
      end
  | ObjectExpr _ entries =>
      match entryKeys entries,
            allTyped (map (fun entry => exprType tc (snd entry)) entries) with
      | None, _ => Stuck "the key of an object entry is not a string"
      | _, None => Stuck "an object entry has a nil type"
      | Some propNames, Some types =>
          let properties :=
            map (fun nt => mkProperty (fst nt) (snd nt)) (combine propNames types) in
          Done (true,
                setType t
                  (Some (ObjectType (adhockObjectToken +:+ String.concat "•" propNames)
                                    properties)) st)
      end
  | NullExpr _ => Done (true, setType t (Some (InvalidType [])) st)
  | SecretExpr _ value => Done (true, setType t (exprType tc value) st)
  | SplitExpr _ delimiter source =>
      match assertTypeAssignable (rangeOf delimiter) (exprType tc delimiter) StringType st with
      | Stuck why => Stuck why
      | Done st =>
          match assertTypeAssignable (rangeOf source) (exprType tc source) StringType st with
          | Stuck why => Stuck why
          | Done st => Done (true, setType t (Some (ArrayType StringType)) st)
          end
      end
  | SelectExpr _ index values =>
      match assertTypeAssignable (rangeOf index) (exprType tc index) IntType st with
      | Stuck why => Stuck why
      | Done st =>
          match assertTypeAssignable (rangeOf values) (exprType tc values)
                  (ArrayType AnyType) st with
          | Stuck why => Stuck why
          | Done st =>
              match exprs tc !! idOf values with
              | Some valuesType =>
                  match option_map UnwrapType valuesType with
                  | Some (ArrayType elementType) =>
                      Done (true, setType t (Some elementType) st)
                  | _ =>
                      Done (true,
                            setType t
                              (Some (InvalidType
                                       [mkDiagnostic DiagInvalid None
                                          "Could not derive types from array, since a *schema.ArrayType was found instead"
                                          ""])) st)
                  end
              | None =>
                  Done (true,
                        setType t
                          (Some (InvalidType
                                   [mkDiagnostic DiagInvalid None
                                      ("Could not derive types from array, since a "
                                       +:+ exprGoType values +:+ " was found instead")
                                      ""])) st)
              end
          end
      end
  | OtherBuiltin _ kind _ =>
      Done (true,
            setType t
              (Some (InvalidType
                       [mkDiagnostic DiagInvalid None
                          ("Hit unknown type: " +:+ goTypeName kind) ""])) st)
  end.

End Typing.

(** A package like the one of the test suite: a function [test:fn] with one
    input and one output. *)
Definition testPackage : Package :=
  mkCheckerPackage (fun typeName => Ok typeName)
    (fun _ => mkFunctionHint (Some [mkProperty "yesArg" StringType])
                             (Some ("", [mkProperty "outString" StringType]))).

Definition testLoader : PackageLoader :=
  fun name => if String.eqb name "test" then Ok testPackage else Err "package not found".

Definition emptyCache : typeCache := mkTypeCache ∅ ∅ ∅ ∅ ∅ ∅.

Definition at_ (first last : nat) : Range := mkRange "<stdin>" first last.

(** [fn::invoke] of [test:fn] with [return: missing]. *)
Definition invokeBadReturn : Expr :=
  InvokeExpr (mkNode 1 (at_ 10 60)) "test:fn" None (Some (mkNode 2 (at_ 50 57), "missing")).

(** [fn::invoke] of a function whose package cannot be loaded. *)
Definition invokeUnknownPackage : Expr :=
  InvokeExpr (mkNode 3 (at_ 10 40)) "nopkg:fn" None None.

(** [${u[0]}] where the variable [u] has type
    [Union<Array<string>, Map<number>>]. *)
Definition unionIndex : Expr :=
  SymbolExpr (mkNode 5 (at_ 70 77)) [PropertyName "u"; PropertySubscript (IndexInt 0)].

Definition cacheWithUnion : typeCache :=
  mkTypeCache ∅ ∅ ∅
    {[ 4 := Some (UnionType [ArrayType StringType; MapType NumberType]) ]}
    ∅ {[ "u" := 4 ]}.

(** [fn::join] with that invoke as delimiter:
    [fn::join: [{fn::invoke: {function: test:fn, return: missing}}, [a]]]. *)
Definition joinFailedInvoke : Expr :=
  JoinExpr (mkNode 8 (at_ 0 80)) invokeBadReturn
    (ListExpr (mkNode 9 (at_ 70 75)) [StringExpr (mkNode 10 (at_ 71 74)) "a"]).

Definition visit (t : Expr) (tc : typeCache) : outcome (bool * checkerState) :=
  typeExpr quotePlain plainMessageWithDetail distinctKeys ToLowerASCII testLoader t
    (mkState tc []).

(** What a visit left behind for [t]: the type [TypeExpr] answers with and
    the diagnostics of severity error that were emitted. *)
Definition typeAfter (t : Expr) (o : outcome (bool * checkerState)) : option nilable :=
  match o with
  | Done (_, st) => Some (TypeExpr (cache st) t)
  | Stuck _ => None
  end.

Definition errorsAfter (o : outcome (bool * checkerState)) : list string :=
  match o with
  | Done (_, st) =>
      map Summary
          (List.filter
             (fun d => match DiagSeverity d with DiagError => true | _ => false end)
             (diags st))
  | Stuck _ => []
  end.

(** The cache a visit left behind. *)
Definition cacheAfter (o : outcome (bool * checkerState)) : typeCache :=
  match o with
  | Done (_, st) => cache st
  | Stuck _ => emptyCache
  end.

End Checker.

(** ** Go's [encoding/base64], the standard encoding *)

Module Base64.
Import GoStrings.

(** The alphabet of [base64.StdEncoding], and its padding character. *)
Definition encodeStd : string :=
  "ABCDEFGHIJKLMNOPQRSTUVWXYZabcdefghijklmnopqrstuvwxyz0123456789+/".

Definition padChar : ascii := "="%char.

(** [enc.encode[i]]. *)
Definition encodeChar (i : nat) : ascii :=
  match String.get i encodeStd with
  | Some c => c
  | None => padChar
  end.

(** [enc.decodeMap[c]]: the place of [c] in the alphabet. *)
Fixpoint indexIn (c : ascii) (alphabet : string) (i : nat) : option nat :=
  match alphabet with
  | EmptyString => None
  | String a rest => if Ascii.eqb a c then Some i else indexIn c rest (S i)
  end.

Definition decodeChar (c : ascii) : option nat := indexIn c encodeStd 0.

Definition byte (n : nat) : ascii := ascii_of_nat n.

(** [EncodeToString]: three bytes give four characters; a last group of one
    or two bytes is padded. *)
Fixpoint EncodeToString (src : string) : string :=
  match src with
  | EmptyString => EmptyString
  | String a EmptyString =>
      let a := byteOf a in
      String (encodeChar (a / 4))
        (String (encodeChar ((a mod 4) * 16))
           (String padChar (String padChar EmptyString)))
  | String a (String b EmptyString) =>
      let a := byteOf a in
      let b := byteOf b in
      String (encodeChar (a / 4))
        (String (encodeChar ((a mod 4) * 16 + b / 16))
           (String (encodeChar ((b mod 16) * 4))
              (String padChar EmptyString)))
  | String a (String b (String c rest)) =>
      let a := byteOf a in
      let b := byteOf b in
      let c := byteOf c in
      String (encodeChar (a / 4))
        (String (encodeChar ((a mod 4) * 16 + b / 16))
           (String (encodeChar ((b mod 16) * 4 + c / 64))
              (String (encodeChar (c mod 64)) (EncodeToString rest))))
  end.

(** The decoder skips carriage returns and line feeds wherever they stand. *)
Definition isNewline (c : ascii) : bool :=
  Nat.eqb (byteOf c) 10 || Nat.eqb (byteOf c) 13.

Fixpoint skipNewlines (s : string) : string :=
  match s with
  | EmptyString => EmptyString
  | String c rest =>
      if isNewline c then skipNewlines rest else String c (skipNewlines rest)
  end.

(** [decodeQuantum], quantum after quantum: four characters give three
    bytes; the last quantum may end in one or two padding characters, and
    nothing may follow the padding.  The encoding is not strict: the bits of
    the last character that no byte takes are not looked at. *)
Fixpoint decodeQuanta (s : string) : option string :=
  match s with
  | EmptyString => Some EmptyString
  | String c0 (String c1 (String c2 (String c3 rest))) =>
      match decodeChar c0, decodeChar c1 with
      | Some i0, Some i1 =>
          let b0 := byte (i0 * 4 + i1 / 16) in
          match decodeChar c2 with
          | Some i2 =>
              let b1 := byte ((i1 mod 16) * 16 + i2 / 4) in
              match decodeChar c3 with
              | Some i3 =>
                  let b2 := byte ((i2 mod 4) * 64 + i3) in
                  match decodeQuanta rest with
                  | Some out => Some (String b0 (String b1 (String b2 out)))
                  | None => None
                  end
              | None =>
                  if Ascii.eqb c3 padChar && String.eqb rest ""
                  then Some (String b0 (String b1 EmptyString))
                  else None
              end
          | None =>
              if Ascii.eqb c2 padChar && Ascii.eqb c3 padChar && String.eqb rest ""
              then Some (String b0 EmptyString)
              else None
          end
      | _, _ => None
      end
  | _ => None
  end.

(** [DecodeString]. *)
Definition DecodeString (s : string) : option string :=
  decodeQuanta (skipNewlines s).

End Base64.

(** ** The string built-ins of the evaluator *)

Module Builtins.
Import GoStrings Base64 Packages.

(** The plain values of the evaluator (eventual values are left out). *)
Inductive value :=
| VNull
| VBool (b : bool)
| VNumber (n : Z)
| VString (s : string)
| VList (elements : list value)
| VObject (entries : list (string * value)).

(** The name of the kind of a value in a message. *)
Definition typeName (v : value) : string :=
  match v with
  | VNull => "null"
  | VBool _ => "boolean"
  | VNumber _ => "number"
  | VString _ => "string"
  | VList _ => "list"
  | VObject _ => "object"
  end.

(** Modelled from the spec: the built-in [fn::toBase64] of the evaluator
    ([evaluateBuiltinToBase64] of [run.go], which is not among the sources).
    The spec gives [toBase64(string) -> string]; the tests use the standard
    encoding of Go's [encoding/base64] as the oracle. *)
Definition evaluateBuiltinToBase64 (v : value) : result value :=
  match v with
  | VString s => Ok (VString (EncodeToString s))
  | _ => Err ("expected argument to fn::toBase64 to be a string, got " +:+ typeName v)
  end.

(** Modelled from the spec: the built-in [fn::fromBase64] of the evaluator
    ([evaluateBuiltinFromBase64] of [run.go], which is not among the
    sources): [fromBase64(string) -> string] that must also be a valid UTF-8
    string (invalid UTF-8 is an error).  The decoder is the one of the
    standard encoding the tests encode their inputs with. *)
Definition evaluateBuiltinFromBase64 (v : value) : result value :=
  match v with
  | VString s =>
      match DecodeString s with
      | None => Err "fn::fromBase64 unable to decode"
      | Some decoded =>
          if ValidString decoded then Ok (VString decoded)
          else Err "fn::fromBase64 output is not a valid UTF-8 string"
      end
  | _ => Err ("expected argument to fn::fromBase64 to be a string, got " +:+ typeName v)
  end.

(** Modelled from the spec: the built-in [fn::split] of the evaluator
    ([evaluateBuiltinSplit] of [run.go], which is not among the sources):
    [split(delim, source)], both strings, gives a list of strings; an empty
    source gives the list of the empty string. *)
Definition evaluateBuiltinSplit (delimiter source : value) : result value :=
  match delimiter, source with
  | VString d, VString s => Ok (VList (map VString (Split s d)))
  | VString _, _ => Err ("source must be a string, not " +:+ typeName source)
  | _, _ => Err ("delimiter must be a string, not " +:+ typeName delimiter)
  end.

(** The strings of a list of values; each element that is not a string is an
    error that names its index and kind. *)
Fixpoint joinArguments (index : nat) (values : list value)
  : list string * list string :=
  match values with
  | [] => ([], [])
  | v :: rest =>
      let '(strs, errs) := joinArguments (S index) rest in
      match v with
      | VString s => (s :: strs, errs)
      | _ =>
          (strs,
           ("the " +:+ DecimalString.NilZero.string_of_uint (Nat.to_uint index)
            +:+ "th element must be a string, not " +:+ typeName v) :: errs)
      end
  end.

(** Modelled from the spec: the built-in [fn::join] of the evaluator
    ([evaluateBuiltinJoin] of [run.go], which is not among the sources):
    [join(delim, values)], where [delim] must be a string and [values] a list
    of strings, otherwise it fails per element with an error naming the
    offending index; the result is the concatenation. *)
Definition evaluateBuiltinJoin (delimiter values : value) : result value + list string :=
  match delimiter, values with
  | VString d, VList elements =>
      match joinArguments 0 elements with
      | (strs, []) => inl (Ok (VString (Join strs d)))
      | (_, errs) => inr errs
      end
  | VString _, _ => inl (Err ("the second argument must be a list, not " +:+ typeName values))
  | _, _ => inl (Err ("delimiter must be a string, not " +:+ typeName delimiter))
  end.

End Builtins.

(** ** The runner and its diagnostics *)

Module Runner.

(** Modelled from the spec: how one diagnostic renders
    ([hcl.Diagnostic.Error]): the subject, the summary and the detail. *)
Definition rangeString (r : option Range) : string :=
  match r with
  | Some r =>
      Filename r +:+ ":" +:+ DecimalString.NilZero.string_of_uint (Nat.to_uint (StartByte r))
      +:+ "-" +:+ DecimalString.NilZero.string_of_uint (Nat.to_uint (EndByte r))
  | None => "<nil>"
  end.

Definition diagnosticError (d : Diagnostic) : string :=
  rangeString (Subject d) +:+ ": " +:+ Summary d +:+ "; " +:+ Detail d.

(** Modelled from the spec: how a diagnostics value renders
    ([Diagnostics.Error] of the [syntax] package, which is not among the
    sources): the string ["no diagnostics"] when there is none, as the tests
    have it; otherwise the first diagnostic and the number of the others. *)
Definition diagnosticsError (ds : list Diagnostic) : string :=
  match ds with
  | [] => "no diagnostics"
  | [d] => diagnosticError d
  | d :: rest =>
      diagnosticError d +:+ ", and "
      +:+ DecimalString.NilZero.string_of_uint (Nat.to_uint (List.length rest))
      +:+ " other diagnostic(s)"
  end.

(** Modelled from the spec: [Diagnostics.HasErrors] of the [syntax] package,
    the phase gate: whether a diagnostic of severity error was collected. *)
Definition HasErrors (ds : list Diagnostic) : bool :=
  existsb (fun d => match DiagSeverity d with DiagError => true | _ => false end) ds.

(** Modelled from the spec: what the evaluation of one node (config,
    variable, resource or output) adds to the diagnostics; the checker adds
    its warnings and its errors to the same collection. *)
Definition nodeRun := list Diagnostic.

(** Modelled from the spec: the runner ([Run] and [Evaluate] of [run.go],
    which is not among the sources).  The nodes are evaluated in order and
    their diagnostics accumulated; once a diagnostic of severity error has
    been emitted, evaluation stops after the current node and the runner
    returns the accumulated diagnostics; absent errors, the runner returns
    what renders as the string ["no diagnostics"], the empty collection. *)
Fixpoint Run (nodes : list nodeRun) (sdiags : list Diagnostic) : list Diagnostic :=
  match nodes with
  | [] => if HasErrors sdiags then sdiags else []
  | node :: rest =>
      let sdiags := sdiags ++ node in
      if HasErrors sdiags then sdiags else Run rest sdiags
  end.

Definition Evaluate (nodes : list nodeRun) : list Diagnostic := Run nodes [].

(** A warning of the checker, as [typeResource] emits it. *)
Definition untypedInputWarning : Diagnostic :=
  mkDiagnostic DiagWarning (Some (mkRange "<stdin>" 40 43))
    "internal error: unable to discover expected type for r.foo"
    "got type string".

End Runner.

(** ** Further notions about assignability *)

(** Whether a type has no opaque token type (a token type without an
    underlying type) where [isAssignable] looks when the type is the target:
    through wrappers, elements, alternatives, the properties of objects and
    the underlying types of tokens. *)
Fixpoint opaqueFree (t : schemaType) : bool :=
  match t with
  | Primitive _ | InvalidType _ | ResourceType _ _ => true
  | OptionalType e | InputType e | ArrayType e | MapType e | EnumType _ e => opaqueFree e
  | UnionType ts => forallb opaqueFree ts
  | ObjectType _ ps => forallb (fun p => opaqueFree (PType p)) ps
  | TokenType _ (Some u) => opaqueFree u
  | TokenType _ None => false
  end.

(** What an object target asks of one of its properties: the source has it
    with an assignable type, or lacks it and the property is optional. *)
Definition propertyFits (fromProps : list (Property schemaType))
  (prop : Property schemaType) : bool :=
  match lookupProperty fromProps (Name prop) with
  | None => negb (IsRequired prop)
  | Some fromProp => isLegal (isAssignable (PType fromProp) (PType prop))
  end.

(** ** The message of a failed assignment ([notAssignable.Error]) *)

Module Replace.
Import GoStrings.

(** The loop of [strings.Replace] for an [old] that is not empty,
    [String a old]: each occurrence found by [Index], from the left, gives
    way to [new]. *)
Equations? replaceOn (a : ascii) (old new : string) (s : string)
  : string by wf (String.length s) lt :=
  replaceOn a old new EmptyString := EmptyString;
  replaceOn a old new (String c s) with String.prefix (String a old) (String c s) := {
    | true => new +:+ replaceOn a old new (dropString (String.length old) s);
    | false => String c (replaceOn a old new s) }.
Proof.
  assert (forall n t, String.length (dropString n t) <= String.length t) as Hdrop
    by (induction n; destruct t; simpl; auto).
  pose proof (Hdrop (String.length old) s). simpl. lia.
Qed.

(** The same loop for the empty [old], which matches before each UTF-8
    sequence and at the end: [new] follows every sequence. *)
Fixpoint replaceEmpty_fuel (fuel : nat) (new s : string) : string :=
  match fuel, s with
  | S fuel, String c rest =>
      let size := default 1 (decodeRune c rest) in
      takeString size s +:+ new +:+ replaceEmpty_fuel fuel new (dropString size s)
  | _, _ => EmptyString
  end.

(** [strings.ReplaceAll(s, old, new)]. *)
Definition ReplaceAll (s old new : string) : string :=
  if String.eqb old new then s
  else
    match old with
    | EmptyString => new +:+ replaceEmpty_fuel (String.length s) new s
    | String a old' => replaceOn a old' new s
    end.

End Replace.

(** [notAssignable.Error]. *)
Definition notAssignable_Error (n : notAssignable) : string :=
  Replace.ReplaceAll (notAssignable_String n) newline ";".

(** Whether the byte occurs in the string. *)
Definition hasByte (b : ascii) (s : string) : bool :=
  existsb (Ascii.eqb b) (list_ascii_of_string s).

(** ** What a visit of [typeExpr] may touch *)

Module Frame.
Import Checker.

(** The value expressions of the call arguments of an invoke. *)
Definition callArgValues (t : Expr) : list Expr :=
  match t with
  | InvokeExpr _ _ (Some entries) _ => map snd entries
  | _ => []
  end.

(** From [st] to [st'] the diagnostics only grew and the cache changed at
    most in the types of the expressions [written]. *)
Definition frame (written : list nat) (st st' : checkerState) : Prop :=
  resources (cache st') = resources (cache st) /\
  configuration (cache st') = configuration (cache st) /\
  outputs (cache st') = outputs (cache st) /\
  resourceNames (cache st') = resourceNames (cache st) /\
  variableNames (cache st') = variableNames (cache st) /\
  (exists added, diags st' = diags st ++ added) /\
  (forall i, ~ In i written -> exprs (cache st') !! i = exprs (cache st) !! i).

(** Whether the expression is an invoke. *)
Definition isInvoke (t : Expr) : bool :=
  match t with InvokeExpr _ _ _ _ => true | _ => false end.

End Frame.

(** ** Packages, from the token to the package ([packages.go]) *)

Module Loading.
Import GoStrings Packages.

(** The first of the given names the package defines as a function. *)
Fixpoint firstFunction (p : SchemaPackage) (names : list string) : option Function :=
  match names with
  | [] => None
  | name :: rest =>
      match GetFunction p name with
      | Some fn => Some fn
      | None => firstFunction p rest
      end
  end.

Section TopLevel.

Variable ToLowerCamel : string -> string.
Variable Quote : string -> string.

(** [PackageLoader.LoadPackage]. *)
Variable loader : string -> result SchemaPackage.

(** [loadPackage(loader, typeString)]. *)
Definition loadPackage (typeString : string) : result SchemaPackage :=
  let typeParts := Split typeString ":" in
  if Nat.ltb (List.length typeParts) 2 || Nat.ltb 3 (List.length typeParts) then
    Err ("invalid type token " +:+ Quote typeString)
  else
    let packageName := resolvePkgName typeString in
    match loader packageName with
    | Err err =>
        Err ("internal error loading package " +:+ Quote packageName +:+ ": " +:+ err)
    | Ok pkg => Ok pkg
    end.

(** The function [ResolveResource(loader, typeString)]. *)
Definition ResolveResource (typeString : string) : result (SchemaPackage * string) :=
  match loadPackage typeString with
  | Err err => Err err
  | Ok pkg =>
      match Packages.ResolveResource ToLowerCamel Quote pkg typeString with
      | Err err => Err err
      | Ok canonicalName => Ok (pkg, canonicalName)
      end
  end.

(** The function [ResolveFunction(loader, typeString)]. *)
Definition ResolveFunction (typeString : string) : result (SchemaPackage * string) :=
  match loadPackage typeString with
  | Err err => Err err
  | Ok pkg =>
      match Packages.ResolveFunction ToLowerCamel Quote pkg typeString with
      | Err err => Err err
      | Ok canonicalName => Ok (pkg, canonicalName)
      end
  end.

End TopLevel.

(** *** The plugins a template refers to ([GetReferencedPlugins]) *)

(** A [*ast.StringExpr] that may be nil: its range and its value. *)
Definition stringExpr := option (Range * string).

(** [x.GetValue()]: the value, the empty string for nil. *)
Definition GetValue (x : stringExpr) : string :=
  match x with Some (_, v) => v | None => "" end.

(** An entry of [tmpl.Resources], as far as the function reads it:
    [res.Type.Value], [res.Options.Version] and
    [res.Options.PluginDownloadURL]. *)
Record ResourceDecl := mkResourceDecl {
  TypeValue : string;
  OptionsVersion : stringExpr;
  OptionsPluginDownloadURL : stringExpr
}.

Record pluginEntry := mkPluginEntry { version : string; pluginDownloadURL : string }.

Record Plugin := mkPlugin {
  Package : string;
  Version : string;
  PluginDownloadURL : string
}.

Section Referenced.

(** [ast.ExprError(expr, summary, detail)] and [Diagnostics.HasErrors], of
    the [ast] and [syntax] packages. *)
Variable ExprError : stringExpr -> string -> string -> Diagnostic.
Variable HasErrors : list Diagnostic -> bool.

(** One field of an entry already in the map: kept when the resource gives
    none or the same, filled in when the entry has none, and otherwise
    reported as a conflict. *)
Definition mergeField (what : string) (expr : stringExpr) (pkg current : string)
  : string * list Diagnostic :=
  let value := GetValue expr in
  if negb (String.eqb value "") && negb (String.eqb current value) then
    if String.eqb current "" then (value, [])
    else
      (current,
       [ExprError expr
          ("Provider " +:+ pkg +:+ " already declared with a conflicting " +:+ what
           +:+ ": " +:+ current) ""])
  else (current, []).

(** The body of [for _, kvp := range tmpl.Resources.Entries]. *)
Definition visitResource (acc : gmap string pluginEntry * list Diagnostic)
  (res : ResourceDecl) : gmap string pluginEntry * list Diagnostic :=
  let '(pluginMap, diags) := acc in
  let pkg := resolvePkgName (TypeValue res) in
  match pluginMap !! pkg with
  | Some entry =>
      let '(v, d1) := mergeField "version" (OptionsVersion res) pkg (version entry) in
      let '(u, d2) :=
        mergeField "plugin download URL" (OptionsPluginDownloadURL res) pkg
          (pluginDownloadURL entry) in
      (<[pkg := mkPluginEntry v u]> pluginMap, diags ++ d1 ++ d2)
  | None =>
      (<[pkg := mkPluginEntry (GetValue (OptionsVersion res))
                  (GetValue (OptionsPluginDownloadURL res))]> pluginMap,
       diags)
  end.

(** [GetReferencedPlugins(tmpl)], on the entries of [tmpl.Resources]; the
    plugins come in the order the map is ranged over, which Go leaves
    open. *)
Definition GetReferencedPlugins (resources : list ResourceDecl)
  : list Plugin * list Diagnostic :=
  let '(pluginMap, diags) := fold_left visitResource resources (∅, []) in
  if HasErrors diags then ([], diags)
  else
    (map (fun kv => mkPlugin (fst kv) (version (snd kv)) (pluginDownloadURL (snd kv)))
         (map_to_list pluginMap),
     []).

(** What a resource asks of the entry of its package: nothing, or the very
    value the entry has. *)
Definition agrees (asked current : string) : Prop := asked = "" \/ current = asked.

(** What holds of the map and the diagnostics once the resources [processed]
    have been visited. *)
Definition visited (processed : list ResourceDecl)
  (acc : gmap string pluginEntry * list Diagnostic) : Prop :=
  (forall d, In d (snd acc) -> exists e summary detail, d = ExprError e summary detail) /\
  (forall pkg, is_Some (fst acc !! pkg) ->
     exists r, In r processed /\ resolvePkgName (TypeValue r) = pkg) /\
  (snd acc = [] ->
   forall r, In r processed ->
     exists entry,
       fst acc !! resolvePkgName (TypeValue r) = Some entry /\
       agrees (GetValue (OptionsVersion r)) (version entry) /\
       agrees (GetValue (OptionsPluginDownloadURL r)) (pluginDownloadURL entry)).

End Referenced.

(** A plain rendering of [ast.ExprError] and of [Diagnostics.HasErrors], for
    running [GetReferencedPlugins] on concrete resources: an error at the
    range of the expression, and whether a diagnostic is an error. *)
Definition plainExprError (e : stringExpr) (summary detail : string) : Diagnostic :=
  mkDiagnostic DiagError (option_map fst e) summary detail.

Definition anyError (ds : list Diagnostic) : bool :=
  existsb (fun d => match DiagSeverity d with DiagError => true | _ => false end) ds.

(** Two resources of the package [aws]; the second asks for a version. *)
Definition bucketDecl : ResourceDecl := mkResourceDecl "aws:s3:Bucket" None None.

Definition instanceDecl (version : string) : ResourceDecl :=
  mkResourceDecl "aws:ec2:Instance" (Some (mkRange "<stdin>" 10 15, version)) None.

End Loading.

(** ** The walk over the expressions ([analyser.go], [walker]) *)

Module Walker.
Import Checker.

(** [if !step { return false }] and on: the next step runs on the state the
    previous one left, if that one returned true. *)
Definition andThen {St : Type} (o : outcome (bool * St)) (k : St -> outcome (bool * St))
  : outcome (bool * St) :=
  match o with
  | Done (true, s) => k s
  | other => other
  end.

(** [ast.VariablesMapEntry] and [ast.PropertyMapEntry], the nodes of a
    variable and of an output: the key, a string expression, and the
    value. *)
Record entryNode := mkEntryNode { Key : Expr; Value : Expr }.

(** The value of a key: [node.Key.Value]. *)
Definition keyOf (node : entryNode) : string :=
  match Key node with StringExpr _ v => v | _ => "" end.

(** [ast.ConfigParamDecl], as [typeConfig] reads it: [Type.Value] and
    [Default], either of which may be nil. *)
Record ConfigParamDecl := mkConfigParamDecl {
  ConfigType : option string;
  Default : option Expr
}.

Record configNode := mkConfigNode { ConfigKey : string; ConfigValue : ConfigParamDecl }.

Section Walk.

Context {St : Type}.

(** [walker]: the visitors, each of which may be nil.  The visitor of
    resources is left out. *)
Record walker := mkWalker {
  VisitConfig : option (configNode -> St -> outcome (bool * St));
  VisitVariable : option (entryNode -> St -> outcome (bool * St));
  VisitOutput : option (entryNode -> St -> outcome (bool * St));
  VisitExpr : option (Expr -> St -> outcome (bool * St))
}.

(** [x.Name()] and [x.Args()] of a built-in ([ast.BuiltinExpr]). *)
Variable builtinName : Expr -> option Expr.
Variable builtinArgs : Expr -> option Expr.

Variable e : walker.

(** [for _, el := range x.Elements]. *)
Fixpoint walkList (rec : option Expr -> St -> outcome (bool * St))
  (elements : list Expr) (s : St) : outcome (bool * St) :=
  match elements with
  | [] => Done (true, s)
  | el :: rest => andThen (rec (Some el) s) (walkList rec rest)
  end.

(** [for _, prop := range x.Entries]. *)
Fixpoint walkEntries (rec : option Expr -> St -> outcome (bool * St))
  (entries : list (Expr * Expr)) (s : St) : outcome (bool * St) :=
  match entries with
  | [] => Done (true, s)
  | prop :: rest =>
      andThen (rec (Some (fst prop)) s)
        (fun s => andThen (rec (Some (snd prop)) s) (walkEntries rec rest))
  end.

(** [walker.walk]: the children first, then the expression itself; it stops
    at the first visit that returns false.  [fuel] bounds the depth of the
    recursion. *)
Fixpoint walk_fuel (fuel : nat) (x : option Expr) (s : St) : outcome (bool * St) :=
  match fuel with
  | 0 => Stuck "out of fuel"
  | S fuel =>
      match x with
      | None => Done (true, s)
      | Some x =>
          let children :=
            match x with
            | NullExpr _ | BooleanExpr _ _ | NumberExpr _ _ | StringExpr _ _ =>
                Done (true, s)
            | ListExpr _ elements => walkList (walk_fuel fuel) elements s
            | ObjectExpr _ entries => walkEntries (walk_fuel fuel) entries s
            | InterpolateExpr _ _ | SymbolExpr _ _ => Done (true, s)
            | _ =>
                andThen (walk_fuel fuel (builtinName x) s)
                  (walk_fuel fuel (builtinArgs x))
            end in
          andThen children
            (fun s =>
               match VisitExpr e with
               | Some visit => visit x s
               | None => Stuck "call of a nil function"
               end)
      end
  end.

(** [walker.EvalVariable]. *)
Definition EvalVariable (fuel : nat) (node : entryNode) (s : St) : outcome (bool * St) :=
  andThen
    (match VisitExpr e with
     | Some _ =>
         andThen (walk_fuel fuel (Some (Key node)) s)
           (walk_fuel fuel (Some (Value node)))
     | None => Done (true, s)
     end)
    (fun s =>
       match VisitVariable e with
       | Some visit => visit node s
       | None => Done (true, s)
       end).

(** [walker.EvalOutput]: the output is visited before its expressions are
    walked. *)
Definition EvalOutput (fuel : nat) (node : entryNode) (s : St) : outcome (bool * St) :=
  andThen
    (match VisitOutput e with
     | Some visit => visit node s
     | None => Done (true, s)
     end)
    (fun s =>
       match VisitExpr e with
       | Some _ =>
           andThen (walk_fuel fuel (Some (Key node)) s)
             (walk_fuel fuel (Some (Value node)))
       | None => Done (true, s)
       end).

End Walk.

Arguments walker : clear implicits.

(** The expressions made of literals, lists and objects whose keys are
    string literals. *)
Fixpoint plain (x : Expr) : bool :=
  match x with
  | NullExpr _ | BooleanExpr _ _ | NumberExpr _ _ | StringExpr _ _ => true
  | ListExpr _ elements => forallb plain elements
  | ObjectExpr _ entries =>
      forallb (fun entry =>
                 match entry with
                 | (StringExpr _ _, value) => plain value
                 | _ => false
                 end) entries
  | _ => false
  end.

(** The height of such an expression. *)
Fixpoint height (x : Expr) : nat :=
  match x with
  | ListExpr _ elements => S (list_max (map height elements))
  | ObjectExpr _ entries =>
      S (list_max (map (fun entry => match entry with (_, value) => height value end)
                       entries))
  | _ => 0
  end.

(** *** The visitors of the type checker *)

(** The maps of a [typeCache] are Go maps: one that was never made is nil,
    reads as the empty map, and cannot be written.  [newTypeCache] makes
    every map but [outputs]; [outputsNil] tells whether [outputs] is still
    nil. *)
Record analysis := mkAnalysis { state : checkerState; outputsNil : bool }.

Definition withCache (a : analysis) (tc : typeCache) : analysis :=
  mkAnalysis (mkState tc (diags (state a))) (outputsNil a).

(** The getters of the [Typing] interface. *)
Definition TypeResource (tc : typeCache) (name : string) : nilable :=
  match resourceNames tc !! name with
  | None => None
  | Some decl => default None (resources tc !! decl)
  end.

Definition TypeVariable (tc : typeCache) (name : string) : nilable :=
  match variableNames tc !! name with
  | None => None
  | Some expr => default None (exprs tc !! expr)
  end.

Definition TypeConfig (tc : typeCache) (name : string) : nilable :=
  default None (configuration tc !! name).

Definition TypeOutput (tc : typeCache) (name : string) : nilable :=
  default None (outputs tc !! name).

(** [typeCache.registerResource]. *)
Definition registerResource (tc : typeCache) (name : string) (resource : nat)
  (typ : nilable) : typeCache :=
  mkTypeCache (<[resource := typ]> (resources tc)) (configuration tc) (outputs tc)
              (exprs tc) (<[name := resource]> (resourceNames tc)) (variableNames tc).

(** [typeCache.typeVariable]. *)
Definition typeVariable (node : entryNode) (a : analysis) : outcome (bool * analysis) :=
  let tc := cache (state a) in
  Done (true,
        withCache a
          (mkTypeCache (resources tc) (configuration tc) (outputs tc) (exprs tc)
                       (resourceNames tc)
                       (<[keyOf node := idOf (Value node)]> (variableNames tc)))).

(** [typeCache.typeOutput]. *)
Definition typeOutput (node : entryNode) (a : analysis) : outcome (bool * analysis) :=
  let tc := cache (state a) in
  if outputsNil a then Stuck "assignment to entry in nil map"
  else
    Done (true,
          withCache a
            (mkTypeCache (resources tc) (configuration tc)
                         (<[keyOf node := exprType tc (Value node)]> (outputs tc))
                         (exprs tc) (resourceNames tc) (variableNames tc))).

(** [ctypes.Type], as [configTypeToSchema] tells its values apart: the
    primitives string, boolean and number, any other primitive, a list, and
    anything else. *)
Inductive ctype :=
| CString | CBoolean | CNumber | COtherPrimitive
| CList (element : ctype)
| COther.

(** [configTypeToSchema]; it panics on the types it does not know. *)
Fixpoint configTypeToSchema (t : ctype) : option schemaType :=
  match t with
  | CString => Some StringType
  | CBoolean => Some BoolType
  | CNumber => Some NumberType
  | CList element => option_map ArrayType (configTypeToSchema element)
  | COtherPrimitive | COther => None
  end.

(** The expression has a type that is not nil. *)
Definition typedAt (a : analysis) (i : nat) : Prop :=
  exists t, exprs (cache (state a)) !! i = Some (Some t).

(** From [a] to [a'] nothing was reported, only types of expressions were
    written, and no expression lost its type. *)
Definition extends (a a' : analysis) : Prop :=
  diags (state a') = diags (state a) /\
  outputsNil a' = outputsNil a /\
  resources (cache (state a')) = resources (cache (state a)) /\
  configuration (cache (state a')) = configuration (cache (state a)) /\
  outputs (cache (state a')) = outputs (cache (state a)) /\
  resourceNames (cache (state a')) = resourceNames (cache (state a)) /\
  variableNames (cache (state a')) = variableNames (cache (state a)) /\
  (forall i, typedAt a i -> typedAt a' i).

Section Visitors.

Variable Quote : string -> string.
Variable MessageWithDetail :
  NonExistantFieldFormatter -> string -> string -> string * string.
Variable mapKeys : list schemaType -> list schemaType.
Variable ToLower : string -> string.
Variable pkgLoader : PackageLoader.

(** [ctypes.Parse], of the [config] package. *)
Variable Parse : string -> option ctype.

(** [PulumiVarName], the name of the built-in variable. *)
Variable PulumiVarName : string.

(** [typeCache.typeConfig]. *)
Definition typeConfig (node : configNode) (a : analysis) : outcome (bool * analysis) :=
  let tc := cache (state a) in
  let v := ConfigValue node in
  let typ : outcome nilable :=
    match Default v, ConfigType v with
    | Some default, _ => Done (exprType tc default)
    | None, Some type =>
        match Parse type with
        | Some ctype =>
            match configTypeToSchema ctype with
            | Some t => Done (Some t)
            | None => Stuck "Unexpected config type"
            end
        | None => Done (Some (InvalidType []))
        end
    | None, None => Done (Some (InvalidType []))
    end in
  match typ with
  | Stuck why => Stuck why
  | Done typ =>
      Done (true,
            withCache a
              (mkTypeCache (resources tc) (<[ConfigKey node := typ]> (configuration tc))
                           (outputs tc) (exprs tc) (resourceNames tc) (variableNames tc)))
  end.

(** [typeCache.typeExpr], on the state of the analysis. *)
Definition visitExpr (x : Expr) (a : analysis) : outcome (bool * analysis) :=
  match typeExpr Quote MessageWithDetail mapKeys ToLower pkgLoader x (state a) with
  | Done (b, st) => Done (b, mkAnalysis st (outputsNil a))
  | Stuck why => Stuck why
  end.

(** The walker [TypeCheck] runs, but for the visitor of resources. *)
Definition typeCheckWalker : walker analysis :=
  mkWalker (Some typeConfig) (Some typeVariable) (Some typeOutput) (Some visitExpr).

(** [newTypeCache()]: [pulumiExpr] is the identity of the object expression
    it makes for the built-in variable. *)
Definition newTypeCache (pulumiExpr : nat) : analysis :=
  mkAnalysis
    (mkState
       (mkTypeCache ∅ ∅ ∅
          {[ pulumiExpr :=
               Some (ObjectType "pulumi:builtin:pulumi"
                       [mkProperty "cwd" StringType;
                        mkProperty "project" StringType;
                        mkProperty "stack" StringType]) ]}
          ∅ {[ PulumiVarName := pulumiExpr ]})
       [])
    true.

(** What the walk of an expression by the type checker comes to on the
    expressions it succeeds on. *)
Definition walked (builtinName builtinArgs : Expr -> option Expr) (fuel : nat) (x : Expr)
  : Prop :=
  forall a, exists a',
    walk_fuel builtinName builtinArgs typeCheckWalker fuel (Some x) a = Done (true, a') /\
    extends a a' /\ typedAt a' (idOf x).

End Visitors.

(** The analysis after the walk of the default ["x"] of a configuration
    entry [name], in a program that also has a variable [name] whose value
    is a boolean: the string literal (node 5) and the boolean (node 2) are
    typed, and the variable is registered. *)
Definition defaultTyped : analysis :=
  mkAnalysis
    (mkState
       (mkTypeCache ∅ ∅ ∅ {[ 2 := Some BoolType; 5 := Some StringType ]} ∅ {[ "name" := 2 ]})
       [])
    true.

End Walker.

(** * Properties *)

(** ** Facts about the measure *)

Lemma size_UnwrapType t : size (UnwrapType t) <= size t.
Proof. induction t; simpl; lia. Qed.

Lemma UnwrapType_idem t : UnwrapType (UnwrapType t) = UnwrapType t.
Proof. induction t; simpl; auto. Qed.

Lemma size_elem (ts : list schemaType) s :
  In s ts -> size s <= list_sum (map size ts).
Proof.
  induction ts as [|a ts IH]; simpl; [tauto|].
  intros [->|H]; [lia|]. specialize (IH H). lia.
Qed.

Lemma size_prop (ps : list (Property schemaType)) p :
  In p ps -> S (size (PType p)) <= list_sum (map (fun p => S (size (PType p))) ps).
Proof.
  induction ps as [|a ps IH]; simpl; [tauto|].
  intros [->|H]; [lia|]. specialize (IH H). lia.
Qed.

Lemma propertyTable_snoc ps p :
  propertyTable (ps ++ [p]) = <[Name p := p]> (propertyTable ps).
Proof. unfold propertyTable. rewrite foldl_app. reflexivity. Qed.

Lemma lookupProperty_In ps name p :
  lookupProperty ps name = Some p -> In p ps /\ Name p = name.
Proof.
  unfold lookupProperty. revert p.
  induction ps as [|q ps IH] using rev_ind; intros p.
  - unfold propertyTable; simpl. rewrite lookup_empty. discriminate.
  - rewrite propertyTable_snoc.
    destruct (decide (Name q = name)) as [E|E].
    + rewrite E, lookup_insert_eq. intros [= <-].
      split; [apply in_or_app; right; left; reflexivity | exact E].
    + rewrite lookup_insert_ne by exact E. intros H.
      destruct (IH _ H) as [Hin Hn]. split; [apply in_or_app; left; exact Hin | exact Hn].
Qed.

(** ** The recursion of [isAssignable] is well founded *)

Section BodyExt.

Variables rec1 rec2 : schemaType -> schemaType -> assignResult.

Lemma unionFromReasons_ext els to :
  (forall s, In s els -> rec1 s to = rec2 s to) ->
  unionFromReasons rec1 els to = unionFromReasons rec2 els to.
Proof.
  induction els as [|s els IH]; simpl; intros H; [reflexivity|].
  rewrite (H s) by (left; reflexivity).
  rewrite IH by (intros; apply H; right; assumption). reflexivity.
Qed.

Lemma unionToReasons_ext from els :
  (forall s, In s els -> rec1 from s = rec2 from s) ->
  unionToReasons rec1 from els = unionToReasons rec2 from els.
Proof.
  induction els as [|s els IH]; simpl; intros H; [reflexivity|].
  rewrite (H s) by (left; reflexivity).
  rewrite IH by (intros; apply H; right; assumption). reflexivity.
Qed.

Lemma mapFromObject_ext props elem :
  (forall p, In p props -> rec1 (PType p) elem = rec2 (PType p) elem) ->
  mapFromObject rec1 props elem = mapFromObject rec2 props elem.
Proof.
  induction props as [|p props IH]; simpl; intros H; [reflexivity|].
  rewrite (H p) by (left; reflexivity).
  rewrite IH by (intros; apply H; right; assumption). reflexivity.
Qed.

Lemma objectFailures_ext fromProps toProps :
  (forall fp tp, In fp fromProps -> In tp toProps ->
                 rec1 (PType fp) (PType tp) = rec2 (PType fp) (PType tp)) ->
  objectFailures rec1 fromProps toProps = objectFailures rec2 fromProps toProps.
Proof.
  induction toProps as [|p toProps IH]; simpl; intros H; [reflexivity|].
  rewrite IH by (intros; apply H; [|right]; assumption).
  destruct (lookupProperty fromProps (Name p)) as [fp|] eqn:E; [|reflexivity].
  apply lookupProperty_In in E as [Hin _].
  rewrite (H fp p Hin) by (left; reflexivity). reflexivity.
Qed.

(** The body only calls [rec] on pairs of strictly smaller total size. *)
Lemma isAssignable_body_ext from to :
  (forall f t, size f + size t < size from + size to -> rec1 f t = rec2 f t) ->
  isAssignable_body rec1 from to = isAssignable_body rec2 from to.
Proof.
  intros H. unfold isAssignable_body.
  pose proof (size_UnwrapType from) as Hf.
  pose proof (size_UnwrapType to) as Ht.
  destruct (UnwrapType from) as [p|d|e|e|fe|fe|fts|ftok fps|ftok fps|ftok fe|ftok fu] eqn:Ef;
    simpl; try reflexivity.
  all: destruct (UnwrapType to) as [q|d'|e'|e'|te|te|tts|ttok tps|ttok tps|ttok te|ttok tu] eqn:Et;
    simpl; try reflexivity.
  all: simpl in Hf, Ht.
  all: try (destruct q; reflexivity).
  all: try (rewrite (unionFromReasons_ext fts _);
            [reflexivity | intros s Hs; apply H; apply size_elem in Hs; simpl; lia]).
  all: try (rewrite (unionToReasons_ext _ tts);
            [reflexivity | intros s Hs; apply H; apply size_elem in Hs; simpl; lia]).
  all: try (rewrite H by (simpl; lia); reflexivity).
  all: try (destruct tu as [u|]; [rewrite H by (simpl; lia)|]; reflexivity).
  - destruct fps as [|fp fps']; [reflexivity|].
    rewrite (mapFromObject_ext (fp :: fps') te); [reflexivity|].
    intros p Hp. apply H. apply size_prop in Hp. simpl in *. lia.
  - rewrite (objectFailures_ext fps tps); [reflexivity|].
    intros fp tp Hfp Htp. apply H.
    apply size_prop in Hfp. apply size_prop in Htp. simpl in *. lia.
Qed.

End BodyExt.

Lemma isAssignable_fuel_stable n : forall from to,
  size from + size to < n -> isAssignable_fuel n from to = isAssignable from to.
Proof.
  induction n as [n IH] using lt_wf_ind. intros from to Hn.
  destruct n as [|n]; [lia|].
  unfold isAssignable. simpl.
  apply isAssignable_body_ext. intros f t Hft.
  rewrite (IH n) by lia.
  rewrite (IH (size from + size to)) by lia. reflexivity.
Qed.

(** [isAssignable] satisfies the recursive equation of the source: the fuel
    is never exhausted. *)
Lemma isAssignable_unfold from to :
  isAssignable from to = isAssignable_body isAssignable from to.
Proof.
  unfold isAssignable at 1. simpl.
  apply isAssignable_body_ext. intros f t Hft.
  apply isAssignable_fuel_stable. lia.
Qed.

(** Only the unwrapped types matter. *)
Lemma isAssignable_unwrap from to :
  isAssignable from to = isAssignable (UnwrapType from) (UnwrapType to).
Proof.
  rewrite (isAssignable_unfold from to), (isAssignable_unfold (UnwrapType from)).
  unfold isAssignable_body. rewrite !UnwrapType_idem. reflexivity.
Qed.

(** ** How [isAssignable] treats invalid and union types *)

Local Arguments displayType : simpl never.

(** Replaces a call of [isAssignable] by the body of the function. *)
Ltac unfold_isAssignable :=
  rewrite isAssignable_unfold; unfold isAssignable_body.

Lemma UnwrapType_not_wrapper t :
  match UnwrapType t with OptionalType _ | InputType _ => False | _ => True end.
Proof. induction t; simpl; auto. Qed.

Lemma isAssignable_from_invalid from to :
  isInvalid (UnwrapType from) = true -> isAssignable from to = None.
Proof.
  intros H. unfold_isAssignable.
  rewrite H. reflexivity.
Qed.

Lemma isAssignable_to_invalid from to :
  isInvalid (UnwrapType to) = true -> isAssignable from to = None.
Proof.
  intros H. unfold_isAssignable.
  rewrite H. destruct (isInvalid (UnwrapType from)); reflexivity.
Qed.

Lemma unionFromReasons_nil rec els to :
  unionFromReasons rec els to = [] <-> (forall s, In s els -> rec s to = None).
Proof.
  induction els as [|s els IH]; simpl.
  - split; [intros _ s [] | reflexivity].
  - destruct (rec s to) eqn:E.
    + split; [discriminate|]. intros H. specialize (H s (or_introl eq_refl)). congruence.
    + rewrite IH. split.
      * intros H x [<-|Hx]; [exact E | apply H, Hx].
      * intros H x Hx. apply H. right. exact Hx.
Qed.

Lemma unionToReasons_None rec from els :
  unionToReasons rec from els = None <-> (exists s, In s els /\ rec from s = None).
Proof.
  induction els as [|s els IH]; simpl.
  - split; [discriminate | intros (s & [] & _)].
  - destruct (rec from s) eqn:E.
    + destruct (unionToReasons rec from els) eqn:E'.
      * split; [discriminate|]. intros (x & [<-|Hx] & Hr); [congruence|].
        exfalso. enough (Some l = None) by discriminate.
        apply IH. exists x. split; assumption.
      * split; [|reflexivity]. intros _.
        destruct (proj1 IH eq_refl) as (x & Hx & Hr).
        exists x. split; [right; exact Hx | exact Hr].
    + split; [|reflexivity]. intros _. exists s. split; [left; reflexivity | exact E].
Qed.

(** Union on the [from] side: every alternative must be assignable. *)
Lemma isAssignable_from_union from to xs :
  UnwrapType from = UnionType xs ->
  (isAssignable from to = None <-> forall x, In x xs -> isAssignable x to = None).
Proof.
  intros Ef.
  destruct (isInvalid (UnwrapType to)) eqn:Ei.
  - split; intros; apply isAssignable_to_invalid; exact Ei.
  - unfold_isAssignable.
    rewrite Ef, Ei. simpl.
    destruct (unionFromReasons isAssignable xs (UnwrapType to)) eqn:E.
    + pose proof (proj1 (unionFromReasons_nil _ _ _) E) as E0. split; [|reflexivity].
      intros _ x Hx.
      rewrite isAssignable_unwrap, <- (UnwrapType_idem to), <- isAssignable_unwrap.
      apply E0, Hx.
    + split; [discriminate|]. intros H. exfalso.
      assert (unionFromReasons isAssignable xs (UnwrapType to) = []) as E'.
      { apply (proj2 (unionFromReasons_nil _ _ _)). intros x Hx.
        rewrite isAssignable_unwrap, UnwrapType_idem, <- isAssignable_unwrap. apply H, Hx. }
      congruence.
Qed.

(** Union on the [to] side: some alternative must accept [from]. *)
Lemma isAssignable_to_union from to ys :
  isInvalid (UnwrapType from) = false ->
  isUnion (UnwrapType from) = false ->
  UnwrapType to = UnionType ys ->
  (isAssignable from to = None <-> exists y, In y ys /\ isAssignable from y = None).
Proof.
  intros Hi Hu Et.
  assert (forall y, isAssignable (UnwrapType from) y = isAssignable from y) as Hy.
  { intros y. rewrite isAssignable_unwrap, UnwrapType_idem, <- isAssignable_unwrap. reflexivity. }
  unfold_isAssignable.
  rewrite Hi, Et. simpl.
  pose proof (unionToReasons_None isAssignable (UnwrapType from) ys) as Hex.
  destruct (UnwrapType from) eqn:Ef; try discriminate; simpl in *;
    (destruct (unionToReasons isAssignable _ ys);
     [ split; [discriminate|];
       intros (y & Hin & Hok); rewrite <- Hy in Hok;
       assert (@None (list notAssignable) = None) as _ by reflexivity;
       enough (Some l = None) by discriminate;
       apply Hex; exists y; split; assumption
     | split; [|reflexivity]; intros _;
       destruct (proj1 Hex eq_refl) as (y & Hin & Hok);
       exists y; split; [exact Hin | rewrite <- Hy; exact Hok] ]).
Qed.

(** A type accepted by one alternative of a union is accepted by the union. *)
Lemma isAssignable_union_member n : forall x y ys,
  size x < n -> isAssignable x y = None -> In y ys ->
  isAssignable x (UnionType ys) = None.
Proof.
  induction n as [|n IH]; intros x y ys Hn Hxy Hin; [lia|].
  destruct (isInvalid (UnwrapType x)) eqn:Hi.
  { apply isAssignable_from_invalid, Hi. }
  destruct (isUnion (UnwrapType x)) eqn:Hu.
  - destruct (UnwrapType x) as [| | | | | |xs| | | |] eqn:Ex; try discriminate.
    apply (isAssignable_from_union x _ xs Ex). intros xi Hxi.
    apply (IH xi y ys).
    + pose proof (size_UnwrapType x) as Hs. rewrite Ex in Hs. simpl in Hs.
      apply size_elem in Hxi. lia.
    + apply (proj1 (isAssignable_from_union x y xs Ex) Hxy), Hxi.
    + exact Hin.
  - apply (isAssignable_to_union x (UnionType ys) ys Hi Hu eq_refl).
    exists y. split; assumption.
Qed.

(** ** Invalid types are accepted silently *)

(** The guards of [isAssignable]: if either side is the invalid type, the
    result is nil: the assignment is accepted and no new reason is
    produced. *)
Lemma isAssignable_invalid_either (d : list Diagnostic) (t : schemaType) :
  isAssignable (InvalidType d) t = None /\ isAssignable t (InvalidType d) = None.
Proof.
  split.
  - apply isAssignable_from_invalid. reflexivity.
  - apply isAssignable_to_invalid. reflexivity.
Qed.

(** The same through any number of optional and input wrappers. *)
Lemma isAssignable_invalid_wrapped from to :
  isInvalid (UnwrapType from) || isInvalid (UnwrapType to) = true ->
  isAssignable from to = None.
Proof.
  intros H. apply orb_true_iff in H as [H|H].
  - apply isAssignable_from_invalid, H.
  - apply isAssignable_to_invalid, H.
Qed.

(** ** Numeric primitives *)

Lemma isLegal_None (r : assignResult) : isLegal r = true <-> r = None.
Proof. destruct r; simpl; split; congruence. Qed.

Lemma isLegal_eq (a b : assignResult) :
  (a = None <-> b = None) -> isLegal a = isLegal b.
Proof.
  intros H. destruct a, b; simpl; try reflexivity.
  - pose proof (proj2 H eq_refl). discriminate.
  - pose proof (proj1 H eq_refl). discriminate.
Qed.

(** An integer target and a number target accept the same sources. *)
Lemma isAssignable_int_number_sized n : forall from,
  size from < n ->
  isLegal (isAssignable from IntType) = isLegal (isAssignable from NumberType).
Proof.
  induction n as [|n IH]; intros from Hn; [lia|].
  destruct (isInvalid (UnwrapType from)) eqn:Hi.
  { rewrite !isAssignable_from_invalid by exact Hi. reflexivity. }
  pose proof (size_UnwrapType from) as Hs.
  destruct (UnwrapType from) as [p| | | | | |xs| | | |] eqn:Ef.
  7: { apply isLegal_eq.
       rewrite (isAssignable_from_union from IntType xs Ef).
       rewrite (isAssignable_from_union from NumberType xs Ef).
       assert (forall x, In x xs ->
                 (isAssignable x IntType = None <-> isAssignable x NumberType = None)) as Hx.
       { intros x Hin. rewrite <- !isLegal_None. rewrite (IH x); [reflexivity|].
         apply size_elem in Hin. simpl in Hs. lia. }
       split; intros H x Hin; apply (Hx x Hin), H, Hin. }
  all: rewrite !isAssignable_unfold; unfold isAssignable_body; rewrite Ef; simpl;
    try reflexivity.
  destruct p; reflexivity.
Qed.

(** C1, as the code has it: among the primitive sources, a target of type
    integer accepts exactly integer and number, and so does a target of type
    number; whatever the source, the two targets accept it or refuse it
    together. *)
Theorem isAssignable_numeric (p : primitiveType) (from : schemaType) :
  (isAssignable (Primitive p) IntType = None <-> p = intType \/ p = numberType) /\
  (isAssignable (Primitive p) NumberType = None <-> p = intType \/ p = numberType) /\
  isLegal (isAssignable from IntType) = isLegal (isAssignable from NumberType).
Proof.
  split; [|split].
  1, 2: split; [ destruct p; vm_compute; intros H; try discriminate H; auto
               | intros [->| ->]; reflexivity ].
  apply (isAssignable_int_number_sized (S (size from))). lia.
Qed.

(** C1, refuted as stated: a number source is accepted by an integer
    target. *)
Lemma isAssignable_number_to_integer :
  isAssignable NumberType IntType = None.
Proof. reflexivity. Qed.

(** ** Resource targets *)

(** C5, as the code has it: for a source that is neither invalid nor a union,
    a resource target accepts exactly the resource sources of the same token;
    an empty target token is compared like any other. *)
Theorem isAssignable_resource_target from tok props :
  isInvalid (UnwrapType from) = false ->
  isUnion (UnwrapType from) = false ->
  (isAssignable from (ResourceType tok props) = None
   <-> exists props', UnwrapType from = ResourceType tok props').
Proof.
  intros Hi Hu. unfold_isAssignable.
  rewrite Hi. simpl.
  destruct (UnwrapType from) as [| | | | | | | |ftok fps| |] eqn:Ef;
    try discriminate; simpl;
    try (split; [discriminate | intros (ps & [=])]).
  destruct (String.eqb tok ftok) eqn:E.
  - apply String.eqb_eq in E as ->. split; [|reflexivity].
    intros _. exists fps. reflexivity.
  - apply String.eqb_neq in E. split; [discriminate|].
    intros (ps & [= <- _]). congruence.
Qed.

Lemma isAssignable_resource_target_witness :
  isInvalid (UnwrapType (OptionalType (ResourceType "aws:s3/bucket:Bucket" []))) = false /\
  isUnion (UnwrapType (OptionalType (ResourceType "aws:s3/bucket:Bucket" []))) = false /\
  (isAssignable (OptionalType (ResourceType "aws:s3/bucket:Bucket" []))
     (ResourceType "aws:s3/bucket:Bucket" [mkProperty "arn" StringType]) = None
   <-> exists props',
       UnwrapType (OptionalType (ResourceType "aws:s3/bucket:Bucket" []))
       = ResourceType "aws:s3/bucket:Bucket" props').
Proof.
  split; [reflexivity|]. split; [reflexivity|].
  apply (isAssignable_resource_target
           (OptionalType (ResourceType "aws:s3/bucket:Bucket" []))
           "aws:s3/bucket:Bucket" [mkProperty "arn" StringType]); reflexivity.
Defined.

(** C5, refuted as stated: an invalid source is accepted although it is not a
    resource, and a target with the empty token rejects a resource of another
    token. *)
Lemma isAssignable_resource_counterexample :
  isLegal (isAssignable (InvalidType []) (ResourceType "aws:s3/bucket:Bucket" [])) = true /\
  isLegal (isAssignable (ResourceType "aws:s3/bucket:Bucket" []) (ResourceType "" [])) = false.
Proof. split; reflexivity. Qed.

(** A union source is accepted by a resource target when each alternative is;
    the empty union always is. *)
Lemma isAssignable_empty_union_to_resource tok props :
  isAssignable (UnionType []) (ResourceType tok props) = None.
Proof.
  apply (isAssignable_from_union (UnionType []) _ [] eq_refl). intros x [].
Qed.

(** ** Reflexivity and transitivity *)

Lemma selfAssignable_unwrap t :
  selfAssignable t = true -> selfAssignable (UnwrapType t) = true.
Proof. induction t; simpl; auto. Qed.

Lemma lookupProperty_NoDup ps p :
  NoDup (map Name ps) -> In p ps -> lookupProperty ps (Name p) = Some p.
Proof.
  unfold lookupProperty.
  induction ps as [|q ps IH] using rev_ind; intros Hnd Hin; [destruct Hin|].
  rewrite propertyTable_snoc.
  rewrite map_app in Hnd. apply NoDup_app in Hnd as (Hnd & Hdisj & _).
  apply in_app_or in Hin as [Hin|[<-|[]]].
  - assert (Name q <> Name p) as Hne.
    { intros E. apply (Hdisj (Name p)).
      - apply list_elem_of_In, in_map, Hin.
      - simpl. rewrite E. left. }
    rewrite lookup_insert_ne by exact Hne. apply IH; assumption.
  - apply lookup_insert_eq.
Qed.

Lemma objectFailures_nil rec fromProps toProps :
  (forall p, In p toProps ->
     exists fp, lookupProperty fromProps (Name p) = Some fp
                /\ rec (PType fp) (PType p) = None) ->
  objectFailures rec fromProps toProps = [].
Proof.
  induction toProps as [|p toProps IH]; simpl; intros H; [reflexivity|].
  destruct (H p (or_introl eq_refl)) as (fp & -> & ->).
  apply IH. intros q Hq. apply H. right. exact Hq.
Qed.

Lemma isAssignable_reflexive_sized n : forall t,
  size t < n -> selfAssignable t = true -> isAssignable t t = None.
Proof.
  induction n as [|n IH]; intros t Hn Hs; [lia|].
  destruct t as [p|d|e|e|e|e|ts|tok ps|tok ps|tok e|tok u]; simpl in Hn, Hs;
    try discriminate.
  - destruct p; reflexivity.
  - reflexivity.
  - rewrite isAssignable_unwrap. simpl. rewrite <- isAssignable_unwrap.
    apply IH; [lia | exact Hs].
  - rewrite isAssignable_unwrap. simpl. rewrite <- isAssignable_unwrap.
    apply IH; [lia | exact Hs].
  - unfold_isAssignable. simpl.
    rewrite IH by (lia || exact Hs). reflexivity.
  - unfold_isAssignable. simpl.
    rewrite IH by (lia || exact Hs). reflexivity.
  - apply (isAssignable_from_union (UnionType ts) _ ts eq_refl).
    intros x Hx.
    assert (size x < n) as Hxn by (apply size_elem in Hx; lia).
    apply (isAssignable_union_member n x x ts Hxn); [|exact Hx].
    apply IH; [exact Hxn|].
    rewrite forallb_forall in Hs. apply Hs, Hx.
  - apply andb_true_iff in Hs as [Hall Hnd].
    apply bool_decide_eq_true in Hnd. rewrite forallb_forall in Hall.
    unfold_isAssignable. simpl.
    rewrite (objectFailures_nil isAssignable ps ps); [reflexivity|].
    intros p Hp. exists p. split; [apply lookupProperty_NoDup; assumption|].
    apply IH; [apply size_prop in Hp; lia | apply Hall, Hp].
  - unfold_isAssignable. simpl.
    rewrite String.eqb_refl. reflexivity.
Qed.

(** C2, as the code has it: [isAssignable] relates to itself every type
    that is built from primitives, the invalid type, wrappers, arrays, maps,
    unions, resources and objects whose property names are pairwise
    distinct, and it is transitive on the primitive types. *)
Theorem isAssignable_reflexive_transitive :
  (forall t, selfAssignable t = true -> isAssignable t t = None) /\
  (forall a b c : primitiveType,
     isAssignable (Primitive a) (Primitive b) = None ->
     isAssignable (Primitive b) (Primitive c) = None ->
     isAssignable (Primitive a) (Primitive c) = None).
Proof.
  split.
  - intros t. apply (isAssignable_reflexive_sized (S (size t))). lia.
  - intros a b c.
    destruct a, b; vm_compute; try discriminate; intros _;
      destruct c; vm_compute; first [discriminate | reflexivity].
Qed.

Lemma isAssignable_reflexive_transitive_witness :
  isAssignable (UnionType [ArrayType StringType; ObjectType "" [mkProperty "foo" NumberType]])
               (UnionType [ArrayType StringType; ObjectType "" [mkProperty "foo" NumberType]])
  = None /\
  isAssignable IntType StringType = None.
Proof.
  split.
  - apply (proj1 isAssignable_reflexive_transitive). reflexivity.
  - apply (proj2 isAssignable_reflexive_transitive intType numberType stringType);
      reflexivity.
Defined.

(** C2, refuted as stated: an enum type over strings is not invalid and is
    not assignable to itself. *)
Lemma isAssignable_enum_not_reflexive :
  isLegal (isAssignable (EnumType "tk:index:Enum" StringType)
                        (EnumType "tk:index:Enum" StringType)) = false.
Proof. reflexivity. Qed.

(** Three more types that are not assignable to themselves: a token over
    strings, a token without underlying type, and an object that gives one
    name two types. *)
Lemma isAssignable_token_not_reflexive :
  isLegal (isAssignable (TokenType "tk:index:Tk" (Some StringType))
                        (TokenType "tk:index:Tk" (Some StringType))) = false
  /\ isAssignable (TokenType "foo" None) (TokenType "foo" None)
     = Some (mkNotAssignable "Unknown opaque type: foo" [] true "")
  /\ isLegal (isAssignable
                (ObjectType "" [mkProperty "a" BoolType; mkProperty "a" StringType])
                (ObjectType "" [mkProperty "a" BoolType; mkProperty "a" StringType])) = false.
Proof. repeat split; reflexivity. Qed.

(** The cases of the test suite that do not involve token types. *)
Lemma isAssignable_examples :
  map (fun c => isLegal (isAssignable (fst c) (snd c)))
    [ (UnionType [StringType; NumberType], NumberType);
      (UnionType [StringType; NumberType], AnyType);
      (ResourceType "some:resource:Token" [], ResourceType "some:other:Token" []);
      (ArrayType (ObjectType "" [mkProperty "foo" StringType; mkProperty "bar" NumberType]),
       ArrayType (MapType StringType));
      (ArrayType (ObjectType "pulumi:adhock:Token"
                    [mkProperty "foo" StringType; mkProperty "bar" AnyType]),
       ArrayType (MapType StringType));
      (ObjectType "pulumi:adhock:Token"
         [mkProperty "prop1" ArchiveType; mkProperty "prop2" BoolType],
       ObjectType "pulumi:adhock:Token2"
         [mkProperty "prop1" AssetType; mkProperty "prop2" StringType;
          mkProperty "optional" (OptionalType AnyType)]);
      (ObjectType "pulumi:adhock:Token"
         [mkProperty "prop1" AssetType; mkProperty "prop3" AnyType],
       ObjectType "pulumi:adhock:Token2"
         [mkProperty "prop1" ArchiveType; mkProperty "prop2" BoolType;
          mkProperty "prop3" (OptionalType StringType)]) ]
  = [false; true; false; true; false; true; false].
Proof. vm_compute. reflexivity. Qed.

(** The reasons are nested as the assignment is: a list of objects into a
    list of maps. *)
Lemma isAssignable_reason_example :
  option_map notAssignable_String
    (isAssignable
       (ArrayType (ObjectType "pulumi:adhock:Token"
                     [mkProperty "foo" StringType; mkProperty "bar" AnyType]))
       (ArrayType (MapType StringType)))
  = Some ("Cannot assign List<{foo: string, bar: pulumi:pulumi:Any}> to type List<Map<string>>:"
          +:+ newline +:+
          "  Cannot assign {foo: string, bar: pulumi:pulumi:Any} to type Map<string>:"
          +:+ newline +:+
          "    bar: Cannot assign pulumi:pulumi:Any to type string").
Proof. vm_compute. reflexivity. Qed.

(** ** The recursion of [typePropertyAccess] is well founded *)

Lemma propertyTypes_snoc ps p :
  propertyTypes (ps ++ [p]) = <[Name p := PType p]> (propertyTypes ps).
Proof. unfold propertyTypes. rewrite foldl_app. reflexivity. Qed.

Lemma propertyTypes_lookup ps name t :
  propertyTypes ps !! name = Some t ->
  exists p, In p ps /\ Name p = name /\ PType p = t.
Proof.
  revert t. induction ps as [|q ps IH] using rev_ind; intros t.
  - unfold propertyTypes; simpl. rewrite lookup_empty. discriminate.
  - rewrite propertyTypes_snoc.
    destruct (decide (Name q = name)) as [E|E].
    + rewrite E, lookup_insert_eq. intros [= <-].
      exists q. split; [apply in_or_app; right; left; reflexivity | auto].
    + rewrite lookup_insert_ne by exact E. intros H.
      destruct (IH _ H) as (p & Hin & Hn & Ht).
      exists p. split; [apply in_or_app; left; exact Hin | auto].
Qed.

Section AccessFacts.

Variable Quote : string -> string.
Variable MessageWithDetail :
  NonExistantFieldFormatter -> string -> string -> string * string.
Variable mapKeys : list schemaType -> list schemaType.

Abbreviation body := (typePropertyAccess_body Quote MessageWithDetail mapKeys).
Abbreviation access := (typePropertyAccess Quote MessageWithDetail mapKeys).
Abbreviation access_fuel := (typePropertyAccess_fuel Quote MessageWithDetail mapKeys).

Lemma unionBranches_ext rec1 rec2 els name accessors :
  (forall s, In s els ->
     rec1 (fun _ _ => InvalidType []) s name accessors
     = rec2 (fun _ _ => InvalidType []) s name accessors) ->
  unionBranches rec1 els name accessors = unionBranches rec2 els name accessors.
Proof.
  induction els as [|s els IH]; simpl; intros H; [reflexivity|].
  rewrite (H s) by (left; reflexivity).
  rewrite IH by (intros; apply H; right; assumption). reflexivity.
Qed.

Lemma typePropertyAccess_body_ext rec1 rec2 setError root name accessors :
  (forall e r nm acc, size r < size root -> rec1 e r nm acc = rec2 e r nm acc) ->
  body rec1 setError root name accessors = body rec2 setError root name accessors.
Proof.
  intros H. unfold typePropertyAccess_body.
  destruct accessors as [|accessor rest]; [reflexivity|].
  assert (forall props nm,
            list_sum (map (fun p => S (size (PType p))) props) < size root ->
            accessProperty MessageWithDetail rec1 setError (propertyTypes props) name nm rest
            = accessProperty MessageWithDetail rec2 setError (propertyTypes props) name nm rest)
    as Hobj.
  { intros props nm Hs. unfold accessProperty.
    destruct (propertyTypes props !! nm) as [t|] eqn:E; [|reflexivity].
    apply propertyTypes_lookup in E as (p & Hin & _ & <-).
    apply H. apply size_prop in Hin. lia. }
  assert (forall props nm,
            list_sum (map (fun p => S (size (PType p))) props) < size root ->
            accessProperty MessageWithDetail rec1 setError
              (<["urn" := StringType]> (<["id" := StringType]> (propertyTypes props))) name nm rest
            = accessProperty MessageWithDetail rec2 setError
              (<["urn" := StringType]> (<["id" := StringType]> (propertyTypes props))) name nm rest)
    as Hres.
  { intros props nm Hs. unfold accessProperty.
    destruct (_ !! nm) as [t|] eqn:E; [|reflexivity].
    apply H.
    destruct (decide ("urn" = nm)) as [<-|Hu].
    - rewrite lookup_insert_eq in E. injection E as <-. simpl. lia.
    - rewrite lookup_insert_ne in E by exact Hu.
      destruct (decide ("id" = nm)) as [<-|Hi].
      + rewrite lookup_insert_eq in E. injection E as <-. simpl. lia.
      + rewrite lookup_insert_ne in E by exact Hi.
        apply propertyTypes_lookup in E as (p & Hin & _ & <-).
        apply size_prop in Hin. lia. }
  pose proof (size_UnwrapType root) as Hu.
  destruct root as [p|d|e|e|e|e|ts|tok ps|tok ps|tok e|tok u].
  7: { rewrite (unionBranches_ext rec1 rec2 ts); [reflexivity|].
       intros s Hs. apply H. apply size_elem in Hs. simpl. lia. }
  all: destruct accessor as [nm|idx].
  all: try reflexivity.
  all: try (simpl; first [apply Hobj | apply Hres]; simpl; lia).
  all: try (simpl; destruct idx; try reflexivity; apply H; simpl; lia).
  all: destruct (UnwrapType _) as [p'|d'|e'|e'|e'|e'|ts'|tok' ps'|tok' ps'|tok' e'|tok' u'] eqn:Eu;
    simpl in Hu; try reflexivity.
  all: try (first [apply Hobj | apply Hres]; simpl; lia).
  all: try (destruct idx; try reflexivity; apply H; simpl; lia).
Qed.

Lemma typePropertyAccess_fuel_stable n : forall setError root name accessors,
  size root < n ->
  access_fuel n setError root name accessors = access setError root name accessors.
Proof.
  induction n as [n IH] using lt_wf_ind. intros setError root name accessors Hn.
  destruct n as [|n]; [lia|].
  unfold typePropertyAccess. simpl.
  apply typePropertyAccess_body_ext. intros e r nm acc Hr.
  rewrite (IH n) by lia. rewrite (IH (size root)) by lia. reflexivity.
Qed.

(** [typePropertyAccess] satisfies the recursive equation of the source. *)
Lemma typePropertyAccess_unfold setError root name accessors :
  access setError root name accessors
  = body access setError root name accessors.
Proof.
  unfold typePropertyAccess at 1. simpl.
  apply typePropertyAccess_body_ext. intros e r nm acc Hr.
  apply typePropertyAccess_fuel_stable. lia.
Qed.

(** What the loop over the branches of a union computes. *)
Lemma unionBranches_spec rec els name accessors :
  unionBranches rec els name accessors
  = (filter (fun t => negb (isInvalid t))
       (map (fun s => fst (rec (fun _ _ => InvalidType []) s name accessors)) els),
     flat_map
       (fun s => map (fun call => mkNotAssignable (fst call) [] false (typeString s))
                     (snd (rec (fun _ _ => InvalidType []) s name accessors)))
       els).
Proof.
  induction els as [|s els IH]; simpl; [reflexivity|].
  rewrite IH.
  destruct (rec _ s name accessors) as [t calls]. simpl.
  unfold filter; simpl. destruct (isInvalid t); reflexivity.
Qed.

Lemma flat_map_nil {A B} (f : A -> list B) l :
  flat_map f l = [] <-> forall x, In x l -> f x = [].
Proof.
  induction l as [|a l IH]; simpl.
  - split; [intros _ x [] | reflexivity].
  - split.
    + intros H. apply app_eq_nil in H as [Ha Hl].
      intros x [<-|Hx]; [exact Ha | apply IH; assumption].
    + intros H. rewrite (H a) by (left; reflexivity). simpl.
      apply IH. intros x Hx. apply H. right. exact Hx.
Qed.

(** C4, as the code has it.  For a union root every branch is tried.  The
    error ["could be a type that does not support accessing"] is reported as
    soon as one branch reports an error, and the result is then the invalid
    type; when no branch reports an error, nothing is reported and the result
    is made of the keys of the map that holds the branch results that are
    not invalid: that type itself when the map holds exactly one key, the
    union of the keys otherwise.  The keys are the branch results that are
    not invalid, a primitive type at most once. *)
Theorem typePropertyAccess_union setError els name accessor rest :
  keySet mapKeys ->
  let branch s := access (fun _ _ => InvalidType []) s name (accessor :: rest) in
  let r := access setError (UnionType els) name (accessor :: rest) in
  ((exists s, In s els /\ snd (branch s) <> []) ->
     r = (InvalidType [],
          [("Cannot " +:+ accessOp accessor +:+ " into " +:+ name +:+ " of type "
              +:+ displayType (UnionType els),
            notAssignable_String
              (mkNotAssignable
                 ("'" +:+ name +:+ "' could be a type that does not support "
                  +:+ accessOp accessor +:+ "ing")
                 (branchErrors Quote MessageWithDetail mapKeys els name (accessor :: rest))
                 false ""))]))
  /\
  ((forall s, In s els -> snd (branch s) = []) ->
     snd r = [] /\
     exists arr,
       (forall t, In t arr <->
                  exists s, In s els /\ fst (branch s) = t /\ isInvalid t = false) /\
       (forall p, count_occ schemaType_eq_dec arr (Primitive p) <= 1) /\
       List.length arr <= List.length els /\
       fst r = match arr with [t] => t | _ => UnionType arr end).
Proof.
  intros Hkeys branch r. subst r.
  rewrite typePropertyAccess_unfold. unfold typePropertyAccess_body.
  rewrite unionBranches_spec.
  fold (branchErrors Quote MessageWithDetail mapKeys els name (accessor :: rest)).
  split.
  - intros (s & Hin & Hne).
    destruct (branchErrors Quote MessageWithDetail mapKeys els name (accessor :: rest))
      as [|e errs] eqn:E.
    + exfalso. unfold branchErrors in E.
      pose proof (proj1 (flat_map_nil _ _) E s Hin) as Hs.
      apply map_eq_nil in Hs. apply Hne. exact Hs.
    + destruct accessor; reflexivity.
  - intros Hall.
    assert (branchErrors Quote MessageWithDetail mapKeys els name (accessor :: rest) = [])
      as ->.
    { unfold branchErrors. apply flat_map_nil. intros s Hs.
      fold (branch s). rewrite (Hall s Hs). reflexivity. }
    set (ps := filter _ _).
    destruct (Hkeys ps) as (Hin & Hlen & Hprim).
    assert (forall t, In t (mapKeys ps) <->
                      exists s, In s els /\ fst (branch s) = t /\ isInvalid t = false) as Hmem.
    { intros t. rewrite Hin. subst ps.
      rewrite <- list_elem_of_In, list_elem_of_filter, list_elem_of_In, in_map_iff.
      split.
      - intros (Hv & s & Hs & Hel). exists s. repeat split; try assumption.
        destruct (isInvalid t); [destruct Hv | reflexivity].
      - intros (s & Hel & Hs & Hv). split; [rewrite Hv; exact I|].
        exists s. split; assumption. }
    assert (List.length (mapKeys ps) <= List.length els) as Hle.
    { etransitivity; [exact Hlen|]. subst ps.
      etransitivity; [apply length_filter|]. rewrite length_map. reflexivity. }
    split; [destruct (mapKeys ps) as [|t [|t' arr]]; reflexivity|].
    exists (mapKeys ps).
    split; [exact Hmem|]. split; [exact Hprim|]. split; [exact Hle|].
    destruct (mapKeys ps) as [|t [|t' arr]]; reflexivity.
Qed.

End AccessFacts.

(** ** Property access on concrete unions *)

Lemma distinctKeys_In l t : In t (distinctKeys l) <-> In t l.
Proof.
  induction l as [|a l IH]; simpl; [tauto|].
  destruct (IsPrimitiveType a
            && existsb (fun u => if schemaType_eq_dec a u then true else false) l) eqn:E.
  - rewrite IH. split; [auto|]. intros [<-|H]; [|exact H].
    apply andb_true_iff in E as [_ E]. apply existsb_exists in E as (u & Hu & Heq).
    destruct (schemaType_eq_dec a u) as [->|]; [exact Hu | discriminate].
  - simpl. rewrite IH. tauto.
Qed.

Lemma distinctKeys_length l : List.length (distinctKeys l) <= List.length l.
Proof.
  induction l as [|a l IH]; simpl; [lia|].
  destruct (_ && _); simpl; lia.
Qed.

Lemma distinctKeys_primitive l p :
  count_occ schemaType_eq_dec (distinctKeys l) (Primitive p) <= 1.
Proof.
  induction l as [|a l IH]; simpl; [lia|].
  destruct (IsPrimitiveType a
            && existsb (fun u => if schemaType_eq_dec a u then true else false) l) eqn:E;
    [exact IH|].
  simpl. destruct (schemaType_eq_dec a (Primitive p)) as [->|Hne]; [|exact IH].
  assert (count_occ schemaType_eq_dec (distinctKeys l) (Primitive p) = 0) as ->; [|lia].
  apply count_occ_not_In. rewrite distinctKeys_In. intros Hin.
  assert (existsb (fun u => if schemaType_eq_dec (Primitive p) u then true else false) l
          = true) as Hex.
  { apply existsb_exists. exists (Primitive p). split; [exact Hin|].
    destruct (schemaType_eq_dec (Primitive p) (Primitive p)); [reflexivity | contradiction]. }
  rewrite Hex in E. simpl in E. discriminate E.
Qed.

(** The keys with a pointer of its own for every type that is not primitive
    are keys as Go has them. *)
Lemma distinctKeys_keySet : keySet distinctKeys.
Proof.
  intros l. split; [intros t; apply distinctKeys_In|].
  split; [apply distinctKeys_length | intros p; apply distinctKeys_primitive].
Qed.

(** Indexing [Union<Array<string>, Array<number>>] by an integer gives
    [Union<string, number>] and reports nothing. *)
Lemma typePropertyAccess_union_of_arrays :
  typePropertyAccess' (fun _ _ => InvalidType [])
    (UnionType [ArrayType StringType; ArrayType NumberType]) "start"
    [PropertySubscript (IndexInt 0)]
  = (UnionType [StringType; NumberType], []).
Proof. reflexivity. Qed.

(** C4, refuted as stated: of the two branches of
    [Union<Array<string>, Map<number>>] indexed by an integer the first
    succeeds with [string] and only the second fails, and yet the access
    reports the error and types as invalid. *)
Lemma typePropertyAccess_union_one_branch_fails :
  typePropertyAccess' (fun _ _ => InvalidType []) (ArrayType StringType) "start"
    [PropertySubscript (IndexInt 0)] = (StringType, [])
  /\
  typePropertyAccess' (fun _ _ => InvalidType [])
    (UnionType [ArrayType StringType; MapType NumberType]) "start"
    [PropertySubscript (IndexInt 0)]
  = (InvalidType [],
     [("Cannot index into start of type Union<List<string>, Map<number>>",
       "'start' could be a type that does not support indexing:" +:+ newline +:+
       "  Map<number>: Cannot index via number into 'start' (type Map<number>)")]).
Proof. split; reflexivity. Qed.

Lemma typePropertyAccess_union_witness :
  (forall s, In s [ArrayType StringType; ArrayType NumberType] ->
     snd (typePropertyAccess' (fun _ _ => InvalidType []) s "start"
            [PropertySubscript (IndexInt 0)]) = []) /\
  snd (typePropertyAccess' (fun _ _ => InvalidType [])
         (UnionType [ArrayType StringType; ArrayType NumberType]) "start"
         [PropertySubscript (IndexInt 0)]) = [].
Proof.
  assert (forall s, In s [ArrayType StringType; ArrayType NumberType] ->
     snd (typePropertyAccess' (fun _ _ => InvalidType []) s "start"
            [PropertySubscript (IndexInt 0)]) = []) as H.
  { intros s [<-|[<-|[]]]; reflexivity. }
  split; [exact H|].
  exact (proj1 (proj2 (typePropertyAccess_union quotePlain plainMessageWithDetail
                         distinctKeys (fun _ _ => InvalidType [])
                         [ArrayType StringType; ArrayType NumberType] "start"
                         (PropertySubscript (IndexInt 0)) [] distinctKeys_keySet) H)).
Defined.

(** ** Resolution of resource tokens *)

Module PackagesFacts.
Import Packages GoStrings.

Section ResolveFacts.

Variable ToLowerCamel : string -> string.
Variable Quote : string -> string.

(** C6: for a token of two or three colon-separated parts,
    [ResolveResource] answers with the token of the first resource found
    under the token itself, then [pkg:index:Name] (a token of two parts),
    then the legacy form [pkg:mod/lowerName:Name], and with an error when
    none is defined; [pulumi:providers:pkg], for the package's own name, is
    always resolved, to the provider's token. *)
Theorem ResolveResource_candidates (p : SchemaPackage) (typeName : string) :
  List.length (Split typeName ":") = 2 \/ List.length (Split typeName ":") = 3 ->
  (Split typeName ":" = ["pulumi"; "providers"; PackageName p] ->
     ResolveResource ToLowerCamel Quote p typeName = Ok (ResourceToken (Provider p)))
  /\
  (Split typeName ":" <> ["pulumi"; "providers"; PackageName p] ->
     ResolveResource ToLowerCamel Quote p typeName
     = match firstResource p (candidateNames ToLowerCamel typeName) with
       | Some res => Ok (ResourceToken res)
       | None =>
           Err ("unable to find resource type " +:+ Quote typeName
                +:+ " in resource provider " +:+ Quote (resourcePackage_Name p))
       end).
Proof.
  intros Hlen. unfold ResolveResource, candidateNames.
  destruct (Split typeName ":") as [|a [|b [|c [|d l]]]] eqn:E;
    simpl in Hlen; try (destruct Hlen; discriminate).
  - (* two parts *)
    split; [discriminate|]. intros _. unfold part. simpl.
    destruct (GetResource p typeName); [reflexivity|].
    destruct (GetResource p (a +:+ ":index:" +:+ b)); [reflexivity|].
    destruct (GetResource p _); reflexivity.
  - (* three parts *)
    split.
    + intros [= -> -> ->]. unfold part. simpl. rewrite String.eqb_refl. reflexivity.
    + intros Hne. unfold part. simpl.
      destruct (String.eqb a "pulumi" && String.eqb b "providers"
                && String.eqb c (PackageName p)) eqn:Hprov.
      * exfalso. apply Hne.
        apply andb_true_iff in Hprov as [Hab Hc].
        apply andb_true_iff in Hab as [Ha Hb].
        apply String.eqb_eq in Ha, Hb, Hc. congruence.
      * destruct (GetResource p typeName); [reflexivity|].
        destruct (GetResource p _); reflexivity.
Qed.

(** A token of any other number of parts is refused. *)
Lemma ResolveResource_invalid_token (p : SchemaPackage) (typeName : string) :
  List.length (Split typeName ":") < 2 \/ 3 < List.length (Split typeName ":") ->
  ResolveResource ToLowerCamel Quote p typeName
  = Err ("invalid type token " +:+ Quote typeName).
Proof.
  intros H. unfold ResolveResource.
  destruct (Nat.ltb_spec (List.length (Split typeName ":")) 2);
    destruct (Nat.ltb_spec 3 (List.length (Split typeName ":"))); simpl;
    try reflexivity; lia.
Qed.

End ResolveFacts.

Lemma ResolveResource_candidates_witness :
  (List.length (Split "aws:s3:Bucket" ":") = 2 \/ List.length (Split "aws:s3:Bucket" ":") = 3)
  /\ ResolveResource lowerFirst quotePlain awsPackage "aws:s3:Bucket"
     = Ok "aws:s3/bucket:Bucket"
  /\ ResolveResource lowerFirst quotePlain awsPackage "pulumi:providers:aws"
     = Ok "pulumi:providers:aws".
Proof.
  split; [right; reflexivity|]. split.
  - rewrite (proj2 (ResolveResource_candidates lowerFirst quotePlain awsPackage
                      "aws:s3:Bucket" (or_intror eq_refl))).
    + reflexivity.
    + discriminate.
  - apply (proj1 (ResolveResource_candidates lowerFirst quotePlain awsPackage
                    "pulumi:providers:aws" (or_intror eq_refl))).
    reflexivity.
Defined.

End PackagesFacts.

(** ** Expressions the checker leaves without a usable type *)

Module CheckerFacts.
Import Packages Checker.

(** C3 fails on the code.  Visiting an invoke whose [return] names no output
    of the function, or whose function cannot be resolved, reports an error
    and records no type at all for the expression: [TypeExpr] answers nil.
    Visiting an access into a union of which one branch fails reports an
    error and records an invalid type that carries no diagnostic. *)
Theorem typeExpr_failed_without_invalid_type :
  (typeAfter invokeBadReturn (visit invokeBadReturn emptyCache) = Some None
   /\ errorsAfter (visit invokeBadReturn emptyCache) = ["missing does not exist on test:fn"])
  /\
  (typeAfter invokeUnknownPackage (visit invokeUnknownPackage emptyCache) = Some None
   /\ errorsAfter (visit invokeUnknownPackage emptyCache)
      = ["internal error loading package " +:+ quotePlain "nopkg" +:+ ": package not found"])
  /\
  (typeAfter unionIndex (visit unionIndex cacheWithUnion) = Some (Some (InvalidType []))
   /\ errorsAfter (visit unionIndex cacheWithUnion)
      = ["Cannot index into u of type Union<List<string>, Map<number>>"]).
Proof. repeat split; vm_compute; reflexivity. Qed.

(** An object whose key is not a string expression makes the type
    assertion on the key panic: the visit does not return. *)
Lemma typeExpr_non_string_key_panics :
  visit (ObjectExpr (mkNode 1 (at_ 0 9))
           [(BooleanExpr (mkNode 2 (at_ 1 5)) true, NullExpr (mkNode 3 (at_ 7 8)))])
        emptyCache
  = Stuck "the key of an object entry is not a string".
Proof. reflexivity. Qed.

(** The sibling paths do record an invalid type with its diagnostic: an
    access to a property that does not exist. *)
Lemma typeSymbol_missing_property_is_invalid :
  typeAfter
    (SymbolExpr (mkNode 6 (at_ 1 9)) [PropertyName "o"; PropertyName "nope"])
    (visit (SymbolExpr (mkNode 6 (at_ 1 9)) [PropertyName "o"; PropertyName "nope"])
           (mkTypeCache ∅ ∅ ∅ {[ 4 := Some (ObjectType "" [mkProperty "foo" StringType]) ]}
                        ∅ {[ "o" := 4 ]}))
  = Some (Some (InvalidType
                  [syntaxError (at_ 1 9) "nope does not exist on o"
                               "Existing properties are: foo"])).
Proof. vm_compute. reflexivity. Qed.

(** A number literal is typed [number], and as the index of [fn::select] it
    is accepted by the integer target without a diagnostic. *)
Lemma select_accepts_number_literal :
  let index := NumberExpr (mkNode 1 (at_ 0 1)) "1" in
  let values := ListExpr (mkNode 2 (at_ 2 9)) [StringExpr (mkNode 3 (at_ 3 6)) "a"] in
  let select := SelectExpr (mkNode 4 (at_ 0 9)) index values in
  let tc := mkTypeCache ∅ ∅ ∅
              {[ 1 := Some NumberType; 2 := Some (ArrayType StringType) ]} ∅ ∅ in
  typeAfter index (visit index emptyCache) = Some (Some NumberType)
  /\ typeAfter select (visit select tc) = Some (Some StringType)
  /\ errorsAfter (visit select tc) = [].
Proof. repeat split; vm_compute; reflexivity. Qed.

(** C10 fails on the code.  The guards of [isAssignable] accept an invalid
    type on either side, but an expression that failed is not always typed
    invalid: the invoke whose [return] names no output reports its error
    and is left without a type, so the guards do not see it, and the visit
    of a join that has the invoke as delimiter does not return: the check of
    the delimiter formats the nil type. *)
Theorem failed_invoke_use_site :
  (forall d t, isAssignable (InvalidType d) t = None /\ isAssignable t (InvalidType d) = None)
  /\
  (typeAfter invokeBadReturn (visit invokeBadReturn emptyCache) = Some None
   /\ errorsAfter (visit invokeBadReturn emptyCache) = ["missing does not exist on test:fn"])
  /\
  visit joinFailedInvoke (cacheAfter (visit invokeBadReturn emptyCache))
  = Stuck "displayType of a nil type".
Proof.
  split; [intros d t; apply isAssignable_invalid_either|].
  split; [split; vm_compute; reflexivity|].
  vm_compute. reflexivity.
Qed.

End CheckerFacts.

(** ** [fn::split] and [fn::join] *)

Module BuiltinFacts.
Import GoStrings Base64 Packages Builtins.

Lemma append_cons c (a b : string) : (String c a +:+ b = String c (a +:+ b))%string.
Proof. reflexivity. Qed.

Lemma append_nil_l (b : string) : ("" +:+ b = b)%string.
Proof. reflexivity. Qed.

Lemma prefix_dropString p s :
  String.prefix p s = true -> s = (p +:+ dropString (String.length p) s)%string.
Proof.
  revert s. induction p as [|a p IH]; intros s H.
  - destruct s; reflexivity.
  - destruct s as [|c s]; simpl in H; [discriminate|].
    destruct (ascii_dec a c) as [->|]; [|discriminate].
    rewrite append_cons. simpl. f_equal. apply IH, H.
Qed.

Lemma append_assoc (a b c : string) : ((a +:+ b) +:+ c = a +:+ (b +:+ c))%string.
Proof. induction a; rewrite ?append_nil_l, ?append_cons; congruence. Qed.

Lemma append_empty_r (a : string) : (a +:+ "" = a)%string.
Proof. induction a; rewrite ?append_nil_l, ?append_cons; congruence. Qed.

Lemma splitOn_not_nil a sep s piece : splitOn a sep s piece <> [].
Proof. funelim (splitOn a sep s piece); simp splitOn; try rewrite Heq; simpl; auto; discriminate. Qed.

(** Joining the pieces with the separator gives back what was read. *)
Lemma concat_splitOn a sep s piece :
  String.concat (String a sep) (splitOn a sep s piece) = (piece +:+ s)%string.
Proof.
  funelim (splitOn a sep s piece).
  - simpl. symmetry. apply append_empty_r.
  - destruct (splitOn a sep (dropString (String.length sep) s) "") as [|x xs] eqn:E.
    + exfalso. exact (splitOn_not_nil _ _ _ _ E).
    + change (String.concat (String a sep) (piece :: x :: xs))
        with (piece +:+ String a sep +:+ String.concat (String a sep) (x :: xs))%string.
      rewrite H. rewrite append_nil_l.
      apply prefix_dropString in Heq. simpl in Heq.
      rewrite Heq. reflexivity.
  - rewrite H. rewrite append_assoc. reflexivity.
Qed.

Lemma Join_Split s d : d <> "" -> Join (Split s d) d = s.
Proof.
  intros Hd. destruct d as [|a sep]; [congruence|].
  unfold Join, Split. apply concat_splitOn.
Qed.

Lemma joinArguments_strings i l : joinArguments i (map VString l) = (l, []).
Proof.
  revert i. induction l as [|s l IH]; intros i; simpl; [reflexivity|].
  rewrite IH. reflexivity.
Qed.

(** C8: for every string [s] and every delimiter [d] that is not empty,
    [fn::join] with [d] over the result of [fn::split] with [d] on [s] gives
    [s]; splitting the empty string gives the list of the empty string. *)
Theorem join_split_roundtrip (s d : string) :
  d <> "" ->
  (exists pieces,
     evaluateBuiltinSplit (VString d) (VString s) = Ok pieces
     /\ evaluateBuiltinJoin (VString d) pieces = inl (Ok (VString s)))
  /\ evaluateBuiltinSplit (VString d) (VString "") = Ok (VList [VString ""]).
Proof.
  intros Hd. split.
  - exists (VList (map VString (Split s d))). split; [reflexivity|].
    simpl. rewrite joinArguments_strings, Join_Split by exact Hd. reflexivity.
  - destruct d as [|a sep]; [congruence|]. reflexivity.
Qed.

Lemma join_split_roundtrip_witness :
  "-" <> "" /\
  (exists pieces,
     evaluateBuiltinSplit (VString "-") (VString "1-2-3-4") = Ok pieces
     /\ evaluateBuiltinJoin (VString "-") pieces = inl (Ok (VString "1-2-3-4")))
  /\ evaluateBuiltinSplit (VString "-") (VString "") = Ok (VList [VString ""]).
Proof.
  split; [discriminate|].
  apply (join_split_roundtrip "1-2-3-4" "-"). discriminate.
Defined.

(** The cases of the test suite. *)
Lemma split_examples :
  Split "a,b" "," = ["a"; "b"] /\ Split "a" "," = ["a"] /\ Split "" "," = [""]
  /\ Split "1-2-3-4" "-" = ["1"; "2"; "3"; "4"]
  /\ Join ["a"; "b"; "c"] "," = "a,b,c".
Proof. repeat split; reflexivity. Qed.

(** With the empty delimiter, [strings.Split] replaces a byte that is not
    valid UTF-8, and joining does not give the source back. *)
Lemma split_empty_delimiter_example :
  Split (bytes [255; 97]) "" = [runeError; "a"]
  /\ Split "ab" "" = ["a"; "b"]
  /\ Split "" "" = [].
Proof. repeat split; reflexivity. Qed.

(** ** [fn::toBase64] and [fn::fromBase64] *)

Ltac Zify.zify_post_hook ::= Z.div_mod_to_equations.
Local Arguments Nat.div : simpl never.
Local Arguments Nat.modulo : simpl never.

Lemma decodeChar_encodeChar i : i < 64 -> decodeChar (encodeChar i) = Some i.
Proof.
  intros H. do 64 (destruct i as [|i]; [reflexivity|]). lia.
Qed.

Lemma decodeChar_padChar : decodeChar padChar = None.
Proof. reflexivity. Qed.

Lemma isNewline_encodeChar i : isNewline (encodeChar i) = false.
Proof. do 64 (destruct i as [|i]; [reflexivity|]). reflexivity. Qed.

Lemma skipNewlines_EncodeToString_aux s :
  skipNewlines (EncodeToString s) = EncodeToString s
  /\ (forall a, skipNewlines (EncodeToString (String a s)) = EncodeToString (String a s))
  /\ (forall a b, skipNewlines (EncodeToString (String a (String b s)))
                  = EncodeToString (String a (String b s))).
Proof.
  induction s as [|c s (IH0 & IH1 & IH2)].
  - repeat split; intros; simpl; rewrite ?isNewline_encodeChar; reflexivity.
  - split; [apply IH1|]. split; [intros a; apply IH2|].
    intros a b. simpl. rewrite !isNewline_encodeChar. rewrite IH0. reflexivity.
Qed.

Lemma byteOf_lt a : byteOf a < 256.
Proof. apply nat_ascii_bounded. Qed.

Lemma byte_byteOf a : byte (byteOf a) = a.
Proof. apply ascii_nat_embedding. Qed.

Lemma byte_eq n a : n = byteOf a -> byte n = a.
Proof. intros ->. apply byte_byteOf. Qed.

Lemma decodeQuanta_EncodeToString_aux s :
  decodeQuanta (EncodeToString s) = Some s
  /\ (forall a, decodeQuanta (EncodeToString (String a s)) = Some (String a s))
  /\ (forall a b, decodeQuanta (EncodeToString (String a (String b s)))
                  = Some (String a (String b s))).
Proof.
  induction s as [|c s (IH0 & IH1 & IH2)].
  - split; [reflexivity|]. split.
    + intros a. pose proof (byteOf_lt a) as Ha.
      cbn [EncodeToString decodeQuanta].
      rewrite !decodeChar_encodeChar, decodeChar_padChar by lia.
      simpl. f_equal. f_equal. apply byte_eq. lia.
    + intros a b. pose proof (byteOf_lt a) as Ha. pose proof (byteOf_lt b) as Hb.
      cbn [EncodeToString decodeQuanta].
      rewrite !decodeChar_encodeChar, decodeChar_padChar by lia.
      simpl. f_equal. f_equal; [apply byte_eq; lia|].
      f_equal. apply byte_eq. lia.
  - split; [apply IH1|]. split; [intros a; apply IH2|].
    intros a b.
    pose proof (byteOf_lt a) as Ha. pose proof (byteOf_lt b) as Hb.
    pose proof (byteOf_lt c) as Hc.
    cbn [EncodeToString decodeQuanta].
    rewrite !decodeChar_encodeChar by lia. rewrite IH0.
    f_equal. f_equal; [apply byte_eq; lia|].
    f_equal; [apply byte_eq; lia|].
    f_equal. apply byte_eq. lia.
Qed.

(** Decoding an encoding gives the bytes back. *)
Lemma DecodeString_EncodeToString s : DecodeString (EncodeToString s) = Some s.
Proof.
  unfold DecodeString.
  rewrite (proj1 (skipNewlines_EncodeToString_aux s)).
  apply decodeQuanta_EncodeToString_aux.
Qed.

(** C7, on the standard encoding.  For every valid UTF-8 string [t],
    [fn::fromBase64] of [fn::toBase64] of [t] is [t], and [fn::toBase64] of
    [fn::fromBase64] gives back the encoding of [t]; and [fn::fromBase64]
    fails on every input whose decoding is not valid UTF-8. *)
Theorem base64_roundtrip :
  (forall t, ValidString t = true ->
     evaluateBuiltinFromBase64 (VString (EncodeToString t)) = Ok (VString t)
     /\ exists decoded,
          evaluateBuiltinFromBase64 (VString (EncodeToString t)) = Ok decoded
          /\ evaluateBuiltinToBase64 decoded = Ok (VString (EncodeToString t)))
  /\
  (forall s decoded, DecodeString s = Some decoded -> ValidString decoded = false ->
     evaluateBuiltinFromBase64 (VString s)
     = Err "fn::fromBase64 output is not a valid UTF-8 string").
Proof.
  split.
  - intros t Hv.
    assert (evaluateBuiltinFromBase64 (VString (EncodeToString t)) = Ok (VString t)) as H.
    { unfold evaluateBuiltinFromBase64.
      rewrite DecodeString_EncodeToString, Hv. reflexivity. }
    split; [exact H|]. exists (VString t). split; [exact H | reflexivity].
  - intros s decoded Hd Hv. unfold evaluateBuiltinFromBase64.
    rewrite Hd, Hv. reflexivity.
Qed.

Lemma base64_roundtrip_witness :
  ValidString "Hello, World" = true /\
  evaluateBuiltinFromBase64 (VString "SGVsbG8sIFdvcmxk") = Ok (VString "Hello, World") /\
  DecodeString "wyg=" = Some (bytes [195; 40]) /\
  ValidString (bytes [195; 40]) = false /\
  evaluateBuiltinFromBase64 (VString "wyg=")
  = Err "fn::fromBase64 output is not a valid UTF-8 string".
Proof.
  split; [reflexivity|]. split.
  - exact (proj1 (proj1 base64_roundtrip "Hello, World" eq_refl)).
  - split; [reflexivity|]. split; [reflexivity|].
    exact (proj2 base64_roundtrip "wyg=" (bytes [195; 40]) eq_refl eq_refl).
Defined.

(** C7, refuted as stated: ["QR=="] decodes to the valid UTF-8 string ["A"],
    whose encoding is ["QQ=="]. *)
Lemma toBase64_fromBase64_not_identity :
  DecodeString "QR==" = Some "A" /\
  ValidString "A" = true /\
  evaluateBuiltinFromBase64 (VString "QR==") = Ok (VString "A") /\
  evaluateBuiltinToBase64 (VString "A") = Ok (VString "QQ==").
Proof. repeat split; reflexivity. Qed.

(** The cases of the test suite. *)
Lemma base64_examples :
  evaluateBuiltinToBase64 (VString "Hello, World!") = Ok (VString "SGVsbG8sIFdvcmxkIQ==")
  /\ evaluateBuiltinFromBase64 (VString "dGhpcyBpcyBhIHRlc3Q=") = Ok (VString "this is a test")
  /\ evaluateBuiltinFromBase64 (VString "My4xNDE1OTI=") = Ok (VString "3.141592").
Proof. repeat split; reflexivity. Qed.

Lemma ValidString_examples :
  map (fun l => ValidString (bytes l))
      [ [97]; [195; 177]; [226; 130; 161]; [240; 144; 140; 188];
        [248; 161; 161; 161; 161]; [252; 161; 161; 161; 161; 161];
        [195; 40]; [160; 161]; [226; 40; 161]; [226; 130; 40];
        [240; 40; 140; 188]; [240; 144; 40; 188]; [240; 40; 140; 40] ]
  = [ true; true; true; true; false; false; false; false; false; false;
      false; false; false ].
Proof. reflexivity. Qed.

End BuiltinFacts.

(** ** What the runner returns *)

Module RunnerFacts.
Import Runner.

Lemma HasErrors_app a b : HasErrors (a ++ b) = HasErrors a || HasErrors b.
Proof. apply existsb_app. Qed.

Lemma Run_without_errors nodes : forall sdiags,
  HasErrors (sdiags ++ concat nodes) = false ->
  Run nodes sdiags = [].
Proof.
  induction nodes as [|node nodes IH]; intros sdiags H; simpl.
  - rewrite app_nil_r in H. rewrite H. reflexivity.
  - simpl in H. rewrite app_assoc in H.
    pose proof H as H'. rewrite HasErrors_app in H'.
    apply orb_false_iff in H' as [-> _].
    apply IH. exact H.
Qed.

(** When a node emits an error, the run stops after it and returns what was
    accumulated up to and including that node. *)
Lemma Run_stops_at_error before node after sdiags :
  HasErrors (sdiags ++ concat before) = false ->
  HasErrors node = true ->
  Run (before ++ node :: after) sdiags = sdiags ++ concat before ++ node.
Proof.
  revert sdiags. induction before as [|b before IH]; intros sdiags H Hn; simpl.
  - rewrite HasErrors_app, Hn, orb_true_r. reflexivity.
  - simpl in H. rewrite app_assoc in H.
    pose proof H as H'. rewrite HasErrors_app in H'.
    apply orb_false_iff in H' as [-> _].
    rewrite (IH _ H Hn), <- !app_assoc. reflexivity.
Qed.

(** C9: a run whose nodes emit no diagnostic of severity error returns the
    empty collection of diagnostics, which renders as ["no diagnostics"]. *)
Theorem Evaluate_no_diagnostics (nodes : list nodeRun) :
  HasErrors (concat nodes) = false ->
  Evaluate nodes = [] /\ diagnosticsError (Evaluate nodes) = "no diagnostics".
Proof.
  intros He.
  assert (Evaluate nodes = []) as -> by (apply (Run_without_errors nodes []); exact He).
  split; reflexivity.
Qed.

Lemma Evaluate_no_diagnostics_witness :
  HasErrors (concat [[]; [untypedInputWarning]]) = false /\
  Evaluate [[]; [untypedInputWarning]] = [] /\
  diagnosticsError (Evaluate [[]; [untypedInputWarning]]) = "no diagnostics".
Proof.
  split; [reflexivity|].
  exact (Evaluate_no_diagnostics [[]; [untypedInputWarning]] eq_refl).
Defined.

End RunnerFacts.

(** * Further properties of the checker *)

(** ** Assignability, target by target *)

Module AssignFacts.

Local Arguments displayType : simpl never.

Lemma isLegal_false (r : assignResult) : isLegal r = false <-> r <> None.
Proof. destruct r; simpl; split; congruence. Qed.

Lemma isAssignable_unwrap_to from to :
  isAssignable from to = isAssignable from (UnwrapType to).
Proof.
  rewrite isAssignable_unwrap, (isAssignable_unwrap from (UnwrapType to)), UnwrapType_idem.
  reflexivity.
Qed.

Lemma isAssignable_unwrap_from from to :
  isAssignable from to = isAssignable (UnwrapType from) to.
Proof.
  rewrite isAssignable_unwrap, (isAssignable_unwrap (UnwrapType from) to), UnwrapType_idem.
  reflexivity.
Qed.

Lemma isAssignable_any_sized n : forall from,
  size from < n -> isAssignable from AnyType = None.
Proof.
  induction n as [|n IH]; intros from Hn; [lia|].
  destruct (isInvalid (UnwrapType from)) eqn:Hi.
  { apply isAssignable_from_invalid, Hi. }
  pose proof (size_UnwrapType from) as Hs.
  destruct (UnwrapType from) as [p| | | | | |xs| | | |] eqn:Ef.
  7: { apply (isAssignable_from_union from AnyType xs Ef). intros x Hx.
       apply IH. apply size_elem in Hx. simpl in Hs. lia. }
  all: unfold_isAssignable; rewrite Ef; reflexivity.
Qed.

(** Every source is assignable to [any], also through wrappers of the
    target. *)
Theorem isAssignable_any_target (from : schemaType) :
  isAssignable from AnyType = None
  /\ isAssignable from (OptionalType AnyType) = None
  /\ isAssignable from (InputType AnyType) = None.
Proof.
  assert (isAssignable from AnyType = None) as H
    by (apply (isAssignable_any_sized (S (size from))); lia).
  split; [exact H|].
  split; rewrite isAssignable_unwrap_to; exact H.
Qed.

(** X1: A [string] target accepts, of the sources that are neither invalid nor a
    union, exactly the resources (coerced through their URN) and the
    primitives string, number, integer and boolean. *)
Theorem isAssignable_string_target (from : schemaType) :
  isInvalid (UnwrapType from) = false ->
  isUnion (UnwrapType from) = false ->
  (isAssignable from StringType = None
   <-> (exists tok props, UnwrapType from = ResourceType tok props)
       \/ UnwrapType from = StringType \/ UnwrapType from = NumberType
       \/ UnwrapType from = IntType \/ UnwrapType from = BoolType).
Proof.
  intros Hi Hu. unfold_isAssignable. rewrite Hi.
  destruct (UnwrapType from) as [p| | | | | | | |tok ps| |] eqn:Ef;
    try discriminate; try destruct p; simpl;
    (split;
     [ intros H; try discriminate H; eauto 8
     | intros [(tok' & ps' & E)|[E|[E|[E|E]]]]; try discriminate E; reflexivity ]).
Qed.

Lemma isAssignable_string_target_witness :
  isInvalid (UnwrapType (InputType (ResourceType "aws:s3/bucket:Bucket" []))) = false /\
  isUnion (UnwrapType (InputType (ResourceType "aws:s3/bucket:Bucket" []))) = false /\
  isAssignable (InputType (ResourceType "aws:s3/bucket:Bucket" [])) StringType = None.
Proof.
  split; [reflexivity|]. split; [reflexivity|].
  apply (isAssignable_string_target (InputType (ResourceType "aws:s3/bucket:Bucket" []))
           eq_refl eq_refl).
  left. exists "aws:s3/bucket:Bucket", []. reflexivity.
Defined.

(** Of the primitive sources, an [asset] target accepts asset and archive,
    while the targets archive and boolean accept only themselves: an archive
    fits where an asset is asked for, not the other way round. *)
Theorem isAssignable_asset_archive (p : primitiveType) :
  (isAssignable (Primitive p) AssetType = None <-> p = assetType \/ p = archiveType) /\
  (isAssignable (Primitive p) ArchiveType = None <-> p = archiveType) /\
  (isAssignable (Primitive p) BoolType = None <-> p = boolType).
Proof.
  repeat split; destruct p; vm_compute; intros H; try discriminate H; auto;
    destruct H; discriminate.
Qed.

(** Arrays and maps are assignable element by element. *)
Theorem isAssignable_elementwise (a b : schemaType) :
  isLegal (isAssignable (ArrayType a) (ArrayType b)) = isLegal (isAssignable a b)
  /\ isLegal (isAssignable (MapType a) (MapType b)) = isLegal (isAssignable a b).
Proof.
  split; unfold_isAssignable; simpl; destruct (isAssignable a b); reflexivity.
Qed.

Lemma mapFromObject_legal rec props elem :
  isLegal (mapFromObject rec props elem)
  = forallb (fun p => isLegal (rec (PType p) elem)) props.
Proof.
  induction props as [|p props IH]; simpl; [reflexivity|].
  destruct (rec (PType p) elem); simpl; [reflexivity | exact IH].
Qed.

(** X2: An object is assignable to a map exactly when the type of each of its
    properties is assignable to the element type of the map; the object
    without properties always is. *)
Theorem isAssignable_object_to_map (tok : string) (props : list (Property schemaType))
  (elem : schemaType) :
  isLegal (isAssignable (ObjectType tok props) (MapType elem))
  = forallb (fun p => isLegal (isAssignable (PType p) elem)) props.
Proof.
  unfold_isAssignable. simpl.
  destruct props as [|p props]; [reflexivity|].
  rewrite <- mapFromObject_legal.
  destruct (mapFromObject isAssignable (p :: props) elem); reflexivity.
Qed.

Lemma objectFailures_legal fromProps toProps :
  match objectFailures isAssignable fromProps toProps with [] => true | _ => false end
  = forallb (propertyFits fromProps) toProps.
Proof.
  induction toProps as [|prop toProps IH]; simpl; [reflexivity|].
  unfold propertyFits at 1.
  destruct (lookupProperty fromProps (Name prop)) as [fp|].
  - destruct (isAssignable (PType fp) (PType prop)); simpl; [reflexivity | exact IH].
  - destruct (IsRequired prop); simpl; [reflexivity | exact IH].
Qed.

(** X3: Objects are typed structurally: an object is assignable to an object
    target exactly when each property of the target is either present in the
    source with an assignable type, or absent from it and optional.  The
    tokens and the other properties of the source play no part. *)
Theorem isAssignable_object_structural (ftok ttok : string)
  (fromProps toProps : list (Property schemaType)) :
  isLegal (isAssignable (ObjectType ftok fromProps) (ObjectType ttok toProps))
  = forallb (propertyFits fromProps) toProps.
Proof.
  unfold_isAssignable. simpl.
  rewrite <- objectFailures_legal.
  destruct (objectFailures isAssignable fromProps toProps); reflexivity.
Qed.

Lemma opaqueFree_UnwrapType t : opaqueFree (UnwrapType t) = opaqueFree t.
Proof. induction t; simpl; auto. Qed.

Section InternalLoops.

Variable rec : schemaType -> schemaType -> assignResult.

Lemma unionFromReasons_internal xs to :
  (forall x r, In x xs -> rec x to = Some r -> Checker.IsInternal r = false) ->
  existsb Checker.IsInternal (unionFromReasons rec xs to) = false.
Proof.
  induction xs as [|x xs IH]; intros H; simpl; [reflexivity|].
  destruct (rec x to) as [r|] eqn:E.
  - simpl. rewrite (H x r (or_introl eq_refl) E). simpl.
    apply IH. intros x' r' Hin. apply H. right. exact Hin.
  - apply IH. intros x' r' Hin. apply H. right. exact Hin.
Qed.

Lemma unionToReasons_internal from ys : forall reasons,
  (forall y r, In y ys -> rec from y = Some r -> Checker.IsInternal r = false) ->
  unionToReasons rec from ys = Some reasons ->
  existsb Checker.IsInternal reasons = false.
Proof.
  induction ys as [|y ys IH]; intros reasons H; simpl.
  - intros [= <-]. reflexivity.
  - destruct (rec from y) as [r|] eqn:E; [|discriminate].
    destruct (unionToReasons rec from ys) as [rs|]; [|discriminate].
    intros [= <-]. simpl. rewrite (H y r (or_introl eq_refl) E). simpl.
    apply IH; [|reflexivity]. intros y' r' Hin. apply H. right. exact Hin.
Qed.

Lemma mapFromObject_internal props elem : forall r,
  (forall p r, In p props -> rec (PType p) elem = Some r -> Checker.IsInternal r = false) ->
  mapFromObject rec props elem = Some r ->
  Checker.IsInternal r = false.
Proof.
  induction props as [|p props IH]; intros r H; simpl; [discriminate|].
  destruct (rec (PType p) elem) as [r'|] eqn:E.
  - intros [= <-]. pose proof (H p r' (or_introl eq_refl) E) as Hr.
    destruct r'; exact Hr.
  - apply IH. intros p' r' Hin. apply H. right. exact Hin.
Qed.

Lemma objectFailures_internal fromProps toProps :
  (forall prop fp r, In prop toProps ->
     lookupProperty fromProps (Name prop) = Some fp ->
     rec (PType fp) (PType prop) = Some r -> Checker.IsInternal r = false) ->
  existsb Checker.IsInternal (objectFailures rec fromProps toProps) = false.
Proof.
  induction toProps as [|prop toProps IH]; intros H; simpl; [reflexivity|].
  assert (existsb Checker.IsInternal (objectFailures rec fromProps toProps) = false) as IH'.
  { apply IH. intros prop' fp r Hin. apply H. right. exact Hin. }
  destruct (lookupProperty fromProps (Name prop)) as [fp|] eqn:El.
  - destruct (rec (PType fp) (PType prop)) as [r|] eqn:E; [|exact IH'].
    simpl. rewrite IH'.
    pose proof (H prop fp r (or_introl eq_refl) El E) as Hr.
    destruct r; simpl in *. rewrite Hr. reflexivity.
  - destruct (IsRequired prop); [|exact IH']. simpl. exact IH'.
Qed.

End InternalLoops.

Lemma IsInternal_Because f rs :
  Checker.IsInternal (Because f rs) = internal f || existsb Checker.IsInternal rs.
Proof. destruct f; reflexivity. Qed.

Lemma IsInternal_WithProperty r name :
  Checker.IsInternal (WithProperty r name) = Checker.IsInternal r.
Proof. destruct r; reflexivity. Qed.

Lemma isAssignable_not_internal_sized n : forall from to r,
  size from + size to < n ->
  opaqueFree to = true ->
  isAssignable from to = Some r ->
  Checker.IsInternal r = false.
Proof.
  induction n as [|n IH]; intros from to r Hn Ho H; [lia|].
  rewrite isAssignable_unfold in H. unfold isAssignable_body in H.
  pose proof (size_UnwrapType from) as Hsf. pose proof (size_UnwrapType to) as Hst.
  rewrite <- opaqueFree_UnwrapType in Ho.
  pose proof (UnwrapType_not_wrapper to) as Hwt.
  destruct (isInvalid (UnwrapType from)); [discriminate|].
  destruct (isInvalid (UnwrapType to)) eqn:Hit; [discriminate|].
  destruct (UnwrapType from) as [fp|fd|fe|fe|fe|fe|fxs|ftok fps|ftok fps|ftok fe|ftok fu] eqn:Ef.
  7: { remember (unionFromReasons isAssignable fxs (UnwrapType to)) as rs eqn:Eu.
       destruct rs; [discriminate|].
       injection H as <-. rewrite IsInternal_Because, Eu.
       apply unionFromReasons_internal.
       intros x r Hin. apply IH; [|exact Ho].
       apply size_elem in Hin. simpl in Hsf. lia. }
  all: destruct (UnwrapType to) as [tp|td|te|te|te|te|txs|ttok tps|ttok tps|ttok te|ttok tu] eqn:Et.
  all: try discriminate Hit.
  all: try (exfalso; exact Hwt).
  all: try (destruct tp).
  all: simpl in H.
  all: try discriminate H.
  all: try (injection H as <-; reflexivity).
  all: repeat match type of H with
       | context [if ?c then _ else _] => destruct c
       end.
  all: try discriminate H.
  all: try (injection H as <-; reflexivity).
  (* a union target *)
  all: try (match type of H with
       | context [unionToReasons isAssignable ?f ?ys] =>
           destruct (unionToReasons isAssignable f ys) as [rs|] eqn:Eu; [|discriminate H];
           injection H as <-; rewrite IsInternal_Because; simpl;
           apply (unionToReasons_internal isAssignable f ys rs); [|exact Eu];
           intros y r' Hin Hr; simpl in Ho;
           pose proof (proj1 (forallb_forall _ _) Ho y Hin) as Hoy;
           apply size_elem in Hin; simpl in Hsf, Hst;
           refine (IH _ y r' _ Hoy Hr); simpl; lia
       end).
  (* the properties of an object assigned to a map *)
  all: try (match type of H with
       | context [mapFromObject isAssignable ?ps ?e] =>
           destruct (mapFromObject isAssignable ps e) as [r0|] eqn:Em; [|discriminate H];
           injection H as <-; rewrite IsInternal_Because; simpl;
           rewrite (mapFromObject_internal isAssignable ps e r0); [reflexivity| |exact Em];
           intros q r' Hin Hr; simpl in Ho;
           apply size_prop in Hin; simpl in Hsf, Hst;
           refine (IH _ e r' _ Ho Hr); simpl in *; lia
       end).
  (* object to object *)
  all: try (match type of H with
       | context [objectFailures isAssignable ?fps ?tps] =>
           remember (objectFailures isAssignable fps tps) as fs eqn:Eo;
           destruct fs; [discriminate H|];
           injection H as <-; rewrite IsInternal_Because, Eo; simpl;
           apply objectFailures_internal;
           intros prop fp' r' Hin Hl Hr; simpl in Ho;
           pose proof (proj1 (forallb_forall _ _) Ho prop Hin) as Hop;
           apply lookupProperty_In in Hl; destruct Hl as [Hl _];
           apply size_prop in Hin; apply size_prop in Hl; simpl in Hsf, Hst;
           refine (IH _ _ r' _ Hop Hr); lia
       end).
  (* a token with an underlying type *)
  all: try (destruct tu as [tu|]; [|discriminate Ho];
            simpl in Ho, Hsf, Hst; refine (IH _ tu r _ Ho H); simpl; lia).
  (* elements and enums *)
  all: try (match type of H with
       | context [isAssignable ?a ?b] =>
           destruct (isAssignable a b) as [r0|] eqn:Er; try discriminate H;
           injection H as <-; try rewrite IsInternal_Because; simpl in *;
           try reflexivity;
           try (rewrite (IH a b r0); [reflexivity| |exact Ho|exact Er]; simpl; lia)
       end).
Qed.

(** X4: A failed assignment to a target that holds no opaque token is never an
    internal one: its reasons are all about the two types. *)
Theorem isAssignable_failure_not_internal (from to : schemaType) (r : notAssignable) :
  opaqueFree to = true ->
  isAssignable from to = Some r ->
  Checker.IsInternal r = false.
Proof.
  apply (isAssignable_not_internal_sized (S (size from + size to))). lia.
Qed.

Lemma isAssignable_failure_not_internal_witness :
  opaqueFree (ArrayType IntType) = true /\
  match isAssignable (ArrayType StringType) (ArrayType IntType) with
  | Some r => Checker.IsInternal r = false
  | None => False
  end.
Proof.
  split; [reflexivity|].
  destruct (isAssignable (ArrayType StringType) (ArrayType IntType)) as [r|] eqn:E.
  - exact (isAssignable_failure_not_internal (ArrayType StringType) (ArrayType IntType) r
             eq_refl E).
  - vm_compute in E. discriminate E.
Defined.

(** X5: [assertTypeAssignable] leaves the cache alone and reports at most one
    diagnostic, at the given range: none when the assignment is legal, and
    otherwise, for a target without opaque tokens, an error whose summary
    names the two types as they are displayed. *)
Theorem assertTypeAssignable_reports (loc : Range) (from to : schemaType)
  (st : Checker.checkerState) :
  exists st',
    Checker.assertTypeAssignable loc (Some from) to st = Checker.Done st' /\
    Checker.cache st' = Checker.cache st /\
    if isLegal (isAssignable from to) then Checker.diags st' = Checker.diags st
    else exists d,
      Checker.diags st' = Checker.diags st ++ [d] /\
      Subject d = Some loc /\
      (opaqueFree to = true ->
       DiagSeverity d = DiagError /\
       Summary d = displayType to +:+ " is not assignable from " +:+ displayType from).
Proof.
  unfold Checker.assertTypeAssignable.
  destruct (isAssignable from to) as [r|] eqn:E; simpl.
  - destruct (Checker.IsInternal r) eqn:Ei; eexists; (split; [reflexivity|]);
      (split; [reflexivity|]); eexists; (split; [reflexivity|]);
      (split; [reflexivity|]); intros Ho.
    + rewrite (isAssignable_not_internal_sized (S (size from + size to)) from to r
                 ltac:(lia) Ho E) in Ei.
      discriminate Ei.
    + split; reflexivity.
  - exists st. repeat split.
Qed.

Lemma isLegal_true (r : assignResult) : isLegal r = true <-> r = None.
Proof. destruct r; simpl; split; congruence. Qed.

Lemma union_source_legal (xs : list schemaType) (to : schemaType) :
  isLegal (isAssignable (UnionType xs) to)
  = forallb (fun x => isLegal (isAssignable x to)) xs.
Proof.
  apply Bool.eq_iff_eq_true.
  rewrite isLegal_true, forallb_forall.
  rewrite (isAssignable_from_union (UnionType xs) to xs eq_refl).
  split; intros H x Hx; apply isLegal_true; apply H; exact Hx.
Qed.

(** X6: A union is assignable to a target exactly when each of its alternatives
    is; the union without alternatives is assignable to every type. *)
Theorem isAssignable_union_source (xs : list schemaType) (to : schemaType) :
  isLegal (isAssignable (UnionType xs) to)
  = forallb (fun x => isLegal (isAssignable x to)) xs.
Proof. apply union_source_legal. Qed.

(** X7: A source that is neither invalid nor a union is assignable to a union
    exactly when one of the alternatives of the union accepts it; the union
    without alternatives accepts no such source. *)
Theorem isAssignable_union_target (from : schemaType) (ys : list schemaType) :
  isInvalid (UnwrapType from) = false ->
  isUnion (UnwrapType from) = false ->
  isLegal (isAssignable from (UnionType ys))
  = existsb (fun y => isLegal (isAssignable from y)) ys.
Proof.
  intros Hi Hu. apply Bool.eq_iff_eq_true.
  rewrite isLegal_true, existsb_exists.
  rewrite (isAssignable_to_union from (UnionType ys) ys Hi Hu eq_refl).
  split; intros (y & Hy & H); exists y; (split; [exact Hy|]); apply isLegal_true; exact H.
Qed.

Lemma isAssignable_union_target_witness :
  isInvalid (UnwrapType (OptionalType IntType)) = false /\
  isUnion (UnwrapType (OptionalType IntType)) = false /\
  isLegal (isAssignable (OptionalType IntType) (UnionType [BoolType; NumberType])) = true.
Proof.
  split; [reflexivity|]. split; [reflexivity|].
  rewrite (isAssignable_union_target (OptionalType IntType) [BoolType; NumberType]
             eq_refl eq_refl).
  reflexivity.
Defined.

Lemma forallb_ext_In {A} (f g : A -> bool) (l : list A) :
  (forall x, In x l -> f x = g x) -> forallb f l = forallb g l.
Proof.
  induction l as [|a l IH]; intros H; simpl; [reflexivity|].
  rewrite (H a (or_introl eq_refl)), IH; [reflexivity|].
  intros x Hx. apply H. right. exact Hx.
Qed.

Lemma isAssignable_token_sized n : forall from tok u,
  size from < n ->
  isLegal (isAssignable from (TokenType tok (Some u))) = isLegal (isAssignable from u).
Proof.
  induction n as [|n IH]; intros from tok u Hn; [lia|].
  destruct (isInvalid (UnwrapType from)) eqn:Hi.
  { rewrite !(isAssignable_from_invalid from _ Hi). reflexivity. }
  pose proof (size_UnwrapType from) as Hs.
  rewrite (isAssignable_unwrap_from from (TokenType tok (Some u))).
  rewrite (isAssignable_unwrap_from from u).
  destruct (UnwrapType from) as [p| | | | | |xs| | | |] eqn:Ef.
  7: { rewrite !union_source_legal. apply forallb_ext_In.
       intros x Hx. apply IH. apply size_elem in Hx. simpl in Hs. lia. }
  all: rewrite (isAssignable_unfold _ (TokenType tok (Some u)));
    unfold isAssignable_body; simpl; try discriminate Hi;
    try (exfalso; pose proof (UnwrapType_not_wrapper from) as Hw; rewrite Ef in Hw; exact Hw);
    reflexivity.
Qed.

(** A token type with an underlying type accepts exactly what the
    underlying type accepts. *)
Theorem isAssignable_token_underlying (from : schemaType) (tok : string) (u : schemaType) :
  isLegal (isAssignable from (TokenType tok (Some u))) = isLegal (isAssignable from u).
Proof. apply (isAssignable_token_sized (S (size from))). lia. Qed.

(** Optional and input wrappers play no part in assignability, on either
    side: an optional value is accepted where a required one is asked for. *)
Theorem isAssignable_ignores_wrappers (a b : schemaType) :
  isAssignable (OptionalType a) b = isAssignable a b /\
  isAssignable (InputType a) b = isAssignable a b /\
  isAssignable a (OptionalType b) = isAssignable a b /\
  isAssignable a (InputType b) = isAssignable a b.
Proof.
  repeat split.
  - rewrite isAssignable_unwrap_from, (isAssignable_unwrap_from a b). reflexivity.
  - rewrite isAssignable_unwrap_from, (isAssignable_unwrap_from a b). reflexivity.
  - rewrite isAssignable_unwrap_to, (isAssignable_unwrap_to a b). reflexivity.
  - rewrite isAssignable_unwrap_to, (isAssignable_unwrap_to a b). reflexivity.
Qed.

End AssignFacts.

(** ** How types and reasons are shown *)

Module DisplayFacts.

Lemma map_ext_In' {A B} (f g : A -> B) (l : list A) :
  (forall x, In x l -> f x = g x) -> map f l = map g l.
Proof.
  induction l as [|a l IH]; intros H; simpl; [reflexivity|].
  rewrite (H a (or_introl eq_refl)), IH; [reflexivity|].
  intros x Hx. apply H. right. exact Hx.
Qed.

Lemma displayType_fuel_stable : forall n m t,
  size t < n -> size t < m -> displayType_fuel n t = displayType_fuel m t.
Proof.
  induction n as [|n IH]; intros m t Hn Hm; [lia|].
  destruct m as [|m]; [lia|]. simpl.
  pose proof (size_UnwrapType t) as Hs.
  destruct (UnwrapType t) as [| | | |e|e|ts|tok ps| | |]; simpl in Hs; try reflexivity.
  - rewrite (IH m e); [reflexivity|lia|lia].
  - rewrite (IH m e); [reflexivity|lia|lia].
  - rewrite (map_ext_In' (displayType_fuel n) (displayType_fuel m) ts); [reflexivity|].
    intros x Hx. apply size_elem in Hx. apply IH; lia.
  - destruct (negb (String.prefix adhockObjectToken tok)); [reflexivity|].
    rewrite (map_ext_In'
               (fun prop => Name prop +:+ ": " +:+ displayType_fuel n (PType prop))
               (fun prop => Name prop +:+ ": " +:+ displayType_fuel m (PType prop)) ps);
      [reflexivity|].
    intros p Hp. apply size_prop in Hp. rewrite (IH m (PType p)); [reflexivity|lia|lia].
Qed.

Lemma displayType_fuel_enough n t :
  size t < n -> displayType_fuel n t = displayType t.
Proof. intros H. apply displayType_fuel_stable; [exact H | lia]. Qed.

Lemma displayType_UnwrapType t : displayType (UnwrapType t) = displayType t.
Proof.
  unfold displayType. pose proof (size_UnwrapType t) as Hs.
  rewrite (displayType_fuel_stable (S (size (UnwrapType t))) (S (size t))) by lia.
  simpl. rewrite UnwrapType_idem. reflexivity.
Qed.

(** X8: [displayType] shows a type without its optional and input wrappers, an
    array as [List<...>], a map as [Map<...>] and a union as [Union<...>] of
    what it shows for the components, and an object by its token unless the
    token is an ad hoc one, in which case it shows the properties. *)
Theorem displayType_compositional (t : schemaType) (ts : list schemaType)
  (tok : string) (props : list (Property schemaType)) :
  displayType (OptionalType t) = displayType t /\
  displayType (InputType t) = displayType t /\
  displayType (ArrayType t) = "List<" +:+ displayType t +:+ ">" /\
  displayType (MapType t) = "Map<" +:+ displayType t +:+ ">" /\
  displayType (UnionType ts)
    = "Union<" +:+ String.concat ", " (map displayType ts) +:+ ">" /\
  displayType (ObjectType tok props)
    = if String.prefix adhockObjectToken tok
      then "{" +:+ String.concat ", "
             (map (fun prop => Name prop +:+ ": " +:+ displayType (PType prop)) props)
           +:+ "}"
      else tok.
Proof.
  split; [rewrite <- (displayType_UnwrapType (OptionalType t)),
            <- (displayType_UnwrapType t); reflexivity|].
  split; [rewrite <- (displayType_UnwrapType (InputType t)),
            <- (displayType_UnwrapType t); reflexivity|].
  split; [reflexivity|].
  split; [reflexivity|].
  split.
  - change (displayType (UnionType ts)) with
      ("Union<" +:+ String.concat ", "
         (map (displayType_fuel (S (list_sum (map size ts)))) ts) +:+ ">").
    rewrite (map_ext_In' (displayType_fuel (S (list_sum (map size ts)))) displayType ts);
      [reflexivity|].
    intros x Hx. apply size_elem in Hx. apply displayType_fuel_enough. lia.
  - change (displayType (ObjectType tok props)) with
      (if negb (String.prefix adhockObjectToken tok) then tok
       else "{" +:+ String.concat ", "
              (map (fun prop => Name prop +:+ ": " +:+
                      displayType_fuel
                        (S (list_sum (map (fun p => S (size (PType p))) props)))
                        (PType prop)) props)
            +:+ "}").
    destruct (String.prefix adhockObjectToken tok); simpl negb; cbv iota; [|reflexivity].
    rewrite (map_ext_In'
               (fun prop => Name prop +:+ ": " +:+
                  displayType_fuel (S (list_sum (map (fun p => S (size (PType p))) props)))
                    (PType prop))
               (fun prop => Name prop +:+ ": " +:+ displayType (PType prop)) props);
      [reflexivity|].
    intros p Hp. apply size_prop in Hp. rewrite displayType_fuel_enough by lia. reflexivity.
Qed.

Import GoStrings Replace.

Lemma hasByte_append b s t : hasByte b (s +:+ t) = hasByte b s || hasByte b t.
Proof.
  unfold hasByte. induction s as [|c s IH]; simpl; [reflexivity|].
  change ((String c s) +:+ t) with (String c (s +:+ t)).
  simpl. rewrite IH. apply orb_assoc.
Qed.

Lemma replaceOn_single_hasByte a new s :
  hasByte a new = false -> hasByte a (replaceOn a "" new s) = false.
Proof.
  intros Hn. induction s as [|c s IH]; simp replaceOn; [reflexivity|].
  simpl. destruct (ascii_dec a c) as [E|E].
  - assert (String.prefix "" s = true) as -> by (destruct s; reflexivity).
    simpl. rewrite hasByte_append, Hn, IH. reflexivity.
  - simpl. unfold hasByte in *. simpl.
    rewrite (proj2 (Ascii.eqb_neq a c) E), IH. reflexivity.
Qed.

(** X9: The one-line form of a reason, [Error()], holds no line feed, however
    deep the chain of reasons is and whatever the reasons say. *)
Theorem notAssignable_Error_single_line (n : notAssignable) :
  hasByte (ascii_of_nat 10) (notAssignable_Error n) = false.
Proof.
  unfold notAssignable_Error, ReplaceAll. simpl.
  apply replaceOn_single_hasByte. reflexivity.
Qed.

End DisplayFacts.

(** ** Property access, one accessor at a time *)

Module AccessSteps.

Section Steps.

Variable Quote : string -> string.
Variable MessageWithDetail :
  NonExistantFieldFormatter -> string -> string -> string * string.
Variable mapKeys : list schemaType -> list schemaType.

Abbreviation tbody := (typePropertyAccess_body Quote MessageWithDetail mapKeys).
Abbreviation taccess := (typePropertyAccess Quote MessageWithDetail mapKeys).

(** What one pass does at a root that is no union: it stops at an invalid
    root, or calls [setError] once and returns its result, or goes on at a
    type strictly inside the root. *)
Lemma body_step rec setError root name accessor rest :
  isUnion root = false ->
  (exists d, tbody rec setError root name (accessor :: rest) = (InvalidType d, [])) \/
  (exists summary detail,
     tbody rec setError root name (accessor :: rest) = callSetError setError summary detail) \/
  (exists t name',
     size t < size root /\
     tbody rec setError root name (accessor :: rest) = rec setError t name' rest).
Proof.
  intros Hu. unfold typePropertyAccess_body.
  assert (forall props,
            list_sum (map (fun p => S (size (PType p))) props) < size root ->
            forall nm,
            (exists summary detail,
               accessProperty MessageWithDetail rec setError (propertyTypes props) name nm rest
               = callSetError setError summary detail) \/
            (exists t name',
               size t < size root /\
               accessProperty MessageWithDetail rec setError (propertyTypes props) name nm rest
               = rec setError t name' rest)) as Hobj.
  { intros props Hs nm. unfold accessProperty.
    destruct (propertyTypes props !! nm) as [t|] eqn:E.
    - right. exists t, (name +:+ "." +:+ nm). split; [|reflexivity].
      apply propertyTypes_lookup in E as (p & Hin & _ & <-).
      apply size_prop in Hin. lia.
    - left. destruct (MessageWithDetail _ nm nm) as [summary detail].
      exists summary, detail. reflexivity. }
  assert (forall props,
            list_sum (map (fun p => S (size (PType p))) props) < size root ->
            forall nm,
            (exists summary detail,
               accessProperty MessageWithDetail rec setError
                 (<["urn" := StringType]> (<["id" := StringType]> (propertyTypes props)))
                 name nm rest
               = callSetError setError summary detail) \/
            (exists t name',
               size t < size root /\
               accessProperty MessageWithDetail rec setError
                 (<["urn" := StringType]> (<["id" := StringType]> (propertyTypes props)))
                 name nm rest
               = rec setError t name' rest)) as Hres.
  { intros props Hs nm. unfold accessProperty.
    destruct (_ !! nm) as [t|] eqn:E.
    - right. exists t, (name +:+ "." +:+ nm). split; [|reflexivity].
      destruct (decide ("urn" = nm)) as [<-|Hn1].
      + rewrite lookup_insert_eq in E. injection E as <-. simpl. lia.
      + rewrite lookup_insert_ne in E by exact Hn1.
        destruct (decide ("id" = nm)) as [<-|Hn2].
        * rewrite lookup_insert_eq in E. injection E as <-. simpl. lia.
        * rewrite lookup_insert_ne in E by exact Hn2.
          apply propertyTypes_lookup in E as (p & Hin & _ & <-).
          apply size_prop in Hin. lia.
    - left. destruct (MessageWithDetail _ nm nm) as [summary detail].
      exists summary, detail. reflexivity. }
  pose proof (size_UnwrapType root) as Hsz.
  assert (Hcases :
    match accessor with
    | PropertyName nm =>
        match UnwrapType root with
        | ObjectType _ props =>
            accessProperty MessageWithDetail rec setError (propertyTypes props) name nm rest
        | ResourceType _ props =>
            accessProperty MessageWithDetail rec setError
              (<["urn" := StringType]> (<["id" := StringType]> (propertyTypes props)))
              name nm rest
        | InvalidType d => (InvalidType d, [])
        | unwrapped =>
            callSetError setError
              ("cannot access a property on '" +:+ name +:+ "' (type "
               +:+ displayType unwrapped +:+ ")")
              "Property access is only allowed on Resources and Objects"
        end
    | PropertySubscript index =>
        match UnwrapType root with
        | ArrayType elementType =>
            match index with
            | IndexString _ =>
                callSetError setError
                  ("Cannot index" +:+ " via string" +:+ " into '" +:+ name +:+ "' (type "
                   +:+ displayType (UnwrapType root) +:+ ")")
                  "Index via string is only allowed on Maps"
            | IndexInt i =>
                rec setError elementType (name +:+ "[" +:+ formatInt i +:+ "]") rest
            end
        | MapType elementType =>
            match index with
            | IndexInt _ =>
                callSetError setError
                  ("Cannot index" +:+ " via number" +:+ " into '" +:+ name +:+ "' (type "
                   +:+ displayType (UnwrapType root) +:+ ")")
                  "Index via number is only allowed on Arrays"
            | IndexString s =>
                rec setError elementType (name +:+ "[" +:+ Quote s +:+ "]") rest
            end
        | InvalidType _ => (InvalidType [], [])
        | _ =>
            callSetError setError
              ("Cannot index" +:+ "" +:+ " into '" +:+ name +:+ "' (type "
               +:+ displayType (UnwrapType root) +:+ ")")
              "Index property access is only allowed on Maps and Lists"
        end
    end = tbody rec setError root name (accessor :: rest)).
  { unfold typePropertyAccess_body. destruct root; try reflexivity. discriminate Hu. }
  unfold typePropertyAccess_body in Hcases. rewrite <- Hcases. clear Hcases.
  destruct accessor as [nm|idx];
    destruct (UnwrapType root) as [p'|d'|e'|e'|e'|e'|ts'|tok' ps'|tok' ps'|tok' e'|tok' u'] eqn:Eu;
    simpl in Hsz.
  all: try (right; left; eexists; eexists; reflexivity).
  all: try (left; eexists; reflexivity).
  all: try (right; first [apply Hobj | apply Hres]; lia).
  all: destruct idx.
  all: try (right; left; eexists; eexists; reflexivity).
  all: right; right; eexists; eexists; (split; [|reflexivity]); lia.
Qed.

Lemma union_step rec setError els name accessor rest :
  (exists summary detail,
     tbody rec setError (UnionType els) name (accessor :: rest)
     = (InvalidType [], [(summary, detail)])) \/
  (exists t, tbody rec setError (UnionType els) name (accessor :: rest) = (t, [])).
Proof.
  unfold typePropertyAccess_body.
  destruct (unionBranches rec els name (accessor :: rest)) as [possibilities errs].
  destruct errs as [|err errs].
  - right. destruct (mapKeys possibilities) as [|t [|t' arr]];
      eexists; reflexivity.
  - left. eexists. eexists. reflexivity.
Qed.

Lemma reports_once_sized n : forall setError root name accessors,
  size root < n ->
  List.length (snd (taccess setError root name accessors)) <= 1.
Proof.
  induction n as [|n IH]; intros setError root name accessors Hn; [lia|].
  rewrite typePropertyAccess_unfold.
  destruct accessors as [|accessor rest]; [simpl; lia|].
  destruct (isUnion root) eqn:Hu.
  - destruct root as [| | | | | |els| | | |]; try discriminate Hu.
    destruct (union_step taccess setError els name accessor rest)
      as [(summary & detail & ->)|(t & ->)]; simpl; lia.
  - destruct (body_step taccess setError root name accessor rest Hu)
      as [(d & ->)|[(summary & detail & ->)|(t & name' & Hs & ->)]]; simpl; try lia.
    apply IH. lia.
Qed.

(** X10: However many accessors there are and however the branches of unions
    fail, [typePropertyAccess] calls the [setError] it is given at most
    once. *)
Theorem typePropertyAccess_reports_once setError root name accessors :
  List.length
    (snd (typePropertyAccess Quote MessageWithDetail mapKeys setError root name accessors)) <= 1.
Proof. apply (reports_once_sized (S (size root))). lia. Qed.

Lemma error_invalid_sized n : forall setError root name accessors,
  size root < n ->
  (forall summary detail, isInvalid (setError summary detail) = true) ->
  snd (taccess setError root name accessors) <> [] ->
  isInvalid (fst (taccess setError root name accessors)) = true.
Proof.
  induction n as [|n IH]; intros setError root name accessors Hn Hset; [lia|].
  rewrite typePropertyAccess_unfold.
  destruct accessors as [|accessor rest]; [simpl; congruence|].
  destruct (isUnion root) eqn:Hu.
  - destruct root as [| | | | | |els| | | |]; try discriminate Hu.
    destruct (union_step taccess setError els name accessor rest)
      as [(summary & detail & ->)|(t & ->)]; simpl; congruence.
  - destruct (body_step taccess setError root name accessor rest Hu)
      as [(d & ->)|[(summary & detail & ->)|(t & name' & Hs & ->)]].
    + simpl. congruence.
    + intros _. apply Hset.
    + apply IH; [lia | exact Hset].
Qed.

(** X11: With a [setError] that returns invalid types, as the one of [typeSymbol]
    does, a property access that reports an error has the invalid type. *)
Theorem typePropertyAccess_error_invalid setError root name accessors :
  (forall summary detail, isInvalid (setError summary detail) = true) ->
  snd (typePropertyAccess Quote MessageWithDetail mapKeys setError root name accessors)
    <> [] ->
  isInvalid
    (fst (typePropertyAccess Quote MessageWithDetail mapKeys setError root name accessors))
  = true.
Proof. apply (error_invalid_sized (S (size root))). lia. Qed.

Lemma taccess_nil setError root name : taccess setError root name [] = (root, []).
Proof. rewrite typePropertyAccess_unfold. reflexivity. Qed.

(** X12: On a resource the names [id] and [urn] are strings, whatever the
    properties of the resource say about those names: the access goes on at
    the string type. *)
Theorem typePropertyAccess_resource_id_urn setError tok props name rest :
  typePropertyAccess Quote MessageWithDetail mapKeys setError (ResourceType tok props) name
    (PropertyName "id" :: rest)
    = typePropertyAccess Quote MessageWithDetail mapKeys setError StringType
        (name +:+ ".id") rest /\
  typePropertyAccess Quote MessageWithDetail mapKeys setError (ResourceType tok props) name
    (PropertyName "urn" :: rest)
    = typePropertyAccess Quote MessageWithDetail mapKeys setError StringType
        (name +:+ ".urn") rest.
Proof.
  split; rewrite typePropertyAccess_unfold; unfold typePropertyAccess_body; simpl;
    unfold accessProperty.
  - rewrite lookup_insert_ne by discriminate. rewrite lookup_insert_eq. reflexivity.
  - rewrite lookup_insert_eq. reflexivity.
Qed.

(** X13: A single subscript on a root that is neither invalid nor a union is
    accepted exactly when a number indexes an array or a string indexes a
    map, and then yields the element type; a string on an array and a number
    on a map are reported. *)
Theorem typePropertyAccess_subscript setError root name index :
  isUnion root = false ->
  isInvalid (UnwrapType root) = false ->
  let r :=
    typePropertyAccess Quote MessageWithDetail mapKeys setError root name
      [PropertySubscript index] in
  match UnwrapType root, index with
  | ArrayType elem, IndexInt _ => r = (elem, [])
  | MapType elem, IndexString _ => r = (elem, [])
  | _, _ => List.length (snd r) = 1
  end.
Proof.
  intros Hu Hi r. subst r.
  rewrite typePropertyAccess_unfold. unfold typePropertyAccess_body.
  destruct root as [p|d|e|e|e|e|ts|tok ps|tok ps|tok e|tok u];
    try discriminate Hu; simpl in *; try discriminate Hi;
    try (destruct index; simpl; rewrite ?taccess_nil; reflexivity).
  all: destruct (UnwrapType e); try discriminate Hi; destruct index; simpl;
    rewrite ?taccess_nil; reflexivity.
Qed.

(** X14: The branches of a union are tried only when the root itself is the
    union: behind an optional or input wrapper a union supports no accessor
    at all, and the access is reported whatever the alternatives are. *)
Theorem typePropertyAccess_wrapped_union setError els name accessor rest :
  List.length
    (snd (typePropertyAccess Quote MessageWithDetail mapKeys setError
            (OptionalType (UnionType els)) name (accessor :: rest)))
    = 1 /\
  List.length
    (snd (typePropertyAccess Quote MessageWithDetail mapKeys setError
            (InputType (UnionType els)) name (accessor :: rest)))
    = 1.
Proof.
  split; rewrite typePropertyAccess_unfold; unfold typePropertyAccess_body; simpl;
    destruct accessor; reflexivity.
Qed.

End Steps.

Lemma typePropertyAccess_error_invalid_witness :
  (forall summary detail : string, isInvalid ((fun _ _ => InvalidType []) summary detail) = true) /\
  snd (typePropertyAccess' (fun _ _ => InvalidType []) StringType "cfg" [PropertyName "x"]) <> [] /\
  isInvalid (fst (typePropertyAccess' (fun _ _ => InvalidType []) StringType "cfg"
                    [PropertyName "x"])) = true.
Proof.
  split; [reflexivity|]. split; [vm_compute; discriminate|].
  apply (typePropertyAccess_error_invalid quotePlain plainMessageWithDetail distinctKeys
           (fun _ _ => InvalidType []) StringType "cfg" [PropertyName "x"]).
  - reflexivity.
  - vm_compute. discriminate.
Defined.

Lemma typePropertyAccess_subscript_witness :
  isUnion (OptionalType (ArrayType IntType)) = false /\
  isInvalid (UnwrapType (OptionalType (ArrayType IntType))) = false /\
  typePropertyAccess' (fun _ _ => InvalidType []) (OptionalType (ArrayType IntType)) "xs"
    [PropertySubscript (IndexInt 0)] = (IntType, []).
Proof.
  split; [reflexivity|]. split; [reflexivity|].
  exact (typePropertyAccess_subscript quotePlain plainMessageWithDetail distinctKeys
           (fun _ _ => InvalidType []) (OptionalType (ArrayType IntType)) "xs" (IndexInt 0)
           eq_refl eq_refl).
Defined.

End AccessSteps.

(** ** What a visit writes and reports *)

Module FrameFacts.
Import Packages Checker Frame.

Lemma frame_refl written st : frame written st st.
Proof.
  repeat split; try reflexivity. exists []. symmetry. apply app_nil_r.
Qed.

Lemma frame_trans written st1 st2 st3 :
  frame written st1 st2 -> frame written st2 st3 -> frame written st1 st3.
Proof.
  intros (H1 & H2 & H3 & H4 & H5 & (a1 & H6) & H7)
         (K1 & K2 & K3 & K4 & K5 & (a2 & K6) & K7).
  repeat split; try congruence.
  - exists (a1 ++ a2). rewrite K6, H6. symmetry. apply app_assoc.
  - intros i Hi. rewrite K7, H7 by exact Hi. reflexivity.
Qed.

Lemma frame_weaken w1 w2 st st' :
  (forall i, In i w1 -> In i w2) -> frame w1 st st' -> frame w2 st st'.
Proof.
  intros Hw (H1 & H2 & H3 & H4 & H5 & H6 & H7).
  repeat split; try assumption.
  intros i Hi. apply H7. intros Hin. apply Hi, Hw, Hin.
Qed.

Lemma frame_addDiag written d st : frame written st (addDiag d st).
Proof. repeat split; try reflexivity. exists [d]. reflexivity. Qed.

Lemma frame_setType written e typ st :
  In (idOf e) written -> frame written st (setType e typ st).
Proof.
  intros Hin. repeat split; try reflexivity.
  - exists []. symmetry. apply app_nil_r.
  - intros i Hi. simpl. apply lookup_insert_ne. intros E. apply Hi. rewrite <- E. exact Hin.
Qed.

Lemma frame_assertTypeAssignable written loc from to st st' :
  assertTypeAssignable loc from to st = Done st' -> frame written st st'.
Proof.
  unfold assertTypeAssignable.
  destruct from as [from|].
  - destruct (isAssignable from to) as [r|].
    + destruct (IsInternal r); intros [= <-]; apply frame_addDiag.
    + intros [= <-]. apply frame_refl.
  - destruct (isInvalid (UnwrapType to)); [|discriminate].
    intros [= <-]. apply frame_refl.
Qed.

Lemma frame_fold_addDiag written rng (calls : list (string * string)) st :
  frame written st
    (fold_left (fun st call => addDiag (syntaxError rng (fst call) (snd call)) st) calls st).
Proof.
  revert st. induction calls as [|c calls IH]; intros st; simpl.
  - apply frame_refl.
  - eapply frame_trans; [apply frame_addDiag | apply IH].
Qed.

Section Visits.

Variable Quote : string -> string.
Variable MessageWithDetail :
  NonExistantFieldFormatter -> string -> string -> string * string.
Variable mapKeys : list schemaType -> list schemaType.
Variable ToLower : string -> string.
Variable pkgLoader : PackageLoader.

Lemma frame_typeCallArgs t fmtr inputs entries : forall written st st',
  (forall e, In e (map snd entries) -> In (idOf e) written) ->
  typeCallArgs MessageWithDetail t fmtr inputs entries st = Done st' ->
  frame written st st'.
Proof.
  induction entries as [|[key value] entries IH]; intros written st st' Hw; simpl.
  - intros [= <-]. apply frame_refl.
  - destruct (keyValue key) as [k|]; [|discriminate].
    assert (forall e, In e (map snd entries) -> In (idOf e) written) as Hw'
      by (intros e He; apply Hw; right; exact He).
    destruct (inputs !! k) as [typ|].
    + intros H. eapply frame_trans; [|exact (IH written _ _ Hw' H)].
      apply frame_setType. apply Hw. left. reflexivity.
    + destruct (MessageWithDetail fmtr k k) as [summary detail].
      intros H. eapply frame_trans; [|exact (IH written _ _ Hw' H)].
      apply frame_addDiag.
Qed.

(** X15: A visit that returns has touched nothing of the cache but the types of
    expressions, and of those only the type of the visited expression and,
    for an invoke, of the values of its call arguments; the diagnostics
    reported before are all still there, in order. *)
Theorem typeExpr_frame (t : Expr) (st st' : checkerState) (b : bool) :
  typeExpr Quote MessageWithDetail mapKeys ToLower pkgLoader t st = Done (b, st') ->
  frame (idOf t :: map idOf (callArgValues t)) st st'.
Proof.
  set (written := idOf t :: map idOf (callArgValues t)).
  assert (In (idOf t) written) as Hself by (left; reflexivity).
  assert (forall typ s, frame written s (setType t typ s)) as Hset
    by (intros typ s; apply frame_setType, Hself).
  destruct t as [n|n v|n l|n v|n parts|n accessors|n elements|n entries|n v|n d vs
                |n d src|n idx vs|n v|n token callArgs ret|n kind args];
    simpl typeExpr.
  all: try (intros [= <- <-]; apply Hset).
  - (* symbol *)
    unfold typeSymbol.
    destruct (match configuration (cache st) !! RootName accessors with
              | Some root => root
              | None => _
              end) as [root|].
    + destruct (typePropertyAccess _ _ _ _ root _ _) as [result calls].
      intros [= <- <-].
      eapply frame_trans; [apply frame_fold_addDiag | apply Hset].
    + destruct (tail accessors); [|discriminate].
      intros [= <- <-]. apply Hset.
  - (* list *)
    destruct (allTyped _); [|discriminate]. intros [= <- <-]. apply Hset.
  - (* object *)
    destruct (entryKeys entries); [|discriminate].
    destruct (allTyped _); [|discriminate]. intros [= <- <-]. apply Hset.
  - (* join *)
    destruct (assertTypeAssignable _ _ _ st) as [st1|] eqn:E1; [|discriminate].
    intros [= <- <-].
    eapply frame_trans; [exact (frame_assertTypeAssignable _ _ _ _ _ _ E1) | apply Hset].
  - (* split *)
    destruct (assertTypeAssignable _ _ _ st) as [st1|] eqn:E1; [|discriminate].
    destruct (assertTypeAssignable _ _ _ st1) as [st2|] eqn:E2; [|discriminate].
    intros [= <- <-].
    eapply frame_trans; [exact (frame_assertTypeAssignable _ _ _ _ _ _ E1)|].
    eapply frame_trans; [exact (frame_assertTypeAssignable _ _ _ _ _ _ E2) | apply Hset].
  - (* select *)
    destruct (assertTypeAssignable _ _ _ st) as [st1|] eqn:E1; [|discriminate].
    destruct (assertTypeAssignable _ _ _ st1) as [st2|] eqn:E2; [|discriminate].
    assert (frame written st st2) as H12.
    { eapply frame_trans; [exact (frame_assertTypeAssignable _ _ _ _ _ _ E1)|].
      exact (frame_assertTypeAssignable _ _ _ _ _ _ E2). }
    destruct (exprs (cache st) !! idOf vs) as [valuesType|].
    + destruct (option_map UnwrapType valuesType) as [[]|]; intros [= <- <-];
        (eapply frame_trans; [exact H12 | apply Hset]).
    + intros [= <- <-]. eapply frame_trans; [exact H12 | apply Hset].
  - (* invoke *)
    unfold typeInvoke.
    destruct (ResolveFunction Quote pkgLoader token) as [[pkg functionName]|err].
    2: { intros [= <- <-]. apply frame_addDiag. }
    destruct (typeCallArgs _ _ _ _ _ st) as [st1|] eqn:E1; [|discriminate].
    assert (frame written st st1) as H1.
    { apply (frame_typeCallArgs _ _ _ _ written st st1) in E1; [exact E1|].
      intros e He. right. subst written. simpl.
      destruct callArgs as [entries|]; simpl in *; [|contradiction].
      apply in_map. exact He. }
    destruct ret as [[retNode retValue]|].
    + destruct (Outputs (FunctionTypeHint pkg functionName)) as [[tok props]|].
      * destruct (findReturn ToLower retValue props None) as [returnType|].
        -- intros [= <- <-]. eapply frame_trans; [exact H1 | apply Hset].
        -- destruct (MessageWithDetail _ retValue retValue) as [summary detail].
           intros [= <- <-]. eapply frame_trans; [exact H1 | apply frame_addDiag].
      * simpl. destruct (MessageWithDetail _ retValue retValue) as [summary detail].
        intros [= <- <-]. eapply frame_trans; [exact H1 | apply frame_addDiag].
    + intros [= <- <-]. eapply frame_trans; [exact H1 | apply Hset].
  - (* the other built-ins *)
    destruct kind; intros [= <- <-]; apply Hset.
Qed.

(** X16: Every visit of an expression that is no invoke, if it returns, returns
    true and leaves an entry for the expression in the cache. *)
Theorem typeExpr_records_entry (t : Expr) (st st' : checkerState) (b : bool) :
  isInvoke t = false ->
  typeExpr Quote MessageWithDetail mapKeys ToLower pkgLoader t st = Done (b, st') ->
  b = true /\ is_Some (exprs (cache st') !! idOf t).
Proof.
  intros Hinv.
  assert (forall typ s, is_Some (exprs (cache (setType t typ s)) !! idOf t)) as Hset.
  { intros typ s. simpl. rewrite lookup_insert_eq. eexists. reflexivity. }
  destruct t as [n|n v|n l|n v|n parts|n accessors|n elements|n entries|n v|n d vs
                |n d src|n idx vs|n v|n token callArgs ret|n kind args];
    try discriminate Hinv; simpl typeExpr.
  all: try (intros [= <- <-]; split; [reflexivity | apply Hset]).
  - unfold typeSymbol.
    destruct (match configuration (cache st) !! RootName accessors with
              | Some root => root
              | None => _
              end) as [root|].
    + destruct (typePropertyAccess _ _ _ _ root _ _) as [result calls].
      intros [= <- <-]. split; [reflexivity | apply Hset].
    + destruct (tail accessors); [|discriminate].
      intros [= <- <-]. split; [reflexivity | apply Hset].
  - destruct (allTyped _); [|discriminate].
    intros [= <- <-]. split; [reflexivity | apply Hset].
  - destruct (entryKeys entries); [|discriminate].
    destruct (allTyped _); [|discriminate].
    intros [= <- <-]. split; [reflexivity | apply Hset].
  - destruct (assertTypeAssignable _ _ _ st) as [st1|]; [|discriminate].
    intros [= <- <-]. split; [reflexivity | apply Hset].
  - destruct (assertTypeAssignable _ _ _ st) as [st1|]; [|discriminate].
    destruct (assertTypeAssignable _ _ _ st1) as [st2|]; [|discriminate].
    intros [= <- <-]. split; [reflexivity | apply Hset].
  - destruct (assertTypeAssignable _ _ _ st) as [st1|]; [|discriminate].
    destruct (assertTypeAssignable _ _ _ st1) as [st2|]; [|discriminate].
    destruct (exprs (cache st) !! idOf vs) as [valuesType|].
    + destruct (option_map UnwrapType valuesType) as [[]|]; intros [= <- <-];
        (split; [reflexivity | apply Hset]).
    + intros [= <- <-]. split; [reflexivity | apply Hset].
  - destruct kind; intros [= <- <-]; (split; [reflexivity | apply Hset]).
Qed.

Lemma typeCallArgs_declared t fmtr inputs entries : forall st,
  (forall entry, In entry entries ->
     exists k typ, keyValue (fst entry) = Some k /\ inputs !! k = Some typ) ->
  exists st', typeCallArgs MessageWithDetail t fmtr inputs entries st = Done st' /\
              diags st' = diags st.
Proof.
  induction entries as [|[key value] entries IH]; intros st H; simpl.
  - exists st. split; reflexivity.
  - destruct (H (key, value) (or_introl eq_refl)) as (k & typ & Hk & Hi).
    simpl in Hk. rewrite Hk, Hi.
    destruct (IH (setType value (Some typ) st)) as (st' & E & Hd).
    { intros entry He. apply H. right. exact He. }
    exists st'. split; [exact E | exact Hd].
Qed.

(** X17: The call arguments of an invoke that all name declared inputs add no
    diagnostic, whatever types their values had been given: the types of
    the values are never compared with the types of the inputs, and the
    invoke reports exactly what it reports without arguments, which is
    nothing when it has no [return]. *)
Theorem typeInvoke_arguments_unchecked (t : Expr) (token : string)
  (args : list (Expr * Expr)) (ret : option (exprNode * string)) (st : checkerState)
  (pkg : Package) (fn : string) :
  ResolveFunction Quote pkgLoader token = Ok (pkg, fn) ->
  (forall entry, In entry args ->
     exists k typ, keyValue (fst entry) = Some k /\
       propertyTypes (default [] (Inputs (FunctionTypeHint pkg fn))) !! k = Some typ) ->
  exists st' st0,
    typeInvoke Quote MessageWithDetail ToLower pkgLoader t token (Some args) ret st
      = Done (true, st') /\
    typeInvoke Quote MessageWithDetail ToLower pkgLoader t token None ret st
      = Done (true, st0) /\
    diags st' = diags st0 /\
    (ret = None -> diags st' = diags st).
Proof.
  intros Hres Hargs. unfold typeInvoke. rewrite Hres. simpl default.
  destruct (typeCallArgs_declared t
              (mkFormatter ("Invoke " +:+ fn)
                 (map Name (default [] (Inputs (FunctionTypeHint pkg fn)))) 5 false)
              (propertyTypes (default [] (Inputs (FunctionTypeHint pkg fn))))
              args st Hargs) as (st1 & E & Hd).
  rewrite E. simpl typeCallArgs.
  destruct ret as [[retNode retValue]|].
  - destruct (Outputs (FunctionTypeHint pkg fn)) as [[tok props]|].
    + destruct (findReturn ToLower retValue props None) as [returnType|].
      * eexists. eexists. split; [reflexivity|]. split; [reflexivity|].
        split; [exact Hd | discriminate].
      * destruct (MessageWithDetail _ retValue retValue) as [summary detail].
        eexists. eexists. split; [reflexivity|]. split; [reflexivity|].
        split; [simpl; rewrite Hd; reflexivity | discriminate].
    + simpl. destruct (MessageWithDetail _ retValue retValue) as [summary detail].
      eexists. eexists. split; [reflexivity|]. split; [reflexivity|].
      split; [simpl; rewrite Hd; reflexivity | discriminate].
  - eexists. eexists. split; [reflexivity|]. split; [reflexivity|].
    split; [exact Hd | intros _; exact Hd].
Qed.

Lemma find_snoc {A} (p : A -> bool) (l : list A) (a : A) :
  find p (l ++ [a]) = match find p l with Some x => Some x | None => find p [a] end.
Proof.
  induction l as [|b l IH]; simpl; [reflexivity|].
  destruct (p b); [reflexivity | exact IH].
Qed.

Lemma findReturn_last ret outputs : forall found,
  findReturn ToLower ret outputs found
  = match find (fun o => String.eqb (ToLower ret) (ToLower (Name o))) (rev outputs) with
    | Some o => Some (PType o)
    | None => found
    end.
Proof.
  induction outputs as [|o outputs IH]; intros found; simpl; [reflexivity|].
  rewrite find_snoc. simpl.
  destruct (String.eqb (ToLower ret) (ToLower (Name o))) eqn:E; rewrite IH;
    destruct (find _ (rev outputs)); reflexivity.
Qed.

(** X18: The [return] of an invoke is looked up among the outputs of the function
    by the lower-cased names, so without regard to letter case, and the last
    output that matches gives the type of the invoke; when none matches, one
    error is reported at the [return] and no type is recorded.  Either
    happens on the state the call arguments left. *)
Theorem typeInvoke_return_case_insensitive (t : Expr) (token : string)
  (callArgs : option (list (Expr * Expr))) (retNode : exprNode) (ret : string)
  (st st1 : checkerState) (pkg : Package) (fn : string)
  (tok : string) (props : list (Property schemaType)) :
  ResolveFunction Quote pkgLoader token = Ok (pkg, fn) ->
  Outputs (FunctionTypeHint pkg fn) = Some (tok, props) ->
  typeCallArgs MessageWithDetail t
    (mkFormatter ("Invoke " +:+ fn)
       (map Name (default [] (Inputs (FunctionTypeHint pkg fn)))) 5 false)
    (propertyTypes (default [] (Inputs (FunctionTypeHint pkg fn))))
    (default [] callArgs) st = Done st1 ->
  typeInvoke Quote MessageWithDetail ToLower pkgLoader t token callArgs
    (Some (retNode, ret)) st
  = Done (true,
          match find (fun o => String.eqb (ToLower ret) (ToLower (Name o))) (rev props) with
          | Some o => setType t (Some (PType o)) st1
          | None =>
              let '(summary, detail) :=
                MessageWithDetail (mkFormatter token (map Name props) 5 true) ret ret in
              addDiag (syntaxError (NodeRange retNode) summary detail) st1
          end).
Proof.
  intros Hres Hout Hargs. unfold typeInvoke. rewrite Hres. cbv zeta.
  rewrite Hargs. rewrite Hout.
  rewrite findReturn_last.
  destruct (find _ (rev props)); [reflexivity|].
  destruct (MessageWithDetail _ ret ret). reflexivity.
Qed.

Lemma access_invalid_root setError name rest :
  typePropertyAccess Quote MessageWithDetail mapKeys setError (InvalidType []) name rest
  = (InvalidType [], []).
Proof.
  rewrite typePropertyAccess_unfold. destruct rest as [|[nm|idx] rest]; reflexivity.
Qed.

(** X19: A symbol whose root names no resource, no variable and no configuration
    entry gets the invalid type, and nothing is reported for it, whatever
    accessors follow the root. *)
Theorem typeSymbol_unknown_root (t : Expr) (accessors : list PropertyAccessor)
  (st : checkerState) :
  resourceNames (cache st) !! RootName accessors = None ->
  variableNames (cache st) !! RootName accessors = None ->
  configuration (cache st) !! RootName accessors = None ->
  typeSymbol Quote MessageWithDetail mapKeys t accessors st
  = Done (true, setType t (Some (InvalidType [])) st).
Proof.
  intros Hr Hv Hc. unfold typeSymbol. unfold nilable in *. rewrite Hc, Hv, Hr.
  rewrite access_invalid_root. reflexivity.
Qed.

(** A configuration entry shadows a variable and a resource of the same
    name: the symbol is typed from the type of the configuration entry
    alone. *)
Theorem typeSymbol_configuration_first (t : Expr) (accessors : list PropertyAccessor)
  (st : checkerState) (root : schemaType) :
  configuration (cache st) !! RootName accessors = Some (Some root) ->
  typeSymbol Quote MessageWithDetail mapKeys t accessors st
  = let '(result, calls) :=
      typePropertyAccess Quote MessageWithDetail mapKeys
        (fun summary detail => InvalidType [syntaxError (rangeOf t) summary detail])
        root (RootName accessors) (tail accessors) in
    Done (true,
          setType t (Some result)
            (fold_left
               (fun st call => addDiag (syntaxError (rangeOf t) (fst call) (snd call)) st)
               calls st)).
Proof.
  intros Hc. unfold typeSymbol. unfold nilable in *. rewrite Hc. reflexivity.
Qed.

End Visits.

Lemma typeExpr_frame_witness :
  typeExpr quotePlain plainMessageWithDetail distinctKeys ToLowerASCII testLoader
    (StringExpr (mkNode 1 (at_ 0 3)) "a") (mkState emptyCache [])
  = Done (true, setType (StringExpr (mkNode 1 (at_ 0 3)) "a") (Some StringType)
                  (mkState emptyCache [])) /\
  frame [1] (mkState emptyCache [])
    (setType (StringExpr (mkNode 1 (at_ 0 3)) "a") (Some StringType) (mkState emptyCache [])).
Proof.
  split; [reflexivity|].
  exact (typeExpr_frame quotePlain plainMessageWithDetail distinctKeys ToLowerASCII testLoader
           (StringExpr (mkNode 1 (at_ 0 3)) "a") (mkState emptyCache []) _ true eq_refl).
Defined.

Lemma typeExpr_records_entry_witness :
  isInvoke (NullExpr (mkNode 1 (at_ 0 3))) = false /\
  true = true /\
  is_Some (exprs (cache (setType (NullExpr (mkNode 1 (at_ 0 3))) (Some (InvalidType []))
                           (mkState emptyCache []))) !! 1).
Proof.
  split; [reflexivity|].
  exact (typeExpr_records_entry quotePlain plainMessageWithDetail distinctKeys ToLowerASCII
           testLoader
           (NullExpr (mkNode 1 (at_ 0 3))) (mkState emptyCache []) _ true eq_refl eq_refl).
Defined.

Lemma typeInvoke_arguments_unchecked_witness :
  exists st' st0,
    typeInvoke quotePlain plainMessageWithDetail ToLowerASCII testLoader
      (InvokeExpr (mkNode 1 (at_ 0 9)) "test:fn"
         (Some [(StringExpr (mkNode 2 (at_ 1 2)) "yesArg", BooleanExpr (mkNode 3 (at_ 3 4)) true)])
         (Some (mkNode 4 (at_ 5 8), "missing")))
      "test:fn"
      (Some [(StringExpr (mkNode 2 (at_ 1 2)) "yesArg", BooleanExpr (mkNode 3 (at_ 3 4)) true)])
      (Some (mkNode 4 (at_ 5 8), "missing"))
      (mkState (mkTypeCache ∅ ∅ ∅ {[ 2 := Some StringType; 3 := Some BoolType ]} ∅ ∅) [])
    = Done (true, st') /\
    typeInvoke quotePlain plainMessageWithDetail ToLowerASCII testLoader
      (InvokeExpr (mkNode 1 (at_ 0 9)) "test:fn"
         (Some [(StringExpr (mkNode 2 (at_ 1 2)) "yesArg", BooleanExpr (mkNode 3 (at_ 3 4)) true)])
         (Some (mkNode 4 (at_ 5 8), "missing")))
      "test:fn" None (Some (mkNode 4 (at_ 5 8), "missing"))
      (mkState (mkTypeCache ∅ ∅ ∅ {[ 2 := Some StringType; 3 := Some BoolType ]} ∅ ∅) [])
    = Done (true, st0) /\
    diags st' = diags st0 /\
    (Some (mkNode 4 (at_ 5 8), "missing") = None ->
     diags st'
     = diags (mkState (mkTypeCache ∅ ∅ ∅ {[ 2 := Some StringType; 3 := Some BoolType ]} ∅ ∅)
                [])).
Proof.
  apply (typeInvoke_arguments_unchecked quotePlain plainMessageWithDetail ToLowerASCII
           testLoader _ "test:fn" _ _ _ testPackage "test:fn" eq_refl).
  intros entry [<-|[]]. exists "yesArg", StringType. split; reflexivity.
Defined.

Lemma typeInvoke_return_case_insensitive_witness :
  typeInvoke quotePlain plainMessageWithDetail ToLowerASCII testLoader
    (InvokeExpr (mkNode 1 (at_ 0 9)) "test:fn" None (Some (mkNode 2 (at_ 5 8), "OUTSTRING")))
    "test:fn" None (Some (mkNode 2 (at_ 5 8), "OUTSTRING")) (mkState emptyCache [])
  = Done (true,
          setType
            (InvokeExpr (mkNode 1 (at_ 0 9)) "test:fn" None
               (Some (mkNode 2 (at_ 5 8), "OUTSTRING")))
            (Some StringType) (mkState emptyCache [])).
Proof.
  exact (typeInvoke_return_case_insensitive quotePlain plainMessageWithDetail ToLowerASCII
           testLoader
           (InvokeExpr (mkNode 1 (at_ 0 9)) "test:fn" None
              (Some (mkNode 2 (at_ 5 8), "OUTSTRING")))
           "test:fn" None (mkNode 2 (at_ 5 8)) "OUTSTRING" (mkState emptyCache [])
           (mkState emptyCache [])
           testPackage "test:fn" "" [mkProperty "outString" StringType]
           eq_refl eq_refl eq_refl).
Defined.

Lemma typeSymbol_unknown_root_witness :
  typeSymbol quotePlain plainMessageWithDetail distinctKeys
    (SymbolExpr (mkNode 1 (at_ 0 9)) [PropertyName "nothing"; PropertyName "x"])
    [PropertyName "nothing"; PropertyName "x"] (mkState emptyCache [])
  = Done (true,
          setType (SymbolExpr (mkNode 1 (at_ 0 9)) [PropertyName "nothing"; PropertyName "x"])
            (Some (InvalidType [])) (mkState emptyCache [])).
Proof.
  exact (typeSymbol_unknown_root quotePlain plainMessageWithDetail distinctKeys
           (SymbolExpr (mkNode 1 (at_ 0 9)) [PropertyName "nothing"; PropertyName "x"])
           [PropertyName "nothing"; PropertyName "x"] (mkState emptyCache [])
           eq_refl eq_refl eq_refl).
Defined.

Lemma typeSymbol_configuration_first_witness :
  typeSymbol quotePlain plainMessageWithDetail distinctKeys
    (SymbolExpr (mkNode 1 (at_ 0 9)) [PropertyName "name"])
    [PropertyName "name"]
    (mkState (mkTypeCache ∅ {[ "name" := Some StringType ]} ∅ {[ 2 := Some BoolType ]} ∅
                {[ "name" := 2 ]}) [])
  = Done (true,
          setType (SymbolExpr (mkNode 1 (at_ 0 9)) [PropertyName "name"]) (Some StringType)
            (mkState (mkTypeCache ∅ {[ "name" := Some StringType ]} ∅ {[ 2 := Some BoolType ]}
                        ∅ {[ "name" := 2 ]}) [])).
Proof.
  exact (typeSymbol_configuration_first quotePlain plainMessageWithDetail distinctKeys
           (SymbolExpr (mkNode 1 (at_ 0 9)) [PropertyName "name"]) [PropertyName "name"]
           (mkState (mkTypeCache ∅ {[ "name" := Some StringType ]} ∅ {[ 2 := Some BoolType ]}
                       ∅ {[ "name" := 2 ]}) [])
           StringType eq_refl).
Defined.

End FrameFacts.

(** ** From the token to the package *)

Module LoadingFacts.
Import GoStrings Packages Loading.

Lemma splitOn_free_end c p : forall piece,
  hasByte c p = false -> splitOn c "" p piece = [piece +:+ p].
Proof.
  induction p as [|x p IH]; intros piece H; simp splitOn.
  - rewrite BuiltinFacts.append_empty_r. reflexivity.
  - unfold hasByte in H. simpl in H. apply orb_false_iff in H as [Hx Hp].
    simpl. destruct (ascii_dec c x) as [E|E].
    + apply Ascii.eqb_neq in Hx. contradiction.
    + simpl. rewrite (IH _ Hp), BuiltinFacts.append_assoc. reflexivity.
Qed.

Lemma splitOn_free c p r : forall piece,
  hasByte c p = false ->
  splitOn c "" (p +:+ String c r) piece = (piece +:+ p) :: splitOn c "" r "".
Proof.
  induction p as [|x p IH]; intros piece H.
  - rewrite BuiltinFacts.append_nil_l, BuiltinFacts.append_empty_r. simp splitOn.
    simpl. destruct (ascii_dec c c) as [_|E]; [|contradiction].
    assert (String.prefix "" r = true) as -> by (destruct r; reflexivity).
    reflexivity.
  - unfold hasByte in H. simpl in H. apply orb_false_iff in H as [Hx Hp].
    rewrite BuiltinFacts.append_cons. simp splitOn.
    simpl. destruct (ascii_dec c x) as [E|E].
    + apply Ascii.eqb_neq in Hx. contradiction.
    + simpl. rewrite (IH _ Hp), BuiltinFacts.append_assoc. reflexivity.
Qed.

Lemma Split_free p r :
  hasByte ":" p = false -> Split (p +:+ ":" +:+ r) ":" = p :: Split r ":".
Proof.
  intros H. unfold Split.
  change (p +:+ ":" +:+ r) with (p +:+ String ":" r).
  rewrite (splitOn_free _ p r "" H). reflexivity.
Qed.

Lemma Split_free_end p : hasByte ":" p = false -> Split p ":" = [p].
Proof. intros H. unfold Split. rewrite (splitOn_free_end _ p "" H). reflexivity. Qed.

Lemma Split_not_nil s : Split s ":" <> [].
Proof. unfold Split. apply BuiltinFacts.splitOn_not_nil. Qed.

Lemma resolvePkgName_provider (pkg : string) :
  hasByte ":" pkg = false -> resolvePkgName ("pulumi:providers:" +:+ pkg) = pkg.
Proof.
  intros Hfree. unfold resolvePkgName.
  change ("pulumi:providers:" +:+ pkg) with ("pulumi" +:+ ":" +:+ ("providers" +:+ ":" +:+ pkg)).
  rewrite (Split_free "pulumi" _ eq_refl), (Split_free "providers" _ eq_refl).
  rewrite (Split_free_end pkg Hfree). reflexivity.
Qed.

(** X20: The package of a token is its first label, except for a provider token
    [pulumi:providers:pkg], whose package is the last label; a name without
    a colon is its own package. *)
Theorem resolvePkgName_labels (pkg : string) :
  hasByte ":" pkg = false ->
  (pkg <> "pulumi" -> forall rest, resolvePkgName (pkg +:+ ":" +:+ rest) = pkg) /\
  resolvePkgName ("pulumi:providers:" +:+ pkg) = pkg /\
  resolvePkgName pkg = pkg.
Proof.
  intros Hfree. split; [|split].
  - intros Hne rest. unfold resolvePkgName. rewrite (Split_free pkg rest Hfree).
    unfold part. simpl nth.
    destruct (String.eqb_spec pkg "pulumi") as [E|E]; [contradiction|].
    rewrite andb_false_r. reflexivity.
  - apply resolvePkgName_provider, Hfree.
  - unfold resolvePkgName. rewrite (Split_free_end pkg Hfree). reflexivity.
Qed.

Lemma resolvePkgName_labels_witness :
  hasByte ":" "aws" = false /\
  resolvePkgName ("aws" +:+ ":" +:+ "s3:Bucket") = "aws" /\
  resolvePkgName ("pulumi:providers:" +:+ "aws") = "aws".
Proof.
  split; [reflexivity|].
  destruct (resolvePkgName_labels "aws" eq_refl) as (H1 & H2 & _).
  split; [apply H1; discriminate | exact H2].
Defined.

Section ResolveMore.

Variable ToLowerCamel : string -> string.
Variable Quote : string -> string.

(** X21: A function token of two or three parts resolves to the first function
    found under the token itself, then [pkg:index:name] (a token of two
    parts), then the legacy form [pkg:mod/lowerName:name]; unlike a resource
    token, [pulumi:providers:pkg] gets no special treatment. *)
Theorem ResolveFunction_candidates (p : SchemaPackage) (typeName : string) :
  List.length (Split typeName ":") = 2 \/ List.length (Split typeName ":") = 3 ->
  Packages.ResolveFunction ToLowerCamel Quote p typeName
  = match firstFunction p (candidateNames ToLowerCamel typeName) with
    | Some fn => Ok (FunctionToken fn)
    | None =>
        Err ("unable to find function " +:+ Quote typeName
             +:+ " in resource provider " +:+ Quote (resourcePackage_Name p))
    end.
Proof.
  intros Hlen. unfold Packages.ResolveFunction, candidateNames.
  destruct (Split typeName ":") as [|a [|b [|c [|d l]]]] eqn:E;
    simpl in Hlen; try (destruct Hlen; discriminate).
  - unfold part. simpl.
    destruct (GetFunction p typeName); [reflexivity|].
    destruct (GetFunction p (a +:+ ":index:" +:+ b)); [reflexivity|].
    destruct (GetFunction p _); reflexivity.
  - unfold part. simpl.
    destruct (GetFunction p typeName); [reflexivity|].
    destruct (GetFunction p _); reflexivity.
Qed.

Variable loader : string -> result SchemaPackage.

(** X22: A token that does not have two or three parts is refused with the same
    error by every entry point, before any package is loaded or looked
    into. *)
Theorem invalid_token_refused (p : SchemaPackage) (typeName : string) :
  List.length (Split typeName ":") < 2 \/ 3 < List.length (Split typeName ":") ->
  Packages.ResolveResource ToLowerCamel Quote p typeName
    = Err ("invalid type token " +:+ Quote typeName) /\
  Packages.ResolveFunction ToLowerCamel Quote p typeName
    = Err ("invalid type token " +:+ Quote typeName) /\
  Loading.ResolveResource ToLowerCamel Quote loader typeName
    = Err ("invalid type token " +:+ Quote typeName) /\
  Loading.ResolveFunction ToLowerCamel Quote loader typeName
    = Err ("invalid type token " +:+ Quote typeName).
Proof.
  intros H.
  unfold Loading.ResolveResource, Loading.ResolveFunction, loadPackage,
    Packages.ResolveResource, Packages.ResolveFunction.
  destruct (Nat.ltb_spec (List.length (Split typeName ":")) 2);
    destruct (Nat.ltb_spec 3 (List.length (Split typeName ":"))); simpl;
    repeat split; try reflexivity; lia.
Qed.

(** X23: The provider token [pulumi:providers:pkg] makes the loader load [pkg],
    and resolves to the provider of the package loaded, when that package
    bears the name asked for. *)
Theorem ResolveResource_provider_token (name : string) (p : SchemaPackage) :
  hasByte ":" name = false ->
  loader name = Ok p ->
  PackageName p = name ->
  Loading.ResolveResource ToLowerCamel Quote loader ("pulumi:providers:" +:+ name)
  = Ok (p, ResourceToken (Provider p)).
Proof.
  intros Hfree Hload Hname.
  assert (Split ("pulumi:providers:" +:+ name) ":" = ["pulumi"; "providers"; name]) as Hs.
  { change ("pulumi:providers:" +:+ name)
      with ("pulumi" +:+ ":" +:+ ("providers" +:+ ":" +:+ name)).
    rewrite (Split_free "pulumi" _ eq_refl), (Split_free "providers" _ eq_refl).
    rewrite (Split_free_end name Hfree). reflexivity. }
  unfold Loading.ResolveResource, loadPackage.
  rewrite Hs. simpl.
  rewrite (resolvePkgName_provider name Hfree), Hload.
  unfold Packages.ResolveResource. rewrite Hs. unfold part. simpl.
  rewrite Hname, String.eqb_refl. reflexivity.
Qed.

End ResolveMore.

Lemma ResolveFunction_candidates_witness :
  (List.length (Split "aws:getAmi" ":") = 2 \/ List.length (Split "aws:getAmi" ":") = 3) /\
  Packages.ResolveFunction lowerFirst quotePlain
    (mkPackage "aws" (mkResource "pulumi:providers:aws" "aws") ∅
       {[ "aws:index/getAmi:getAmi" := mkFunction "aws:index/getAmi:getAmi" ]})
    "aws:getAmi"
  = Ok "aws:index/getAmi:getAmi".
Proof.
  split; [left; reflexivity|].
  rewrite (ResolveFunction_candidates lowerFirst quotePlain _ "aws:getAmi"
             (or_introl eq_refl)).
  reflexivity.
Defined.

Lemma invalid_token_refused_witness :
  (List.length (Split "Bucket" ":") < 2 \/ 3 < List.length (Split "Bucket" ":")) /\
  Loading.ResolveResource lowerFirst quotePlain (fun _ => Ok awsPackage) "Bucket"
  = Err ("invalid type token " +:+ quotePlain "Bucket").
Proof.
  assert (List.length (Split "Bucket" ":") < 2 \/ 3 < List.length (Split "Bucket" ":"))
    as H by (left; vm_compute; lia).
  split; [exact H|].
  exact (proj1 (proj2 (proj2 (invalid_token_refused lowerFirst quotePlain
                                 (fun _ => Ok awsPackage) awsPackage "Bucket" H)))).
Defined.

Lemma ResolveResource_provider_token_witness :
  hasByte ":" "aws" = false /\
  Loading.ResolveResource lowerFirst quotePlain
    (fun name => if String.eqb name "aws" then Ok awsPackage else Err "no such package")
    ("pulumi:providers:" +:+ "aws")
  = Ok (awsPackage, "pulumi:providers:aws").
Proof.
  split; [reflexivity|].
  exact (ResolveResource_provider_token lowerFirst quotePlain
           (fun name => if String.eqb name "aws" then Ok awsPackage else Err "no such package")
           "aws" awsPackage eq_refl eq_refl eq_refl).
Defined.

Section PluginFacts.

Variable ExprError : stringExpr -> string -> string -> Diagnostic.
Variable HasErrors : list Diagnostic -> bool.

Lemma mergeField_cases what expr pkg current :
  (snd (mergeField ExprError what expr pkg current) = [] /\
   agrees (GetValue expr) (fst (mergeField ExprError what expr pkg current)) /\
   forall v, agrees v current -> agrees v (fst (mergeField ExprError what expr pkg current)))
  \/
  (exists summary detail,
     snd (mergeField ExprError what expr pkg current) = [ExprError expr summary detail]).
Proof.
  unfold mergeField.
  destruct (String.eqb_spec (GetValue expr) "") as [Ev|Ev]; simpl.
  { left. split; [reflexivity|]. split; [left; exact Ev | auto]. }
  destruct (String.eqb_spec current (GetValue expr)) as [Ec|Ec]; simpl.
  { left. split; [reflexivity|]. split; [right; exact Ec | auto]. }
  destruct (String.eqb_spec current "") as [E0|E0]; simpl.
  - left. split; [reflexivity|]. split; [right; reflexivity|].
    intros v [Hv|Hv]; [left; exact Hv | left; congruence].
  - right. eexists. eexists. reflexivity.
Qed.

Lemma visited_step processed acc r :
  visited ExprError processed acc ->
  visited ExprError (processed ++ [r]) (visitResource ExprError acc r).
Proof.
  destruct acc as [m ds]. intros (Hd & Hk & Hv). simpl in Hd, Hk, Hv.
  unfold visitResource.
  set (pkg := resolvePkgName (TypeValue r)).
  destruct (m !! pkg) as [entry|] eqn:El.
  - pose proof (mergeField_cases "version" (OptionsVersion r) pkg (version entry)) as Hm1.
    pose proof (mergeField_cases "plugin download URL" (OptionsPluginDownloadURL r) pkg
                  (pluginDownloadURL entry)) as Hm2.
    destruct (mergeField ExprError "version" _ pkg (version entry)) as [v d1].
    destruct (mergeField ExprError "plugin download URL" _ pkg (pluginDownloadURL entry))
      as [u d2].
    simpl in Hm1, Hm2. split; [|split]; simpl.
    + intros d Hin. apply in_app_or in Hin as [Hin|Hin]; [apply Hd, Hin|].
      apply in_app_or in Hin as [Hin|Hin].
      * destruct Hm1 as [(-> & _)|(s & t & ->)]; [destruct Hin|].
        destruct Hin as [<-|[]]. eexists. eexists. eexists. reflexivity.
      * destruct Hm2 as [(-> & _)|(s & t & ->)]; [destruct Hin|].
        destruct Hin as [<-|[]]. eexists. eexists. eexists. reflexivity.
    + intros pkg' Hs. destruct (decide (pkg = pkg')) as [<-|Hne].
      * exists r. split; [apply in_or_app; right; left; reflexivity | reflexivity].
      * rewrite lookup_insert_ne in Hs by exact Hne.
        destruct (Hk pkg' Hs) as (r' & Hin & E).
        exists r'. split; [apply in_or_app; left; exact Hin | exact E].
    + intros Hnil. apply app_eq_nil in Hnil as [Hds Hnil].
      apply app_eq_nil in Hnil as [H1 H2].
      destruct Hm1 as [(_ & Ha1 & Hmono1)|(s & t & E)]; [|rewrite E in H1; discriminate].
      destruct Hm2 as [(_ & Ha2 & Hmono2)|(s & t & E)]; [|rewrite E in H2; discriminate].
      intros r' Hin. apply in_app_or in Hin as [Hin|[<-|[]]].
      * destruct (Hv Hds r' Hin) as (e' & He' & Hv' & Hu').
        destruct (decide (pkg = resolvePkgName (TypeValue r'))) as [E|Hne].
        -- rewrite <- E in *. rewrite lookup_insert_eq.
           eexists. split; [reflexivity|]. simpl.
           assert (e' = entry) as -> by congruence.
           split; [apply Hmono1, Hv' | apply Hmono2, Hu'].
        -- rewrite lookup_insert_ne by exact Hne.
           exists e'. split; [exact He'|]. split; assumption.
      * fold pkg. rewrite lookup_insert_eq.
        eexists. split; [reflexivity|]. simpl. split; assumption.
  - split; [|split]; simpl.
    + exact Hd.
    + intros pkg' Hs. destruct (decide (pkg = pkg')) as [<-|Hne].
      * exists r. split; [apply in_or_app; right; left; reflexivity | reflexivity].
      * rewrite lookup_insert_ne in Hs by exact Hne.
        destruct (Hk pkg' Hs) as (r' & Hin & E).
        exists r'. split; [apply in_or_app; left; exact Hin | exact E].
    + intros Hds r' Hin. apply in_app_or in Hin as [Hin|[<-|[]]].
      * destruct (Hv Hds r' Hin) as (e' & He' & Hv' & Hu').
        destruct (decide (pkg = resolvePkgName (TypeValue r'))) as [E|Hne].
        -- rewrite <- E in He'. simpl in He'. congruence.
        -- rewrite lookup_insert_ne by exact Hne.
           exists e'. split; [exact He'|]. split; assumption.
      * fold pkg. rewrite lookup_insert_eq.
        eexists. split; [reflexivity|]. simpl. split; right; reflexivity.
Qed.

Lemma visited_fold resources : forall processed acc,
  visited ExprError processed acc ->
  visited ExprError (processed ++ resources)
    (fold_left (visitResource ExprError) resources acc).
Proof.
  induction resources as [|r resources IH]; intros processed acc H; simpl.
  - rewrite app_nil_r. exact H.
  - replace (processed ++ r :: resources) with ((processed ++ [r]) ++ resources)
      by (rewrite <- app_assoc; reflexivity).
    apply IH, visited_step, H.
Qed.

Lemma visited_all resources :
  visited ExprError resources (fold_left (visitResource ExprError) resources (∅, [])).
Proof.
  apply (visited_fold resources []).
  split; [|split]; simpl.
  - intros d [].
  - intros pkg Hs. rewrite lookup_empty in Hs. destruct Hs as [x Hx]. discriminate Hx.
  - intros _ r [].
Qed.

(** What the two are taken to do: [ExprError] makes a diagnostic of severity
    error, and [HasErrors] tells whether a collection holds one. *)
Hypothesis HasErrors_nil : HasErrors [] = false.
Hypothesis HasErrors_ExprError : forall ds,
  ds <> [] ->
  (forall d, In d ds -> exists e summary detail, d = ExprError e summary detail) ->
  HasErrors ds = true.

(** X24: When [GetReferencedPlugins] reports nothing, it returns one plugin for
    each package the resources refer to and no other, and the version and
    the download URL of a plugin are those every resource of the package
    that gives one asks for. *)
Theorem GetReferencedPlugins_consistent (resources : list ResourceDecl)
  (plugins : list Plugin) :
  GetReferencedPlugins ExprError HasErrors resources = (plugins, []) ->
  List.NoDup (map Package plugins) /\
  (forall r, In r resources ->
     exists p, In p plugins /\
       Package p = resolvePkgName (TypeValue r) /\
       agrees (GetValue (OptionsVersion r)) (Version p) /\
       agrees (GetValue (OptionsPluginDownloadURL r)) (PluginDownloadURL p)) /\
  (forall p, In p plugins ->
     exists r, In r resources /\ resolvePkgName (TypeValue r) = Package p).
Proof.
  unfold GetReferencedPlugins.
  pose proof (visited_all resources) as Hvis.
  destruct (fold_left (visitResource ExprError) resources (∅, [])) as [m ds].
  destruct Hvis as (Hd & Hk & Hv). simpl in Hd, Hk, Hv.
  destruct (HasErrors ds) eqn:He.
  { intros [= <- ->]. rewrite HasErrors_nil in He. discriminate He. }
  assert (ds = []) as Hds.
  { destruct ds as [|d ds]; [reflexivity|].
    rewrite (HasErrors_ExprError (d :: ds)) in He by (discriminate || exact Hd).
    discriminate He. }
  intros [= <-]. split; [|split].
  - rewrite map_map. simpl.
    apply NoDup_ListNoDup. apply (NoDup_fst_map_to_list m).
  - intros r Hr. destruct (Hv Hds r Hr) as (entry & El & Ha & Hu).
    exists (mkPlugin (resolvePkgName (TypeValue r)) (version entry) (pluginDownloadURL entry)).
    split; [|split; [reflexivity | split; assumption]].
    apply in_map_iff. exists (resolvePkgName (TypeValue r), entry).
    split; [reflexivity|].
    apply list_elem_of_In, elem_of_map_to_list, El.
  - intros p Hp. apply in_map_iff in Hp as ([pkg entry] & <- & Hin).
    apply list_elem_of_In, elem_of_map_to_list in Hin. simpl.
    apply Hk. exists entry. exact Hin.
Qed.

(** X25: Two resources of one package that ask for different versions make
    [GetReferencedPlugins] report the conflict and return no plugin at
    all. *)
Theorem GetReferencedPlugins_conflict (resources : list ResourceDecl)
  (r1 r2 : ResourceDecl) :
  In r1 resources -> In r2 resources ->
  resolvePkgName (TypeValue r1) = resolvePkgName (TypeValue r2) ->
  GetValue (OptionsVersion r1) <> "" ->
  GetValue (OptionsVersion r2) <> "" ->
  GetValue (OptionsVersion r1) <> GetValue (OptionsVersion r2) ->
  fst (GetReferencedPlugins ExprError HasErrors resources) = [] /\
  snd (GetReferencedPlugins ExprError HasErrors resources) <> [].
Proof.
  intros H1 H2 Hpkg Hv1 Hv2 Hne.
  unfold GetReferencedPlugins.
  pose proof (visited_all resources) as Hvis.
  destruct (fold_left (visitResource ExprError) resources (∅, [])) as [m ds].
  destruct Hvis as (Hd & Hk & Hv). simpl in Hd, Hk, Hv.
  destruct (HasErrors ds) eqn:He.
  { simpl. split; [reflexivity|]. intros ->. rewrite HasErrors_nil in He. discriminate He. }
  exfalso.
  assert (ds = []) as Hds.
  { destruct ds as [|d ds]; [reflexivity|].
    rewrite (HasErrors_ExprError (d :: ds)) in He by (discriminate || exact Hd).
    discriminate He. }
  destruct (Hv Hds r1 H1) as (e1 & El1 & [Ha1|Ha1] & _); [contradiction|].
  destruct (Hv Hds r2 H2) as (e2 & El2 & [Ha2|Ha2] & _); [contradiction|].
  rewrite Hpkg in El1. congruence.
Qed.

End PluginFacts.

Lemma anyError_ExprError (ds : list Diagnostic) :
  ds <> [] ->
  (forall d, In d ds -> exists e summary detail, d = plainExprError e summary detail) ->
  anyError ds = true.
Proof.
  destruct ds as [|d ds]; [contradiction|]. intros _ H.
  destruct (H d (or_introl eq_refl)) as (e & summary & detail & ->). reflexivity.
Qed.

Lemma GetReferencedPlugins_consistent_witness :
  GetReferencedPlugins plainExprError anyError [bucketDecl; instanceDecl "5.0.0"]
    = ([mkPlugin "aws" "5.0.0" ""], []) /\
  List.NoDup (map Package [mkPlugin "aws" "5.0.0" ""]).
Proof.
  assert (GetReferencedPlugins plainExprError anyError [bucketDecl; instanceDecl "5.0.0"]
          = ([mkPlugin "aws" "5.0.0" ""], [])) as H by (vm_compute; reflexivity).
  split; [exact H|].
  exact (proj1 (GetReferencedPlugins_consistent plainExprError anyError eq_refl
                  anyError_ExprError [bucketDecl; instanceDecl "5.0.0"] _ H)).
Defined.

Lemma GetReferencedPlugins_conflict_witness :
  fst (GetReferencedPlugins plainExprError anyError [instanceDecl "4.0.0"; instanceDecl "5.0.0"])
    = [] /\
  snd (GetReferencedPlugins plainExprError anyError [instanceDecl "4.0.0"; instanceDecl "5.0.0"])
    <> [].
Proof.
  refine (GetReferencedPlugins_conflict plainExprError anyError eq_refl anyError_ExprError
            [instanceDecl "4.0.0"; instanceDecl "5.0.0"]
            (instanceDecl "4.0.0") (instanceDecl "5.0.0") _ _ _ _ _ _).
  - left. reflexivity.
  - right. left. reflexivity.
  - reflexivity.
  - discriminate.
  - discriminate.
  - discriminate.
Defined.

End LoadingFacts.

(** ** The walk of the type checker *)

Module WalkerFacts.
Import Checker Walker.

Lemma extends_refl a : extends a a.
Proof. repeat split; auto. Qed.

Lemma extends_trans a b c : extends a b -> extends b c -> extends a c.
Proof.
  intros (H1 & H2 & H3 & H4 & H5 & H6 & H7 & H8) (K1 & K2 & K3 & K4 & K5 & K6 & K7 & K8).
  repeat split; try congruence. intros i Hi. apply K8, H8, Hi.
Qed.

Lemma extends_setType a x t :
  extends a (mkAnalysis (setType x (Some t) (state a)) (outputsNil a))
  /\ typedAt (mkAnalysis (setType x (Some t) (state a)) (outputsNil a)) (idOf x).
Proof.
  split.
  - repeat split; try reflexivity.
    intros i (t' & Hi). unfold typedAt. simpl.
    destruct (decide (idOf x = i)) as [<-|Hne].
    + rewrite lookup_insert_eq. eexists. reflexivity.
    + rewrite lookup_insert_ne by exact Hne. eexists. exact Hi.
  - unfold typedAt. simpl. rewrite lookup_insert_eq. eexists. reflexivity.
Qed.

Lemma allTyped_typed a (xs : list Expr) :
  (forall x, In x xs -> typedAt a (idOf x)) ->
  exists types, allTyped (map (exprType (cache (state a))) xs) = Some types.
Proof.
  induction xs as [|x xs IH]; intros H; simpl.
  - eexists. reflexivity.
  - destruct (H x (or_introl eq_refl)) as (t & Ht).
    destruct IH as (types & E); [intros y Hy; apply H; right; exact Hy|].
    unfold exprType at 1. rewrite Ht. simpl. rewrite E. eexists. reflexivity.
Qed.

Lemma allTyped_values a (entries : list (Expr * Expr)) :
  (forall entry, In entry entries -> typedAt a (idOf (snd entry))) ->
  exists types,
    allTyped (map (fun entry => exprType (cache (state a)) (snd entry)) entries) = Some types.
Proof.
  induction entries as [|entry entries IH]; intros H; simpl.
  - eexists. reflexivity.
  - destruct (H entry (or_introl eq_refl)) as (t & Ht).
    destruct IH as (types & E); [intros y Hy; apply H; right; exact Hy|].
    unfold exprType at 1. rewrite Ht. simpl. rewrite E. eexists. reflexivity.
Qed.

Lemma entryKeys_strings (entries : list (Expr * Expr)) :
  forallb (fun entry => match entry with
                        | (StringExpr _ _, value) => plain value
                        | _ => false
                        end) entries = true ->
  exists keys, entryKeys entries = Some keys.
Proof.
  induction entries as [|[key value] entries IH]; simpl; intros H.
  - eexists. reflexivity.
  - apply andb_true_iff in H as [Hk Hrest].
    destruct (IH Hrest) as (keys & E). rewrite E.
    destruct key; try discriminate Hk. simpl. eexists. reflexivity.
Qed.

Lemma list_max_In (l : list nat) n : In n l -> n <= list_max l.
Proof.
  induction l as [|m l IH]; simpl; [tauto|].
  intros [->|H]; [lia|]. specialize (IH H). lia.
Qed.

Section Checked.

Variable Quote : string -> string.
Variable MessageWithDetail :
  NonExistantFieldFormatter -> string -> string -> string * string.
Variable mapKeys : list schemaType -> list schemaType.
Variable ToLower : string -> string.
Variable pkgLoader : PackageLoader.
Variable Parse : string -> option ctype.
Variable builtinName : Expr -> option Expr.
Variable builtinArgs : Expr -> option Expr.

Abbreviation checker :=
  (typeCheckWalker Quote MessageWithDetail mapKeys ToLower pkgLoader Parse).
Abbreviation walkc := (walk_fuel builtinName builtinArgs checker).
Abbreviation visit := (visitExpr Quote MessageWithDetail mapKeys ToLower pkgLoader).

Abbreviation walked :=
  (Walker.walked Quote MessageWithDetail mapKeys ToLower pkgLoader Parse
     builtinName builtinArgs).

Lemma walkList_plain fuel (elements : list Expr) :
  (forall el, In el elements -> walked fuel el) ->
  forall a, exists a',
    walkList (walkc fuel) elements a = Done (true, a') /\
    extends a a' /\
    forall el, In el elements -> typedAt a' (idOf el).
Proof.
  induction elements as [|el elements IH]; intros H a; simpl.
  - exists a. split; [reflexivity|]. split; [apply extends_refl | intros el []].
  - destruct (H el (or_introl eq_refl) a) as (a1 & E1 & X1 & T1).
    rewrite E1. simpl.
    destruct (IH (fun y Hy => H y (or_intror Hy)) a1) as (a2 & E2 & X2 & T2).
    exists a2. split; [exact E2|]. split; [exact (extends_trans _ _ _ X1 X2)|].
    intros y [<-|Hy]; [|apply T2, Hy].
    destruct X2 as (_ & _ & _ & _ & _ & _ & _ & Hmono). apply Hmono, T1.
Qed.

Lemma walkEntries_plain fuel (entries : list (Expr * Expr)) :
  (forall entry, In entry entries -> walked fuel (fst entry) /\ walked fuel (snd entry)) ->
  forall a, exists a',
    walkEntries (walkc fuel) entries a = Done (true, a') /\
    extends a a' /\
    forall entry, In entry entries -> typedAt a' (idOf (snd entry)).
Proof.
  induction entries as [|entry entries IH]; intros H a; simpl.
  - exists a. split; [reflexivity|]. split; [apply extends_refl | intros el []].
  - destruct (H entry (or_introl eq_refl)) as [Hk Hv].
    destruct (Hk a) as (a1 & E1 & X1 & _). rewrite E1. simpl.
    destruct (Hv a1) as (a2 & E2 & X2 & T2). rewrite E2. simpl.
    destruct (IH (fun y Hy => H y (or_intror Hy)) a2) as (a3 & E3 & X3 & T3).
    exists a3. split; [exact E3|].
    split; [exact (extends_trans _ _ _ X1 (extends_trans _ _ _ X2 X3))|].
    intros y [<-|Hy]; [|apply T3, Hy].
    destruct X3 as (_ & _ & _ & _ & _ & _ & _ & Hmono). apply Hmono, T2.
Qed.

Lemma walk_plain_sized : forall fuel x,
  plain x = true -> height x < fuel -> walked fuel x.
Proof.
  induction fuel as [|fuel IH]; intros x Hp Hh; [lia|].
  intros a.
  destruct x as [n|n v|n l|n v|n parts|n accessors|n elements|n entries|n v|n d vs
                |n d src|n idx vs|n v|n token callArgs ret|n kind args];
    try discriminate Hp.
  - eexists. split; [reflexivity|]. apply extends_setType.
  - eexists. split; [reflexivity|]. apply extends_setType.
  - eexists. split; [reflexivity|]. apply extends_setType.
  - eexists. split; [reflexivity|]. apply extends_setType.
  - (* a list *)
    simpl in Hp, Hh.
    destruct (walkList_plain fuel elements) with (a := a) as (a1 & E1 & X1 & T1).
    { intros el Hel. apply IH.
      - exact (proj1 (forallb_forall _ _) Hp el Hel).
      - pose proof (list_max_In _ _ (in_map height _ _ Hel)). lia. }
    destruct (allTyped_typed a1 elements T1) as (types & Ety).
    simpl. rewrite E1. simpl. unfold visitExpr. simpl. rewrite Ety.
    eexists. split; [reflexivity|].
    destruct (extends_setType a1 (ListExpr n elements) (ArrayType (listElementType mapKeys types)))
      as [X2 T2].
    split; [exact (extends_trans _ _ _ X1 X2) | exact T2].
  - (* an object *)
    simpl in Hp, Hh.
    destruct (walkEntries_plain fuel entries) with (a := a) as (a1 & E1 & X1 & T1).
    { intros [key value] Hin.
      pose proof (proj1 (forallb_forall _ _) Hp _ Hin) as Hkv. simpl in Hkv.
      destruct key; try discriminate Hkv. split.
      - apply IH; [reflexivity | simpl; lia].
      - apply IH; [exact Hkv|].
        pose proof (list_max_In _ _
                      (in_map (fun entry => match entry with (_, value) => height value end)
                              _ _ Hin)) as Hle.
        simpl in Hle. simpl. lia. }
    destruct (allTyped_values a1 entries T1) as (types & Ety).
    destruct (entryKeys_strings entries Hp) as (keys & Ek).
    simpl. rewrite E1. simpl. unfold visitExpr. simpl. rewrite Ek, Ety.
    eexists. split; [reflexivity|].
    match goal with
    | |- extends a (mkAnalysis (setType ?x (Some ?t) _) _) /\ _ =>
        destruct (extends_setType a1 x t) as [X2 T2]
    end.
    split; [exact (extends_trans _ _ _ X1 X2) | exact T2].
Qed.

(** X26: Walking an expression made of literals, lists and objects with string
    keys, with the visitors of the type checker and fuel above its height,
    returns true, reports nothing, and leaves the expression with a type
    that is not nil. *)
Theorem walk_plain_typed (x : Expr) (a : analysis) (fuel : nat) :
  plain x = true ->
  height x < fuel ->
  exists a' t,
    walkc fuel (Some x) a = Done (true, a') /\
    diags (state a') = diags (state a) /\
    TypeExpr (cache (state a')) x = Some t.
Proof.
  intros Hp Hh.
  destruct (walk_plain_sized fuel x Hp Hh a) as (a' & E & X & (t & T)).
  exists a', t. split; [exact E|]. split; [exact (proj1 X)|].
  unfold TypeExpr, exprType. rewrite T. reflexivity.
Qed.

(** X27: After [EvalVariable] on a variable whose value is made of literals,
    lists and objects, [TypeVariable] gives for the variable the very type
    that [TypeExpr] gives for its value, which is not nil, and a symbol that
    refers to the variable gets that type too, provided no configuration
    entry bears the name; nothing is reported on the way. *)
Theorem EvalVariable_then_symbol (key n : exprNode) (k : string) (v : Expr)
  (a : analysis) (fuel : nat) :
  plain v = true ->
  height v < fuel ->
  configuration (cache (state a)) !! k = None ->
  exists a1 a2 t,
    EvalVariable builtinName builtinArgs checker fuel (mkEntryNode (StringExpr key k) v) a
      = Done (true, a1) /\
    TypeExpr (cache (state a1)) v = Some t /\
    TypeVariable (cache (state a1)) k = TypeExpr (cache (state a1)) v /\
    visit (SymbolExpr n [PropertyName k]) a1 = Done (true, a2) /\
    TypeExpr (cache (state a2)) (SymbolExpr n [PropertyName k])
      = TypeExpr (cache (state a1)) v /\
    diags (state a2) = diags (state a).
Proof.
  intros Hp Hh Hc.
  destruct (walk_plain_sized fuel (StringExpr key k) eq_refl ltac:(simpl; lia) a)
    as (a0 & E0 & X0 & _).
  destruct (walk_plain_sized fuel v Hp Hh a0) as (a1 & E1 & X1 & (t & T1)).
  pose proof (extends_trans _ _ _ X0 X1) as (Hd & _ & _ & Hcfg & _ & _ & _ & _).
  pose (r := withCache a1
               (mkTypeCache (resources (cache (state a1))) (configuration (cache (state a1)))
                  (outputs (cache (state a1))) (exprs (cache (state a1)))
                  (resourceNames (cache (state a1)))
                  (<[k := idOf v]> (variableNames (cache (state a1)))))).
  assert (TypeExpr (cache (state r)) v = Some t) as Hv.
  { unfold TypeExpr, exprType. simpl. unfold nilable in *. rewrite T1. reflexivity. }
  assert (visit (SymbolExpr n [PropertyName k]) r
          = Done (true, mkAnalysis (setType (SymbolExpr n [PropertyName k]) (Some t) (state r))
                          (outputsNil r))) as Hsym.
  { unfold visitExpr. simpl. unfold typeSymbol. simpl.
    unfold nilable in *. rewrite lookup_insert_eq, Hcfg, Hc, T1. simpl.
    rewrite ?AccessSteps.taccess_nil. reflexivity. }
  exists r. eexists. exists t.
  split.
  { unfold EvalVariable. simpl. rewrite E0. simpl. rewrite E1. reflexivity. }
  split; [exact Hv|].
  split.
  { rewrite Hv. unfold TypeVariable. simpl. rewrite lookup_insert_eq.
    unfold nilable in *. rewrite T1. reflexivity. }
  split; [exact Hsym|].
  split; [|exact Hd].
  rewrite Hv. unfold TypeExpr, exprType. simpl. rewrite lookup_insert_eq. reflexivity.
Qed.

(** X28: A configuration entry with a default takes the type of the default,
    whatever type it declares, and a symbol of that name is typed from it,
    whatever variable or resource bears the same name. *)
Theorem typeConfig_default_shadows (k : string) (declared : option string)
  (default : Expr) (n : exprNode) (a : analysis) (t : schemaType) :
  exprType (cache (state a)) default = Some t ->
  exists a1 a2,
    typeConfig Parse (mkConfigNode k (mkConfigParamDecl declared (Some default))) a
      = Done (true, a1) /\
    TypeConfig (cache (state a1)) k = Some t /\
    visit (SymbolExpr n [PropertyName k]) a1 = Done (true, a2) /\
    TypeExpr (cache (state a2)) (SymbolExpr n [PropertyName k]) = Some t.
Proof.
  intros Ht. unfold typeConfig. simpl. rewrite Ht.
  eexists. eexists. split; [reflexivity|].
  split.
  { unfold TypeConfig. simpl. rewrite lookup_insert_eq. reflexivity. }
  unfold visitExpr. simpl. unfold typeSymbol. simpl.
  unfold nilable in *. rewrite lookup_insert_eq.
  rewrite ?AccessSteps.taccess_nil. simpl.
  split; [reflexivity|].
  unfold TypeExpr, exprType. simpl. rewrite lookup_insert_eq. reflexivity.
Qed.

(** X29: [newTypeCache] never makes the map of the outputs, and no visitor of the
    type checker does: as long as the map is nil, visiting an expression, a
    variable or a configuration entry leaves it nil, and [EvalOutput], which
    visits the output first, stops in the write to it. *)
Theorem EvalOutput_nil_outputs (a : analysis) :
  outputsNil a = true ->
  (forall fuel node,
     EvalOutput builtinName builtinArgs checker fuel node a
     = Stuck "assignment to entry in nil map") /\
  (forall x b a', visit x a = Done (b, a') -> outputsNil a' = true) /\
  (forall node b a', typeVariable node a = Done (b, a') -> outputsNil a' = true) /\
  (forall node b a', typeConfig Parse node a = Done (b, a') -> outputsNil a' = true).
Proof.
  intros Hnil. split; [|split; [|split]].
  - intros fuel node. unfold EvalOutput. simpl. unfold typeOutput. rewrite Hnil. reflexivity.
  - intros x b a'. unfold visitExpr.
    destruct (typeExpr _ _ _ _ _ x (state a)) as [[b' st]|]; [|discriminate].
    intros [= <- <-]. exact Hnil.
  - intros node b a'. unfold typeVariable. intros [= <- <-]. exact Hnil.
  - intros node b a'. unfold typeConfig.
    destruct (Default (ConfigValue node)).
    + intros [= <- <-]. exact Hnil.
    + destruct (ConfigType (ConfigValue node)) as [type|].
      * destruct (Parse type) as [c|].
        -- destruct (configTypeToSchema c); [|discriminate]. intros [= <- <-]. exact Hnil.
        -- intros [= <- <-]. exact Hnil.
      * intros [= <- <-]. exact Hnil.
Qed.

(** X30: The built-in variable that [newTypeCache] declares has the properties
    [cwd], [project] and [stack], all strings, and no other: a symbol for
    one of them is a string and reports nothing, and a symbol for any other
    property reports one error. *)
Theorem newTypeCache_pulumi_variable (PulumiVarName : string) (pulumiExpr : nat)
  (n : exprNode) (f : string) :
  (In f ["cwd"; "project"; "stack"] ->
   exists a',
     visit (SymbolExpr n [PropertyName PulumiVarName; PropertyName f])
       (newTypeCache PulumiVarName pulumiExpr) = Done (true, a') /\
     TypeExpr (cache (state a')) (SymbolExpr n [PropertyName PulumiVarName; PropertyName f])
       = Some StringType /\
     diags (state a') = []) /\
  (~ In f ["cwd"; "project"; "stack"] ->
   exists a' d,
     visit (SymbolExpr n [PropertyName PulumiVarName; PropertyName f])
       (newTypeCache PulumiVarName pulumiExpr) = Done (true, a') /\
     diags (state a') = [d] /\
     DiagSeverity d = DiagError).
Proof.
  assert (forall g t,
            propertyTypes [mkProperty "cwd" StringType; mkProperty "project" StringType;
                           mkProperty "stack" StringType] !! g = Some t -> t = StringType)
    as Hall.
  { intros g t Hg. apply propertyTypes_lookup in Hg as (p & Hin & _ & <-).
    destruct Hin as [<-|[<-|[<-|[]]]]; reflexivity. }
  split.
  - intros Hin. unfold visitExpr. simpl. unfold typeSymbol. simpl.
    unfold nilable in *. rewrite !lookup_singleton_eq, lookup_empty. simpl.
    rewrite typePropertyAccess_unfold. unfold typePropertyAccess_body. simpl.
    unfold accessProperty.
    assert (propertyTypes [mkProperty "cwd" StringType; mkProperty "project" StringType;
                           mkProperty "stack" StringType] !! f = Some StringType) as ->.
    { unfold propertyTypes. simpl.
      destruct Hin as [<-|[<-|[<-|[]]]].
      - rewrite lookup_insert_ne by discriminate. rewrite lookup_insert_ne by discriminate.
        apply lookup_insert_eq.
      - rewrite lookup_insert_ne by discriminate. apply lookup_insert_eq.
      - apply lookup_insert_eq. }
    rewrite ?AccessSteps.taccess_nil. simpl.
    eexists. split; [reflexivity|]. split; [|reflexivity].
    unfold TypeExpr, exprType. simpl. rewrite lookup_insert_eq. reflexivity.
  - intros Hnot. unfold visitExpr. simpl. unfold typeSymbol. simpl.
    unfold nilable in *. rewrite !lookup_singleton_eq, lookup_empty. simpl.
    rewrite typePropertyAccess_unfold. unfold typePropertyAccess_body. simpl.
    unfold accessProperty.
    assert (propertyTypes [mkProperty "cwd" StringType; mkProperty "project" StringType;
                           mkProperty "stack" StringType] !! f = None) as ->.
    { unfold propertyTypes. simpl.
      rewrite !lookup_insert_ne, lookup_empty; [reflexivity|..];
        intros <-; apply Hnot; simpl; auto. }
    destruct (MessageWithDetail _ f f) as [summary detail]. simpl.
    eexists. eexists. split; [reflexivity|]. split; reflexivity.
Qed.

End Checked.

Lemma walk_plain_typed_witness :
  exists a' t,
    walk_fuel (fun _ => None) (fun _ => None)
      (typeCheckWalker quotePlain plainMessageWithDetail distinctKeys ToLowerASCII testLoader
         (fun _ => None)) 2
      (Some (ListExpr (mkNode 1 (at_ 0 9))
               [StringExpr (mkNode 2 (at_ 1 4)) "a"; NumberExpr (mkNode 3 (at_ 5 8)) "1"]))
      (newTypeCache "pulumi" 0)
    = Done (true, a') /\
    diags (state a') = diags (state (newTypeCache "pulumi" 0)) /\
    TypeExpr (cache (state a'))
      (ListExpr (mkNode 1 (at_ 0 9))
         [StringExpr (mkNode 2 (at_ 1 4)) "a"; NumberExpr (mkNode 3 (at_ 5 8)) "1"])
    = Some t.
Proof.
  apply (walk_plain_typed quotePlain plainMessageWithDetail distinctKeys ToLowerASCII
           testLoader (fun _ => None) (fun _ => None) (fun _ => None)).
  - reflexivity.
  - simpl. lia.
Defined.

Lemma EvalVariable_then_symbol_witness :
  exists a1 a2 t,
    EvalVariable (fun _ => None) (fun _ => None)
      (typeCheckWalker quotePlain plainMessageWithDetail distinctKeys ToLowerASCII testLoader
         (fun _ => None)) 1
      (mkEntryNode (StringExpr (mkNode 1 (at_ 0 4)) "name") (BooleanExpr (mkNode 2 (at_ 6 9)) true))
      (newTypeCache "pulumi" 0)
    = Done (true, a1) /\
    TypeExpr (cache (state a1)) (BooleanExpr (mkNode 2 (at_ 6 9)) true) = Some t /\
    TypeVariable (cache (state a1)) "name"
      = TypeExpr (cache (state a1)) (BooleanExpr (mkNode 2 (at_ 6 9)) true) /\
    visitExpr quotePlain plainMessageWithDetail distinctKeys ToLowerASCII testLoader
      (SymbolExpr (mkNode 3 (at_ 20 27)) [PropertyName "name"]) a1 = Done (true, a2) /\
    TypeExpr (cache (state a2)) (SymbolExpr (mkNode 3 (at_ 20 27)) [PropertyName "name"])
      = TypeExpr (cache (state a1)) (BooleanExpr (mkNode 2 (at_ 6 9)) true) /\
    diags (state a2) = diags (state (newTypeCache "pulumi" 0)).
Proof.
  apply (EvalVariable_then_symbol quotePlain plainMessageWithDetail distinctKeys ToLowerASCII
           testLoader (fun _ => None) (fun _ => None) (fun _ => None)).
  - reflexivity.
  - simpl. lia.
  - reflexivity.
Defined.

Lemma typeConfig_default_shadows_witness :
  exprType (cache (state defaultTyped)) (StringExpr (mkNode 5 (at_ 30 33)) "x")
    = Some StringType /\
  exists a1 a2,
    typeConfig (fun _ => None)
      (mkConfigNode "name" (mkConfigParamDecl (Some "Number")
                              (Some (StringExpr (mkNode 5 (at_ 30 33)) "x"))))
      defaultTyped
    = Done (true, a1) /\
    TypeConfig (cache (state a1)) "name" = Some StringType /\
    visitExpr quotePlain plainMessageWithDetail distinctKeys ToLowerASCII testLoader
      (SymbolExpr (mkNode 3 (at_ 40 47)) [PropertyName "name"]) a1 = Done (true, a2) /\
    TypeExpr (cache (state a2)) (SymbolExpr (mkNode 3 (at_ 40 47)) [PropertyName "name"])
    = Some StringType.
Proof.
  split; [reflexivity|].
  apply (typeConfig_default_shadows quotePlain plainMessageWithDetail distinctKeys
           ToLowerASCII testLoader (fun _ => None)).
  reflexivity.
Defined.

Lemma EvalOutput_nil_outputs_witness :
  outputsNil (newTypeCache "pulumi" 0) = true /\
  EvalOutput (fun _ => None) (fun _ => None)
    (typeCheckWalker quotePlain plainMessageWithDetail distinctKeys ToLowerASCII testLoader
       (fun _ => None)) 3
    (mkEntryNode (StringExpr (mkNode 1 (at_ 0 4)) "out") (StringExpr (mkNode 2 (at_ 6 9)) "v"))
    (newTypeCache "pulumi" 0)
  = Stuck "assignment to entry in nil map".
Proof.
  split; [reflexivity|].
  exact (proj1 (EvalOutput_nil_outputs quotePlain plainMessageWithDetail distinctKeys
                  ToLowerASCII testLoader (fun _ => None) (fun _ => None) (fun _ => None)
                  (newTypeCache "pulumi" 0) eq_refl) 3 _).
Defined.

End WalkerFacts.
